(** * Gemini Runner: the progression store and the simulation tick

    A shallow embedding of [src/store.ts] (the zustand store that owns
    score, currency, lives, level and abilities) and of the per-frame
    loop of [src/components/World/LevelManager.tsx] (movement, collision
    and eviction of world entities), with the properties their
    specification states about them; and of what surrounds them in the
    same files: the other operations of the store, the drone, the sonic
    blast listener, the Spawn Planner, the level transitions, the shop
    screen and the blast button of the HUD, with properties read off the
    code.

    Conventions of the embedding.
    - A JavaScript [number] that holds a count (score, currency, lives,
      level, shield and magnet counters, letter indices, costs) is a [Z];
      the embedding is exact as long as such a value stays a safe integer
      (below 2^53 in magnitude).
    - A [number] that holds a measure (speed, coordinates, multipliers) is a
      binary64 [float], with the IEEE-754 operations of JavaScript.
    - [targetLevels] is a level count or [Infinity].
    - The store is threaded through a small state monad whose [set] merges
      a partial state, as zustand's [set] does, and records the call. *)

From Stdlib Require Import ZArith List Bool String Floats Lia QArith Qminmax Qabs.
From Stdlib Require Import Permutation Qround.
Import ListNotations.

Set Warnings "-inexact-float".

Local Open Scope Z_scope.

(** ** JavaScript numbers *)

(** The binary64 value of an integer (round to nearest even). *)
Definition Z2f (z : Z) : float :=
  SF2Prim (binary_normalize prec emax z 0 false).

(** [Math.floor] of a finite double, as an integer.  Infinities and NaN have
    no integer floor; they arise in the store only from operands beyond
    1e300, outside the safe-integer convention, and are sent to [0]. *)
Definition Math_floor (x : float) : Z :=
  match Prim2SF x with
  | S754_finite s m e =>
      let n := if s then Z.neg m else Z.pos m in
      if 0 <=? e then n * 2 ^ e else n / 2 ^ (- e)
  | _ => 0
  end.

(** The exact rational value of a finite double. *)
Definition f2Q (x : float) : Q :=
  match Prim2SF x with
  | S754_finite s m e =>
      let n := if s then Z.neg m else Z.pos m in
      if 0 <=? e then inject_Z (n * 2 ^ e) else Qmake n (Z.to_pos (2 ^ (- e)))
  | _ => 0%Q
  end.

(** ** [types.ts] *)

(** Modelled from the spec: the enumeration [GameStatus] of [types.ts], which
    is not among the sources; its members are the states of the spec's state
    machine and the ones the store names. *)
Inductive GameStatus : Type :=
  MENU | LEVEL_SELECT | PLAYING | SHOP | GAME_OVER | VICTORY.

(** Modelled from the spec: the enumeration [GameMode] of [types.ts]
    (NORMAL/ASSIST/CHEAT). *)
Inductive GameMode : Type := NORMAL | ASSIST | CHEAT.

Definition GameMode_eqb (a b : GameMode) : bool :=
  match a, b with
  | NORMAL, NORMAL | ASSIST, ASSIST | CHEAT, CHEAT => true
  | _, _ => false
  end.

(** [targetLevels: number // The goal level count (Infinity for endless)] *)
Inductive LevelGoal : Type :=
| Levels (n : Z)
| Infinity.

(** [targetLevels === Infinity] *)
Definition isInfinity (g : LevelGoal) : bool :=
  match g with Infinity => true | Levels _ => false end.

(** [level < targetLevels] *)
Definition below (level : Z) (g : LevelGoal) : bool :=
  match g with Infinity => true | Levels n => level <? n end.

(** ** [store.ts]: the state *)

Record GameState : Type := mkGameState {
  status : GameStatus;
  gameMode : GameMode;
  targetLevels : LevelGoal;
  score : Z;
  currency : Z;
  lives : Z;
  maxLives : Z;
  speed : float;
  collectedLetters : list Z;
  level : Z;
  laneCount : Z;
  gemsCollected : Z;
  distance : Z;
  hasDoubleJump : bool;
  hasImmortality : bool;
  isImmortalityActive : bool;
  isShopInvincible : bool;
  magnetLevel : Z;
  shieldCount : Z;
  hasTimeWarp : bool;
  isTimeWarpActive : bool;
  hasGemBooster : bool;
  hasLuckCharm : bool;
  hasSonicBlast : bool;
  lastSonicBlastTime : Z;
  hasDrone : bool;
  hasRevive : bool;
  hasDiscount : bool;
  playerLane : Z;
  showJumpAlert : bool
}.

Inductive Update : Type :=
| upd_status (v : GameStatus)
| upd_gameMode (v : GameMode)
| upd_targetLevels (v : LevelGoal)
| upd_score (v : Z)
| upd_currency (v : Z)
| upd_lives (v : Z)
| upd_maxLives (v : Z)
| upd_speed (v : float)
| upd_collectedLetters (v : list Z)
| upd_level (v : Z)
| upd_laneCount (v : Z)
| upd_gemsCollected (v : Z)
| upd_distance (v : Z)
| upd_hasDoubleJump (v : bool)
| upd_hasImmortality (v : bool)
| upd_isImmortalityActive (v : bool)
| upd_isShopInvincible (v : bool)
| upd_magnetLevel (v : Z)
| upd_shieldCount (v : Z)
| upd_hasTimeWarp (v : bool)
| upd_isTimeWarpActive (v : bool)
| upd_hasGemBooster (v : bool)
| upd_hasLuckCharm (v : bool)
| upd_hasSonicBlast (v : bool)
| upd_lastSonicBlastTime (v : Z)
| upd_hasDrone (v : bool)
| upd_hasRevive (v : bool)
| upd_hasDiscount (v : bool)
| upd_playerLane (v : Z)
| upd_showJumpAlert (v : bool).

Definition applyUpdate (u : Update) (s : GameState) : GameState :=
  {|
    status := match u with upd_status v => v | _ => status s end;
    gameMode := match u with upd_gameMode v => v | _ => gameMode s end;
    targetLevels := match u with upd_targetLevels v => v | _ => targetLevels s end;
    score := match u with upd_score v => v | _ => score s end;
    currency := match u with upd_currency v => v | _ => currency s end;
    lives := match u with upd_lives v => v | _ => lives s end;
    maxLives := match u with upd_maxLives v => v | _ => maxLives s end;
    speed := match u with upd_speed v => v | _ => speed s end;
    collectedLetters := match u with upd_collectedLetters v => v | _ => collectedLetters s end;
    level := match u with upd_level v => v | _ => level s end;
    laneCount := match u with upd_laneCount v => v | _ => laneCount s end;
    gemsCollected := match u with upd_gemsCollected v => v | _ => gemsCollected s end;
    distance := match u with upd_distance v => v | _ => distance s end;
    hasDoubleJump := match u with upd_hasDoubleJump v => v | _ => hasDoubleJump s end;
    hasImmortality := match u with upd_hasImmortality v => v | _ => hasImmortality s end;
    isImmortalityActive := match u with upd_isImmortalityActive v => v | _ => isImmortalityActive s end;
    isShopInvincible := match u with upd_isShopInvincible v => v | _ => isShopInvincible s end;
    magnetLevel := match u with upd_magnetLevel v => v | _ => magnetLevel s end;
    shieldCount := match u with upd_shieldCount v => v | _ => shieldCount s end;
    hasTimeWarp := match u with upd_hasTimeWarp v => v | _ => hasTimeWarp s end;
    isTimeWarpActive := match u with upd_isTimeWarpActive v => v | _ => isTimeWarpActive s end;
    hasGemBooster := match u with upd_hasGemBooster v => v | _ => hasGemBooster s end;
    hasLuckCharm := match u with upd_hasLuckCharm v => v | _ => hasLuckCharm s end;
    hasSonicBlast := match u with upd_hasSonicBlast v => v | _ => hasSonicBlast s end;
    lastSonicBlastTime := match u with upd_lastSonicBlastTime v => v | _ => lastSonicBlastTime s end;
    hasDrone := match u with upd_hasDrone v => v | _ => hasDrone s end;
    hasRevive := match u with upd_hasRevive v => v | _ => hasRevive s end;
    hasDiscount := match u with upd_hasDiscount v => v | _ => hasDiscount s end;
    playerLane := match u with upd_playerLane v => v | _ => playerLane s end;
    showJumpAlert := match u with upd_showJumpAlert v => v | _ => showJumpAlert s end
  |}.

(** A partial state, the argument of zustand's [set]: the listed fields
    replace the current ones, in order, the others are kept. *)
Definition Partial : Type := list Update.

Definition merge (p : Partial) (s : GameState) : GameState :=
  fold_left (fun acc u => applyUpdate u acc) p s.

(** [s <| u |>]: the state [s] with the one field that [u] names replaced. *)
Notation "s <| u |>" := (applyUpdate u s) (at level 1, left associativity).

(** What an operation of the store can touch: the state, the [set] calls it
    made (oldest first), the window events it dispatched and the timers it
    armed (delay in milliseconds and the partial state the callback sets). *)
Record World : Type := mkWorld {
  state : GameState;
  setCalls : list Partial;
  dispatched : list string;
  timers : list (Z * Partial)
}.

Definition Action (A : Type) : Type := World -> A * World.

Definition ret {A : Type} (a : A) : Action A := fun w => (a, w).

Definition bind {A B : Type} (m : Action A) (k : A -> Action B) : Action B :=
  fun w => let (a, w') := m w in k a w'.

Declare Scope action_scope.
Delimit Scope action_scope with action.
Notation "x <- m ;; k" := (bind m (fun x => k))
  (at level 61, m at next level, right associativity) : action_scope.
Notation "m ;; k" := (bind m (fun _ => k))
  (at level 61, right associativity) : action_scope.

Definition get : Action GameState := fun w => (state w, w).

Definition set (p : Partial) : Action unit :=
  fun w => (tt, mkWorld (merge p (state w)) (setCalls w ++ [p])
                        (dispatched w) (timers w)).

Definition dispatchEvent (name : string) : Action unit :=
  fun w => (tt, mkWorld (state w) (setCalls w) (dispatched w ++ [name])
                        (timers w)).

Definition setTimeout (p : Partial) (ms : Z) : Action unit :=
  fun w => (tt, mkWorld (state w) (setCalls w) (dispatched w)
                        (timers w ++ [(ms, p)])).

(** An operation called on a store that holds [s], with nothing pending. *)
Definition call {A : Type} (m : Action A) (s : GameState) : A * World :=
  m (mkWorld s [] [] []).

Definition result {A : Type} (m : Action A) (s : GameState) : A :=
  fst (call m s).

Definition after {A : Type} (m : Action A) (s : GameState) : GameState :=
  state (snd (call m s)).

(** The callback of an armed timer runs: it sets its partial state. *)
Definition fire (t : Z * Partial) (s : GameState) : GameState :=
  merge (snd t) s.

(** ** [store.ts]: the operations *)

Local Open Scope string_scope.
Local Open Scope list_scope.
Local Open Scope Z_scope.
Local Open Scope action_scope.

(** Strict equality of two strings. *)
Notation "a === b" := (String.eqb a b) (at level 70, no associativity).

Section Game.

(** Constants of [types.ts], which is not among the sources. *)
Variable RUN_SPEED_BASE : float.
Variable LANE_WIDTH : float.
Variable REMOVE_DISTANCE : float.

(** [const GEMINI_TARGET = ['G', 'E', 'M', 'I', 'N', 'I']] *)
Definition GEMINI_TARGET : list string := ["G"; "E"; "M"; "I"; "N"; "I"].

Definition startGame (targetLevels : LevelGoal) : Action unit :=
  s <- get ;;
  let isCheat := GameMode_eqb (gameMode s) CHEAT in
  set [ upd_status PLAYING;
        upd_targetLevels targetLevels;
        upd_score 0;
        upd_currency (if isCheat then 9999999 else 0);
        upd_lives 3;
        upd_maxLives 3;
        upd_speed RUN_SPEED_BASE;
        upd_collectedLetters [];
        upd_level 1;
        upd_laneCount 3;
        upd_gemsCollected 0;
        upd_distance 0;
        upd_hasDoubleJump isCheat;
        upd_hasImmortality isCheat;
        upd_isImmortalityActive false;
        upd_isShopInvincible false;
        upd_magnetLevel (if isCheat then 5 else 0);
        upd_shieldCount (if isCheat then 3 else 0);
        upd_hasTimeWarp isCheat;
        upd_isTimeWarpActive false;
        upd_hasGemBooster isCheat;
        upd_hasLuckCharm isCheat;
        upd_hasSonicBlast isCheat;
        upd_lastSonicBlastTime 0;
        upd_hasDrone isCheat;
        upd_hasRevive isCheat;
        upd_hasDiscount isCheat;
        upd_playerLane 0;
        upd_showJumpAlert false ].

Definition takeDamage : Action unit :=
  s <- get ;;
  if GameMode_eqb (gameMode s) CHEAT || isImmortalityActive s
     || isShopInvincible s
  then ret tt
  else if 0 <? shieldCount s then
    (* Use Shield *)
    set [ upd_shieldCount (shieldCount s - 1) ]
  else if 1 <? lives s then
    set [ upd_lives (lives s - 1) ]
  else if hasRevive s then
    (* Revive Logic *)
    set [ upd_lives (maxLives s);
          upd_hasRevive false;
          upd_isImmortalityActive true ] ;;
    dispatchEvent "trigger-sonic-blast" ;;
    setTimeout [ upd_isImmortalityActive false ] 3000
  else if isInfinity (targetLevels s) then
    (* In Endless Mode, death is a "Victory" (Run Complete) *)
    set [ upd_lives 0; upd_status VICTORY; upd_speed 0%float ]
  else
    set [ upd_lives 0; upd_status GAME_OVER; upd_speed 0%float ].

Definition addScore (amount : Z) : Action unit :=
  fun w => set [ upd_score (score (state w) + amount) ] w.

(** [Math.floor(value * levelMultiplier * boostMultiplier)] with
    [levelMultiplier = 1 + (level - 1) * 0.2] and
    [boostMultiplier = hasGemBooster ? 2 : 1], in binary64 as written. *)
Definition finalValue (value level : Z) (hasGemBooster : bool) : Z :=
  let levelMultiplier := (1 + (Z2f level - 1) * 0.2)%float in
  let boostMultiplier := if hasGemBooster then 2%float else 1%float in
  Math_floor (Z2f value * levelMultiplier * boostMultiplier)%float.

Definition collectGem (value : Z) (isHealing : bool) : Action unit :=
  s <- get ;;
  let finalValue := finalValue value (level s) (hasGemBooster s) in
  let updates :=
    [ upd_score (score s + finalValue * 10);
      upd_currency (currency s + finalValue);
      upd_gemsCollected (gemsCollected s + 1) ] in
  let updates :=
    if isHealing && (lives s <? maxLives s)
    then updates ++ [ upd_lives (lives s + 1) ]
    else updates in
  set updates.

(** [collectedLetters.includes(index)] *)
Definition includes (l : list Z) (index : Z) : bool :=
  existsb (Z.eqb index) l.

Definition advanceLevel : Action unit :=
  s <- get ;;
  let nextLevel := level s + 1 in
  (* Gentle speed bump on level up *)
  let speedIncrease := (RUN_SPEED_BASE * 0.10)%float in
  let newSpeed := (speed s + speedIncrease)%float in
  set [ upd_level nextLevel;
        upd_laneCount (Z.min (laneCount s + 2) 9);
        upd_status PLAYING;
        upd_speed newSpeed;
        upd_collectedLetters [] ].

Definition collectLetter (index : Z) : Action unit :=
  s <- get ;;
  if negb (includes (collectedLetters s) index) then
    let newLetters := collectedLetters s ++ [index] in
    let speedIncrease := (RUN_SPEED_BASE * 0.025)%float in
    let nextSpeed := (speed s + speedIncrease)%float in
    set [ upd_collectedLetters newLetters; upd_speed nextSpeed ] ;;
    if (List.length newLetters =? List.length GEMINI_TARGET)%nat then
      let isEndless := isInfinity (targetLevels s) in
      if isEndless || below (level s) (targetLevels s) then
        advanceLevel
      else
        s' <- get ;;
        set [ upd_status VICTORY; upd_score (score s' + 10000) ]
    else ret tt
  else ret tt.

Definition spendCurrency (amount : Z) : Action bool :=
  s <- get ;;
  if amount <=? currency s then
    set [ upd_currency (currency s - amount) ] ;;
    ret true
  else ret false.

(** The [switch (type)] of [buyItem]: the unlock or increment of a
    recognised item; no [default] case. *)
Definition grant (s : GameState) (type : string) : Action unit :=
  if type === "DOUBLE_JUMP" then set [ upd_hasDoubleJump true ]
  else if type === "MAX_LIFE" then
    if maxLives s <? 10
    then set [ upd_maxLives (maxLives s + 1); upd_lives (lives s + 1) ]
    else ret tt
  else if type === "HEAL" then
    set [ upd_lives (Z.min (lives s + 1) (maxLives s)) ]
  else if type === "IMMORTAL" then set [ upd_hasImmortality true ]
  else if type === "MAGNET" then
    set [ upd_magnetLevel (Z.min (magnetLevel s + 1) 5) ]
  else if type === "SHIELD" then
    set [ upd_shieldCount (Z.min (shieldCount s + 1) 3) ]
  else if type === "TIME_WARP" then set [ upd_hasTimeWarp true ]
  else if type === "GEM_BOOSTER" then set [ upd_hasGemBooster true ]
  else if type === "LUCK_CHARM" then set [ upd_hasLuckCharm true ]
  else if type === "SONIC_BLAST" then
    set [ upd_hasSonicBlast true; upd_lastSonicBlastTime 0 ]
  else if type === "DRONE" then set [ upd_hasDrone true ]
  else if type === "REVIVE" then set [ upd_hasRevive true ]
  else if type === "DISCOUNT" then set [ upd_hasDiscount true ]
  else ret tt.

(** The "already owned / maxed out" guards of [buyItem], in source order. *)
Definition blocked (s : GameState) (type : string) : bool :=
  ((type === "HEAL") && (maxLives s <=? lives s))
  || ((type === "MAX_LIFE") && (10 <=? maxLives s))
  || ((type === "SHIELD") && (3 <=? shieldCount s))
  || ((type === "MAGNET") && (5 <=? magnetLevel s))
  || ((type === "DOUBLE_JUMP") && hasDoubleJump s)
  || ((type === "IMMORTAL") && hasImmortality s)
  || ((type === "TIME_WARP") && hasTimeWarp s)
  || ((type === "GEM_BOOSTER") && hasGemBooster s)
  || ((type === "LUCK_CHARM") && hasLuckCharm s)
  || ((type === "SONIC_BLAST") && hasSonicBlast s)
  || ((type === "DRONE") && hasDrone s)
  || ((type === "REVIVE") && hasRevive s)
  || ((type === "DISCOUNT") && hasDiscount s).

Definition buyItem (type : string) (cost : Z) : Action bool :=
  s <- get ;;
  (* 1. Score Exchange (Special Case) *)
  if type === "EXCHANGE" then
    if 0 <? currency s then
      set [ upd_score (score s + currency s * 100); upd_currency 0 ] ;;
      ret true
    else ret false
  (* 2. Already Owned / Maxed Out blocking *)
  else if blocked s type then ret false
  (* 3. Regular Purchase Logic *)
  else if cost <=? currency s then
    set [ upd_currency (currency s - cost) ] ;;
    grant s type ;;
    ret true
  else ret false.

(** ** [LevelManager.tsx]: entities *)

(** Modelled from the spec: the enumeration [ObjectType] of [types.ts]. *)
Inductive ObjectType : Type :=
  OBSTACLE | ALIEN | MISSILE | GEM | LETTER | SHOP_PORTAL.

(** [position: [x, y, z]]: lane axis, height axis, travel axis. *)
Record Vec3 : Type := vec3 { at0 : float; at1 : float; at2 : float }.

(** Modelled from the spec: the interface [GameObject] of [types.ts], with
    the fields the level manager reads and writes.  An optional field is an
    [option]; [hasFired] is only ever negated or set to [true], so its
    [undefined] is [false]. *)
Record GameObject : Type := mkGameObject {
  id : string;
  type : ObjectType;
  position : Vec3;
  active : bool;
  color : option string;
  points : option Z;
  value : option string;
  targetIndex : option Z;
  hasFired : bool
}.

Definition OBSTACLE_HEIGHT : float := 1.6%float.
Definition MISSILE_SPEED : float := 30%float.

(** [Math.min] of two doubles. *)
Definition Math_min (a b : float) : float :=
  if is_nan a || is_nan b then nan
  else if (a <? b)%float then a
  else if (b <? a)%float then b
  else if get_sign a then a else b.

(** [a > b] *)
Definition gtb (a b : float) : bool := (b <? a)%float.

(** [obj.type === OBSTACLE || obj.type === ALIEN || obj.type === MISSILE] *)
Definition isHazard (t : ObjectType) : bool :=
  match t with OBSTACLE | ALIEN | MISSILE => true | _ => false end.

Definition isType (t u : ObjectType) : bool :=
  match t, u with
  | OBSTACLE, OBSTACLE | ALIEN, ALIEN | MISSILE, MISSILE
  | GEM, GEM | LETTER, LETTER | SHOP_PORTAL, SHOP_PORTAL => true
  | _, _ => false
  end.

(** What a frame does besides rewriting the registry, in order: window
    events, calls of store operations, audio cues. *)
Inductive Effect : Type :=
| PlayerHit
| ParticleBurst (at_ : Vec3) (color_ : string) (burstScale : option float)
| OpenShop
| CollectGem (value_ : Z) (isHealing : bool)
| CollectLetter (index : Z)
| PlayGemCollect
| PlayLetterCollect
| SetShowJumpAlert (show : bool)
| SetRenderTrigger.

(** The inputs of one [useFrame] callback: the store fields captured by the
    render closure, the frame's [delta], the player's world position (the
    origin while the player object is unknown), [Date.now()], the results of
    the [uuidv4()] calls, and the entities the Spawn Planner appends. *)
Record Frame : Type := mkFrame {
  snap : GameState;
  delta : float;
  playerPos : Vec3;
  now : Z;
  uuidv4 : nat -> string;
  planned : list GameObject
}.

(** The refs of the component that the frame loop reads and writes. *)
Record Refs : Type := mkRefs {
  objects : list GameObject;
  lastDroneFire : Z;
  distanceTraveled : float
}.

Definition speedFactor (f : Frame) : float :=
  if isTimeWarpActive (snap f) then 0.5%float else 1.0%float.

Definition effectiveSpeed (f : Frame) : float :=
  (speed (snap f) * speedFactor f)%float.

Definition safeDelta (f : Frame) : float := Math_min (delta f) 0.05%float.

Definition dist (f : Frame) : float := (effectiveSpeed f * safeDelta f)%float.

Definition setActive (b : bool) (o : GameObject) : GameObject :=
  mkGameObject (id o) (type o) (position o) b (color o) (points o) (value o)
               (targetIndex o) (hasFired o).

Definition setPosition (p : Vec3) (o : GameObject) : GameObject :=
  mkGameObject (id o) (type o) p (active o) (color o) (points o) (value o)
               (targetIndex o) (hasFired o).

Definition setHasFired (b : bool) (o : GameObject) : GameObject :=
  mkGameObject (id o) (type o) (position o) (active o) (color o) (points o)
               (value o) (targetIndex o) b.

(** *** Drone auto-attack *)

(** The scan for the closest active hazard within 40 units ahead of the
    player: the index of the target so far and [minDist]. *)
Definition droneScan (playerPos : Vec3) (objs : list GameObject)
  : option nat * float :=
  fst (fold_left
    (fun (acc : (option nat * float) * nat) (obj : GameObject) =>
       let '((targetObj, minDist), i) := acc in
       let z := at2 (position obj) in
       if active obj && isHazard (type obj)
          && (z <? at2 playerPos)%float
          && gtb z (at2 playerPos - 40)%float
       then
         let d := abs (z - at2 playerPos)%float in
         if (d <? minDist)%float then ((Some i, d), S i)
         else ((targetObj, minDist), S i)
       else ((targetObj, minDist), S i))
    objs ((None, 999%float), O)).

Fixpoint updateAt {A : Type} (g : A -> A) (i : nat) (l : list A) : list A :=
  match l, i with
  | [], _ => []
  | a :: l', O => g a :: l'
  | a :: l', S i' => a :: updateAt g i' l'
  end.

Record DroneResult : Type := mkDroneResult {
  droneObjects : list GameObject;
  droneLastFire : Z;
  droneChanged : bool;
  droneEffects : list Effect
}.

Definition drone (f : Frame) (r : Refs) : DroneResult :=
  if hasDrone (snap f) && (2000 <? now f - lastDroneFire r) then
    match fst (droneScan (playerPos f) (objects r)) with
    | Some i =>
        mkDroneResult
          (updateAt (setActive false) i (objects r))
          (now f) true
          [ParticleBurst
             (position (nth i (objects r)
                            (mkGameObject "" GEM (vec3 0 0 0) false
                                          None None None None false)))
             "#00ccff" (Some 0.5%float)]
    | None => mkDroneResult (objects r) (lastDroneFire r) false []
    end
  else mkDroneResult (objects r) (lastDroneFire r) false [].

(** *** The per-entity pass of the frame loop *)

(** Standard movement; a missile adds its own speed. *)
Definition moveAmount (f : Frame) (obj : GameObject) : float :=
  if isType (type obj) MISSILE
  then (dist f + (MISSILE_SPEED * speedFactor f) * safeDelta f)%float
  else dist f.

Definition move (f : Frame) (obj : GameObject) : GameObject :=
  let p := position obj in
  setPosition (vec3 (at0 p) (at1 p) (at2 p + moveAmount f obj)%float) obj.

(** Range scales from 10 to 35 based on level (1-5). *)
Definition attractionRange (magnetLevel : Z) : Z :=
  5 + (magnetLevel * 5) + (if magnetLevel =? 5 then 5 else 0).

(** Speed scales from 4 to 12 based on level. *)
Definition attractionSpeed (magnetLevel : Z) : Z := 2 + (magnetLevel * 2).

Definition magnet (f : Frame) (obj : GameObject) : GameObject :=
  let p := position obj in
  let pl := playerPos f in
  let magnetLevel := magnetLevel (snap f) in
  if (0 <? magnetLevel) && active obj && isType (type obj) GEM then
    let zDist := abs (at2 p - at2 pl)%float in
    if (zDist <? Z2f (attractionRange magnetLevel))%float then
      let lerpSpeed := (safeDelta f * Z2f (attractionSpeed magnetLevel))%float in
      setPosition
        (vec3 (at0 p + (at0 pl - at0 p) * lerpSpeed)%float
              (at1 p + (at1 pl + 1.0 - at1 p) * lerpSpeed)%float
              (at2 p))
        obj
    else obj
  else obj.

(** Jump assist scanner: a hazard in the player's lane inside the look-ahead
    window. *)
Definition threatens (f : Frame) (obj : GameObject) : bool :=
  let lookAheadMin := (- (effectiveSpeed f * 0.7))%float in
  let lookAheadMax := (- (effectiveSpeed f * 0.25))%float in
  let playerX := (Z2f (playerLane (snap f)) * LANE_WIDTH)%float in
  GameMode_eqb (gameMode (snap f)) ASSIST && active obj
  && isHazard (type obj)
  && (abs (at0 (position obj) - playerX) <? LANE_WIDTH * 0.4)%float
  && gtb (at2 (position obj)) lookAheadMin
  && (at2 (position obj) <? lookAheadMax)%float.

(** Alien AI: an active alien that has not fired and is past -90. *)
Definition alienFires (obj : GameObject) : bool :=
  isType (type obj) ALIEN && active obj && negb (hasFired obj)
  && gtb (at2 (position obj)) (-90)%float.

Definition missileOf (uuid : string) (obj : GameObject) : GameObject :=
  mkGameObject uuid MISSILE
    (vec3 (at0 (position obj)) 1.0 (at2 (position obj) + 2)%float)
    true (Some "#ff0000") None None None false.

(** [obj.points || 10] *)
Definition pointsOr10 (obj : GameObject) : Z :=
  match points obj with
  | Some p => if p =? 0 then 10 else p
  | None => 10
  end.

(** [obj.color || '#ffffff'] *)
Definition colorOrWhite (obj : GameObject) : string :=
  match color obj with
  | Some c => if c === "" then "#ffffff" else c
  | None => "#ffffff"
  end.

(** [obj.color === '#00ff00'] *)
Definition isHealingColor (obj : GameObject) : bool :=
  match color obj with Some c => c === "#00ff00" | None => false end.

(** The vertical box of a hazard: [objBottom] and [objTop]. *)
Definition objBottom (obj : GameObject) : float :=
  match type obj with
  | OBSTACLE => 0%float
  | MISSILE => 0.5%float
  | _ => (at1 (position obj) - 0.5)%float
  end.

Definition objTop (obj : GameObject) : float :=
  match type obj with
  | OBSTACLE => OBSTACLE_HEIGHT
  | MISSILE => 1.5%float
  | _ => (at1 (position obj) + 0.5)%float
  end.

(** [inZZone]: the swept window on the travel axis. *)
Definition inZZone (f : Frame) (prevZ : float) (obj : GameObject) : bool :=
  let zThreshold := 2.0%float in
  (prevZ <? at2 (playerPos f) + zThreshold)%float
  && gtb (at2 (position obj)) (at2 (playerPos f) - zThreshold)%float.

(** [isHit]: the player's vertical extent against the hazard's box. *)
Definition isHit (f : Frame) (obj : GameObject) : bool :=
  let playerBottom := at1 (playerPos f) in
  let playerTop := (at1 (playerPos f) + 1.8)%float in
  (playerBottom <? objTop obj)%float && gtb playerTop (objBottom obj).

(** What the collision block decides for one entity. *)
Record Collision : Type := mkCollision {
  c_obj : GameObject;
  c_keep : bool;
  c_changed : bool;
  c_effects : list Effect
}.

Definition collectEffects (obj : GameObject) : list Effect :=
  (if isType (type obj) GEM
   then [CollectGem (pointsOr10 obj) (isHealingColor obj); PlayGemCollect]
   else [])
  ++ (match isType (type obj) LETTER, targetIndex obj with
      | true, Some i => [CollectLetter i; PlayLetterCollect]
      | _, _ => []
      end)
  ++ [ParticleBurst (position obj) (colorOrWhite obj) None].

Definition collide (f : Frame) (prevZ : float) (obj : GameObject) : Collision :=
  if active obj then
    if isType (type obj) SHOP_PORTAL then
      let dz := abs (at2 (position obj) - at2 (playerPos f))%float in
      if (dz <? 2)%float
      then mkCollision (setActive false obj) false true [OpenShop]
      else mkCollision obj true false []
    else if inZZone f prevZ obj then
      let dx := abs (at0 (position obj) - at0 (playerPos f))%float in
      if (dx <? 0.9)%float then
        let isDamageSource := isHazard (type obj) in
        if isDamageSource then
          if isHit f obj then
            mkCollision (setActive false obj) true true
              (PlayerHit ::
               (if isType (type obj) MISSILE
                then [ParticleBurst (position obj) "#ff4400" None]
                else []))
          else mkCollision obj true false []
        else
          let dy := abs (at1 (position obj) - at1 (playerPos f))%float in
          (* Relaxed Y check slightly for magnet collection *)
          if (dy <? 2.5)%float
          then mkCollision (setActive false obj) true true (collectEffects obj)
          else mkCollision obj true false []
      else mkCollision obj true false []
    else mkCollision obj true false []
  else mkCollision obj true false [].

(** One iteration of [for (const obj of currentObjects)]: the object after
    its in-place writes, whether it is kept, whether [hasChanges] and
    [threatInCurrentLane] are raised, what is pushed on [newSpawns] and what
    is emitted.  [n] counts the [uuidv4()] calls made so far. *)
Record Processed : Type := mkProcessed {
  p_obj : GameObject;
  p_keep : bool;
  p_changed : bool;
  p_threat : bool;
  p_spawns : list GameObject;
  p_effects : list Effect
}.

Definition processObject (f : Frame) (n : nat) (obj : GameObject) : Processed :=
  let prevZ := at2 (position obj) in
  let obj1 := magnet f (move f obj) in
  let threat := threatens f obj1 in
  let fires := alienFires obj1 in
  let obj2 := if fires then setHasFired true obj1 else obj1 in
  let spawns := if fires then [missileOf (uuidv4 f n) obj2] else [] in
  let fireFx :=
    if fires then [ParticleBurst (position obj2) "#ff00ff" None] else [] in
  let c := collide f prevZ obj2 in
  let evicted := gtb (at2 (position (c_obj c))) REMOVE_DISTANCE in
  mkProcessed (c_obj c)
              (c_keep c && negb evicted)
              (fires || c_changed c || evicted)
              threat spawns (fireFx ++ c_effects c).

(** The accumulators of the loop. *)
Record Loop : Type := mkLoop {
  visited : list GameObject;
  keptObjects : list GameObject;
  newSpawns : list GameObject;
  hasChanges : bool;
  threatInCurrentLane : bool;
  emitted : list Effect
}.

Definition loopStep (f : Frame) (acc : Loop) (obj : GameObject) : Loop :=
  let p := processObject f (List.length (newSpawns acc)) obj in
  mkLoop (visited acc ++ [p_obj p])
         (if p_keep p then keptObjects acc ++ [p_obj p] else keptObjects acc)
         (newSpawns acc ++ p_spawns p)
         (hasChanges acc || p_changed p)
         (threatInCurrentLane acc || p_threat p)
         (emitted acc ++ p_effects p).

Definition loop (f : Frame) (hasChanges0 : bool) (objs : list GameObject)
  : Loop :=
  fold_left (loopStep f) objs (mkLoop [] [] [] hasChanges0 false []).

(** The frame callback.  The Spawn Planner that follows the loop only
    appends the entities it creates to [keptObjects] and raises
    [hasChanges] when it does; its random draws are not modelled here and
    the entities it appends are the input [planned].  The registry is
    replaced by [keptObjects] when [hasChanges]; otherwise it keeps the
    array it had, whose objects were written in place. *)
Definition tick (f : Frame) (r : Refs) : Refs * list Effect :=
  match status (snap f) with
  | PLAYING =>
      let d := drone f r in
      let l := loop f (droneChanged d) (droneObjects d) in
      let alert :=
        if GameMode_eqb (gameMode (snap f)) ASSIST
        then threatInCurrentLane l else false in
      let kept := keptObjects l ++ newSpawns l ++ planned f in
      let changes :=
        hasChanges l
        || match planned f with [] => false | _ :: _ => true end in
      (mkRefs (if changes then kept else visited l)
              (droneLastFire d)
              (distanceTraveled r + dist f)%float,
       droneEffects d ++ emitted l ++ [SetShowJumpAlert alert]
       ++ (if changes then [SetRenderTrigger] else []))
  | _ => (r, [])
  end.

(** *** The Spawn Planner: obstacle or gem lane *)

(** Lines 564-573: after the [baseSpawnCheck] draw, the threshold against
    which the second draw chooses the obstacle path. *)
Definition baseSpawnCheck : float := 0.9%float.

Definition obstacleProb (level : Z) (hasLuckCharm : bool) : float :=
  (* Base 20%, increases by 2% per level (capped at 60%) *)
  let baseObstacleProb := (0.20 + (Z2f level * 0.02))%float in
  let obstacleProb := Math_min 0.6%float baseObstacleProb in
  (* Luck Charm reduces obstacle probability by 20% relative *)
  if hasLuckCharm then (obstacleProb * 0.8)%float else obstacleProb.

(** The non-letter branch with its two draws of [Math.random()]: [None] for
    empty space, else whether the obstacle path is taken. *)
Definition nonLetterBranch (level : Z) (hasLuckCharm : bool)
  (draw1 draw2 : float) : option bool :=
  if (draw1 <? baseSpawnCheck)%float
  then Some (draw2 <? obstacleProb level hasLuckCharm)%float
  else None.

(** The same threshold with the decimal constants read as exact rationals:
    the value the binary64 computation approximates. *)
Definition obstacleProbQ (level : Z) (hasLuckCharm : bool) : Q :=
  let baseObstacleProb := ((20 # 100) + inject_Z level * (2 # 100))%Q in
  let obstacleProb := Qmin (6 # 10) baseObstacleProb in
  if hasLuckCharm then (obstacleProb * (8 # 10))%Q else obstacleProb.

(** The formula of the specification for the final value of a gem, read
    over the rationals: the floor of
    [value * (1 + 0.2 * (level - 1)) * boost]. *)
Definition finalValueQ (value level : Z) (hasGemBooster : bool) : Z :=
  Qfloor (inject_Z value * (1 + (2 # 10) * (inject_Z level - 1))
          * (if hasGemBooster then 2 else 1))%Q.

(** The values the level manager passes to [collectGem]: the points of the
    gems of [createRandomGem], 10 being also the default of
    [obj.points || 10]. *)
Definition gemValues : list Z := [10; 50; 150].

(** The binary64 final value is the exact one; is the exact one or one
    below. *)
Definition exactb (value level : Z) (hasGemBooster : bool) : bool :=
  finalValue value level hasGemBooster
  =? finalValueQ value level hasGemBooster.

Definition within1b (value level : Z) (hasGemBooster : bool) : bool :=
  (finalValueQ value level hasGemBooster - 1
   <=? finalValue value level hasGemBooster)
  && (finalValue value level hasGemBooster
      <=? finalValueQ value level hasGemBooster).

(** ** Sample states and vocabulary of the statements *)

(** The store as [create] initialises it. *)
Definition initialState : GameState :=
  {| status := MENU; gameMode := NORMAL; targetLevels := Levels 5;
     score := 0; currency := 0; lives := 3; maxLives := 3; speed := 0%float;
     collectedLetters := []; level := 1; laneCount := 3; gemsCollected := 0;
     distance := 0;
     hasDoubleJump := false; hasImmortality := false;
     isImmortalityActive := false; isShopInvincible := false;
     magnetLevel := 0; shieldCount := 0; hasTimeWarp := false;
     isTimeWarpActive := false;
     hasGemBooster := false; hasLuckCharm := false; hasSonicBlast := false;
     lastSonicBlastTime := 0;
     hasDrone := false; hasRevive := false; hasDiscount := false;
     playerLane := 0; showJumpAlert := false |}.

(** A run of five levels, just started in NORMAL mode. *)
Definition playing : GameState := after (startGame (Levels 5)) initialState.

(** Damage is ignored: CHEAT mode, active immortality or shop grace. *)
Definition invulnerable (s : GameState) : Prop :=
  gameMode s = CHEAT \/ isImmortalityActive s = true
  \/ isShopInvincible s = true.

(** The item identifiers that [buyItem] recognises besides [EXCHANGE]. *)
Definition recognised : list string :=
  [ "HEAL"; "MAX_LIFE"; "SHIELD"; "MAGNET"; "DOUBLE_JUMP"; "IMMORTAL";
    "TIME_WARP"; "GEM_BOOSTER"; "LUCK_CHARM"; "SONIC_BLAST"; "DRONE";
    "REVIVE"; "DISCOUNT" ].

(** A call of the shop or a hit, as the collaborators issue them. *)
Inductive Op : Type :=
| Buy (type : string) (cost : Z)
| Damage.

Definition step (o : Op) (s : GameState) : GameState :=
  match o with
  | Buy type cost => after (buyItem type cost) s
  | Damage => after takeDamage s
  end.

Definition run (ops : list Op) (s : GameState) : GameState :=
  fold_left (fun acc o => step o acc) ops s.

(** The documented ranges of the two counted abilities. *)
Definition clamped (s : GameState) : Prop :=
  0 <= magnetLevel s <= 5 /\ 0 <= shieldCount s <= 3.

(** The state once [collectLetter] has recorded [index]: the letter is
    appended and the speed raised by 2.5% of the base run speed. *)
Definition withLetter (index : Z) (s : GameState) : GameState :=
  s <| upd_collectedLetters (collectedLetters s ++ [index]) |>
    <| upd_speed (speed s + RUN_SPEED_BASE * 0.025)%float |>.

(** More levels remain, or the run is endless. *)
Definition continues (s : GameState) : Prop :=
  targetLevels s = Infinity
  \/ exists n, targetLevels s = Levels n /\ level s < n.

(** The loop seen object by object: what each iteration produced, in
    order; [n] counts the missiles spawned before the object is visited. *)
Fixpoint processAll (f : Frame) (n : nat) (objs : list GameObject)
  : list Processed :=
  match objs with
  | [] => []
  | obj :: rest =>
      let p := processObject f n obj in
      p :: processAll f (n + List.length (p_spawns p)) rest
  end.

Definition isPlayerHit (e : Effect) : bool :=
  match e with PlayerHit => true | _ => false end.

(** How many ['player-hit'] events a list of effects holds. *)
Definition hitCount (l : list Effect) : nat :=
  List.length (filter isPlayerHit l).

(** One entity followed over successive frames, for as long as the registry
    keeps it.  Between two frames code outside the loop (the drone, the
    sonic blast) may have cleared its [active] flag: the boolean. *)
Fixpoint hitsOver (frames : list (bool * Frame * nat)) (obj : GameObject)
  : nat :=
  match frames with
  | [] => 0
  | (cleared, f, n) :: rest =>
      let p := processObject f n (if cleared then setActive false obj else obj) in
      (hitCount (p_effects p)
       + (if p_keep p then hitsOver rest (p_obj p) else 0))%nat
  end.

(** The integers [a], [a + 1], ..., [a + n - 1]. *)
Definition rangeZ (a : Z) (n : nat) : list Z :=
  map (fun i => a + Z.of_nat i) (seq 0 n).

(** The binary64 threshold is within 2^-53 of the exact one. *)
Definition closeb (level : Z) (hasLuckCharm : bool) : bool :=
  Qle_bool (Qabs (f2Q (obstacleProb level hasLuckCharm)
                  - obstacleProbQ level hasLuckCharm))
           (1 # (2 ^ 53)).

(** An obstacle one unit ahead of a player who stands at the origin, in the
    player's lane, and a frame of 16 ms of a run just started. *)
Definition obstacleAhead : GameObject :=
  mkGameObject "o1" OBSTACLE (vec3 0 0.8 (-1)) true (Some "#ff0054")
               None None None false.

Definition frame16 : Frame :=
  mkFrame playing 0.016%float (vec3 0 0 0) 0 (fun _ => "m") [].

(** The same obstacle three units ahead and a run fast enough to carry it
    from before the player's window to behind it within one frame. *)
Definition obstacleFar : GameObject :=
  mkGameObject "o2" OBSTACLE (vec3 0 0.8 (-3)) true (Some "#ff0054")
               None None None false.

Definition frameFast : Frame :=
  mkFrame (playing <| upd_speed 200%float |>) 0.05%float (vec3 0 0 0) 0
          (fun _ => "m") [].

(** The conditions under which the collision block registers a hit of a
    hazard, on the object as the block sees it. *)
Definition hits (f : Frame) (prevZ : float) (o : GameObject) : bool :=
  active o && inZZone f prevZ o
  && (abs (at0 (position o) - at0 (playerPos f)) <? 0.9)%float
  && isHit f o.

(** ** [store.ts]: the remaining operations *)

Definition selectMode (mode : GameMode) : Action unit :=
  set [ upd_gameMode mode; upd_status LEVEL_SELECT ].

Definition restartGame : Action unit :=
  s <- get ;;
  startGame (targetLevels s).

Definition setDistance (dist : Z) : Action unit :=
  set [ upd_distance dist ].

Definition openShop : Action unit :=
  set [ upd_status SHOP; upd_isShopInvincible true ].

Definition closeShop : Action unit :=
  set [ upd_status PLAYING; upd_isShopInvincible true ] ;;
  (* 3 seconds of invincibility after leaving shop *)
  setTimeout [ upd_isShopInvincible false ] 3000.

Definition activateImmortality : Action unit :=
  s <- get ;;
  if hasImmortality s && negb (isImmortalityActive s) then
    set [ upd_isImmortalityActive true ] ;;
    setTimeout [ upd_isImmortalityActive false ] 5000
  else ret tt.

Definition activateTimeWarp : Action unit :=
  s <- get ;;
  if hasTimeWarp s && negb (isTimeWarpActive s) then
    set [ upd_isTimeWarpActive true ] ;;
    setTimeout [ upd_isTimeWarpActive false ] 5000
  else ret tt.

(** [const SONIC_BLAST_COOLDOWN = 15000; // 15 seconds] *)
Definition SONIC_BLAST_COOLDOWN : Z := 15000.

(** [now] is the value of [Date.now()]. *)
Definition triggerSonicBlast (now : Z) : Action bool :=
  s <- get ;;
  if hasSonicBlast s && (SONIC_BLAST_COOLDOWN <? now - lastSonicBlastTime s)
  then
    set [ upd_lastSonicBlastTime now ] ;;
    ret true
  else ret false.

Definition setStatus (status : GameStatus) : Action unit :=
  set [ upd_status status ].

Definition setPlayerLane (lane : Z) : Action unit :=
  set [ upd_playerLane lane ].

Definition setShowJumpAlert (show : bool) : Action unit :=
  s <- get ;;
  if negb (Bool.eqb (showJumpAlert s) show)
  then set [ upd_showJumpAlert show ]
  else ret tt.

(** *** Sequences of calls

    Everything that can happen to the store: a call of one of its
    operations by a collaborator, or the callback of a pending timer. *)
Inductive Call : Type :=
| CSelectMode (mode : GameMode)
| CStartGame (targetLevels : LevelGoal)
| CRestartGame
| CTakeDamage
| CAddScore (amount : Z)
| CCollectGem (value : Z) (isHealing : bool)
| CCollectLetter (index : Z)
| CSetStatus (status : GameStatus)
| CSetDistance (dist : Z)
| CBuyItem (type : string) (cost : Z)
| CSpendCurrency (amount : Z)
| CAdvanceLevel
| COpenShop
| CCloseShop
| CActivateImmortality
| CActivateTimeWarp
| CTriggerSonicBlast (now : Z)
| CSetPlayerLane (lane : Z)
| CSetShowJumpAlert (show : bool)
| CTimer (i : nat).

Fixpoint removeAt {A : Type} (i : nat) (l : list A) : list A :=
  match l, i with
  | [], _ => []
  | _ :: l', O => l'
  | a :: l', S i' => a :: removeAt i' l'
  end.

(** The [i]-th pending timer expires: it leaves the pending list and its
    callback sets its partial state.  Nothing happens without such a
    timer. *)
Definition expire (i : nat) : Action unit :=
  fun w =>
    match nth_error (timers w) i with
    | Some (_, p) =>
        set p (mkWorld (state w) (setCalls w) (dispatched w)
                       (removeAt i (timers w)))
    | None => (tt, w)
    end.

Definition forget {A : Type} (m : Action A) : Action unit :=
  fun w => (tt, snd (m w)).

Definition perform (c : Call) : Action unit :=
  match c with
  | CSelectMode mode => selectMode mode
  | CStartGame targetLevels => startGame targetLevels
  | CRestartGame => restartGame
  | CTakeDamage => takeDamage
  | CAddScore amount => addScore amount
  | CCollectGem value isHealing => collectGem value isHealing
  | CCollectLetter index => collectLetter index
  | CSetStatus status => setStatus status
  | CSetDistance dist => setDistance dist
  | CBuyItem type cost => forget (buyItem type cost)
  | CSpendCurrency amount => forget (spendCurrency amount)
  | CAdvanceLevel => advanceLevel
  | COpenShop => openShop
  | CCloseShop => closeShop
  | CActivateImmortality => activateImmortality
  | CActivateTimeWarp => activateTimeWarp
  | CTriggerSonicBlast now => forget (triggerSonicBlast now)
  | CSetPlayerLane lane => setPlayerLane lane
  | CSetShowJumpAlert show => setShowJumpAlert show
  | CTimer i => expire i
  end.

Definition performAll (cs : list Call) (w : World) : World :=
  fold_left (fun acc c => snd (perform c acc)) cs w.

(** The store as the page loads it: the initial state, nothing pending. *)
Definition initialWorld : World := mkWorld initialState [] [] [].

(** A call that neither picks a mode nor starts a run. *)
Definition withinRun (c : Call) : bool :=
  match c with
  | CSelectMode _ | CStartGame _ | CRestartGame => false
  | _ => true
  end.

(** A timer callback that clears the immortality flag, and one that clears
    the time-warp flag. *)
Definition clearsImmortality (t : Z * Partial) : bool :=
  match snd t with
  | [ upd_isImmortalityActive false ] => true
  | _ => false
  end.

Definition clearsTimeWarp (t : Z * Partial) : bool :=
  match snd t with
  | [ upd_isTimeWarpActive false ] => true
  | _ => false
  end.

(** The bounds of the run's resources. *)
Definition bounded (s : GameState) : Prop :=
  0 <= lives s <= maxLives s /\ maxLives s <= 10
  /\ 0 <= magnetLevel s <= 5 /\ 0 <= shieldCount s <= 3.

(** The lanes of a level: three at level 1, two more with each level, nine
    at most. *)
Definition lanesOf (level : Z) : Z := Z.min (3 + 2 * (level - 1)) 9.


(** The timers the store arms only clear one of its three timed flags. *)
Definition flagTimer (t : Z * Partial) : Prop :=
  snd t = [ upd_isImmortalityActive false ]
  \/ snd t = [ upd_isTimeWarpActive false ]
  \/ snd t = [ upd_isShopInvincible false ].

Definition flagTimers (w : World) : Prop := Forall flagTimer (timers w).

(** What holds of the store whatever is called on it. *)
Definition steady (w : World) : Prop :=
  flagTimers w
  /\ bounded (state w)
  /\ (1 <= level (state w)
      /\ laneCount (state w) = lanesOf (level (state w)))
  /\ NoDup (collectedLetters (state w)).

(** How many pending timers will clear the immortality flag, and how many
    the time-warp flag. *)
Definition immortalityTimers (w : World) : nat :=
  List.length (filter clearsImmortality (timers w)).

Definition timeWarpTimers (w : World) : nat :=
  List.length (filter clearsTimeWarp (timers w)).

(** Each timed flag is raised exactly while one timer that clears it is
    pending. *)
Definition timed (w : World) : Prop :=
  immortalityTimers w = Nat.b2n (isImmortalityActive (state w))
  /\ timeWarpTimers w = Nat.b2n (isTimeWarpActive (state w)).

(** The state [startGame] sets: everything but the mode is given anew. *)
Definition startState (mode : GameMode) (targetLevels : LevelGoal)
  : GameState :=
  after (startGame targetLevels) (initialState <| upd_gameMode mode |>).

(** A call within a run that is not a sonic blast. *)
Definition quiet (c : Call) : bool :=
  match c with
  | CSelectMode _ | CStartGame _ | CRestartGame | CTriggerSonicBlast _ => false
  | _ => true
  end.


(** ** [LevelManager.tsx]: the sonic blast listener *)

(** An active hazard between 150 units ahead of the origin and 5 units
    behind it. *)
Definition inBlast (obj : GameObject) : bool :=
  active obj && isHazard (type obj)
  && (at2 (position obj) <? 5)%float
  && gtb (at2 (position obj)) (-150)%float.

(** [handleSonicBlast]: the pass over the registry, the bursts it dispatches
    and whether anything was blasted. *)
Definition blastStep (acc : list GameObject * list Effect * bool)
  (obj : GameObject) : list GameObject * list Effect * bool :=
  let '(done, fx, blasted) := acc in
  if inBlast obj
  then (done ++ [setActive false obj],
        fx ++ [ParticleBurst (position obj) "#ff8800" (Some 2%float)],
        true)
  else (done ++ [obj], fx, blasted).

Definition handleSonicBlast (objs : list GameObject)
  : list GameObject * list Effect :=
  let '(done, fx, blasted) := fold_left blastStep objs ([], [], false) in
  (done, fx ++ (if blasted then [SetRenderTrigger] else [])).

(** ** [LevelManager.tsx]: helpers of the Spawn Planner *)

(** Constants of [types.ts]. *)
Variable SPAWN_DISTANCE : float.
Variable GEMINI_COLORS : list string.

(** What the platform decides in a frame: the values of the successive
    [Math.random()] calls, site by site, the order in which
    [sort(() => Math.random() - 0.5)] leaves the lanes, the results of
    [uuidv4()], and [Math.pow], whose precision the language leaves to the
    implementation. *)
Inductive Site : Type :=
| SiteLetter
| SiteGem
| SiteAlien (k : nat)
| SiteObstacle (k : nat)
| SiteBonus (k : nat)
| SiteFill (k : nat).

Record Platform : Type := mkPlatform {
  Math_pow : float -> float -> float;
  drawLane : float;
  drawLetter : float;
  drawSpawn : float;
  drawObstacle : float;
  drawAlien : float;
  drawCount : float;
  drawFill : nat -> float;
  drawBonus : nat -> float;
  drawRarity : Site -> float;
  sort_random : list Z -> list Z;
  uuid : Site -> string
}.

Definition BASE_LETTER_INTERVAL : float := 150%float.

(** [Math.max] of two doubles. *)
Definition Math_max (a b : float) : float :=
  if is_nan a || is_nan b then nan
  else if (a <? b)%float then b
  else if (b <? a)%float then a
  else if get_sign a then b else a.

Definition getLetterInterval (pf : Platform) (level : Z) : float :=
  (BASE_LETTER_INTERVAL
   * Math_pow pf 1.15 (Math_max 0 (Z2f level - 1)))%float.

(** [Math.floor(laneCount / 2)] *)
Definition maxLane (laneCount : Z) : Z := laneCount / 2.

(** [getRandomLane], [draw] being the value of [Math.random()]. *)
Definition getRandomLane (laneCount : Z) (draw : float) : Z :=
  let max := maxLane laneCount in
  Math_floor (draw * Z2f (max * 2 + 1))%float - max.

(** [createRandomGem], [rand] being the value of [Math.random()]:
    60% Cyan, 30% Gold, 9% Purple, 1% Green. *)
Definition createRandomGem (x z : float) (id : string) (y : float)
  (rand : float) : GameObject :=
  let '(color, points) :=
    if gtb rand 0.99 then ("#00ff00", 50)        (* Emerald (Heal) *)
    else if gtb rand 0.90 then ("#9900ff", 150)  (* Amethyst (Rare) *)
    else if gtb rand 0.60 then ("#ffd700", 50)   (* Gold (Uncommon) *)
    else ("#00ffff", 10) in                      (* Cyan (Common) *)
  mkGameObject id GEM (vec3 x y z) true (Some color) (Some points)
               None None false.

(** The default height of a gem. *)
Definition GEM_Y : float := 1.2%float.

(** ** [LevelManager.tsx]: the Spawn Planner *)

(** [furthestZ]: the least travel-axis position among the entities that are
    not missiles, or -20 without any. *)
Definition furthestZ (keptObjects : list GameObject) : float :=
  let staticObjects :=
    filter (fun o => negb (isType (type o) MISSILE)) keptObjects in
  match staticObjects with
  | [] => (-20)%float
  | _ :: _ =>
      fold_left Math_min (map (fun o => at2 (position o)) staticObjects)
                infinity
  end.

Definition spawnZ (speed furthestZ : float) : float :=
  let minGap := (12 + (speed * 0.4))%float in
  Math_min (furthestZ - minGap)%float (- SPAWN_DISTANCE)%float.

(** [for (let i = -maxLane; i <= maxLane; i++) availableLanes.push(i)] *)
Definition availableLanes (laneCount : Z) : list Z :=
  rangeZ (- maxLane laneCount) (Z.to_nat (2 * maxLane laneCount + 1)).

(** The indices of the target glyphs not collected yet. *)
Definition availableIndices (collectedLetters : list Z) : list Z :=
  filter (fun i => negb (includes collectedLetters i))
         (rangeZ 0 (List.length GEMINI_TARGET)).

(** [arr[k]] for a number [k]: [undefined] out of range. *)
Definition at_index {A : Type} (l : list A) (k : Z) : option A :=
  if k <? 0 then None else nth_error l (Z.to_nat k).

Definition laneX (lane : Z) : float := (Z2f lane * LANE_WIDTH)%float.

(** The letter branch: a letter for an uncollected index, a gem when all
    are collected. *)
Definition planLetter (pf : Platform) (snap : GameState) (spawnZ : float)
  : list GameObject * bool :=
  let lane := getRandomLane (laneCount snap) (drawLane pf) in
  let availableIndices := availableIndices (collectedLetters snap) in
  match availableIndices with
  | _ :: _ =>
      let chosenIndex :=
        at_index availableIndices
          (Math_floor (drawLetter pf
                       * Z2f (Z.of_nat (List.length availableIndices)))%float) in
      let val :=
        match chosenIndex with
        | Some i => at_index GEMINI_TARGET i
        | None => None
        end in
      let color :=
        match chosenIndex with
        | Some i => at_index GEMINI_COLORS i
        | None => None
        end in
      ([ mkGameObject (uuid pf SiteLetter) LETTER
                      (vec3 (laneX lane) 1.0 spawnZ) true color None val
                      chosenIndex false ],
       true)
  | [] =>
      ([ createRandomGem (laneX lane) spawnZ (uuid pf SiteGem) GEM_Y
                         (drawRarity pf SiteGem) ],
       false)
  end.

(** How many aliens a squad has, and how many obstacles a row. *)
Definition alienCount (lanes : Z) (pAlien : float) : Z :=
  let alienCount := if gtb pAlien 0.7 then Z.min 2 lanes else 1 in
  if gtb pAlien 0.9 && (3 <=? lanes) then 3 else alienCount.

Definition countToSpawn (lanes : Z) (p : float) : Z :=
  if gtb p 0.80 then Z.min 3 lanes
  else if gtb p 0.50 then Z.min 2 lanes
  else 1.

(** [availableLanes[k] * LANE_WIDTH]; [NaN] without such a lane. *)
Definition shuffledX (availableLanes : list Z) (k : nat) : float :=
  match nth_error availableLanes k with
  | Some lane => laneX lane
  | None => nan
  end.

Definition alienAt (pf : Platform) (availableLanes : list Z) (spawnZ : float)
  (k : nat) : GameObject :=
  mkGameObject (uuid pf (SiteAlien k)) ALIEN
               (vec3 (shuffledX availableLanes k) 1.5 spawnZ) true (Some "#00ff00")
               None None None false.

(** A gem in the [k]-th lane with the 40% draw of that lane. *)
Definition fillGem (pf : Platform) (availableLanes : list Z) (spawnZ : float)
  (k : nat) : list GameObject :=
  if (drawFill pf k <? 0.4)%float
  then [ createRandomGem (shuffledX availableLanes k) spawnZ (uuid pf (SiteFill k)) GEM_Y
                         (drawRarity pf (SiteFill k)) ]
  else [].

(** An obstacle in the [k]-th lane, and with the 40% draw a gem above it. *)
Definition obstacleAt (pf : Platform) (availableLanes : list Z)
  (spawnZ : float) (k : nat) : list GameObject :=
  mkGameObject (uuid pf (SiteObstacle k)) OBSTACLE
               (vec3 (shuffledX availableLanes k) (OBSTACLE_HEIGHT / 2) spawnZ)
               true (Some "#ff0054") None None None false
  :: (if (drawBonus pf k <? 0.4)%float
      then [ createRandomGem (shuffledX availableLanes k) spawnZ (uuid pf (SiteBonus k))
                             2.5 (drawRarity pf (SiteBonus k)) ]
      else []).

(** [for (let k = from; k < to; k++)] *)
Definition indices (from to : Z) : list nat :=
  seq (Z.to_nat from) (Z.to_nat to - Z.to_nat from).

Definition planAliens (pf : Platform) (availableLanes : list Z)
  (spawnZ : float) : list GameObject :=
  let length := Z.of_nat (List.length availableLanes) in
  let alienCount := alienCount length (drawCount pf) in
  map (alienAt pf availableLanes spawnZ) (indices 0 alienCount)
  ++ flat_map (fillGem pf availableLanes spawnZ) (indices alienCount length).

Definition planObstacles (pf : Platform) (availableLanes : list Z)
  (spawnZ : float) : list GameObject :=
  let length := Z.of_nat (List.length availableLanes) in
  let countToSpawn := countToSpawn length (drawCount pf) in
  flat_map (obstacleAt pf availableLanes spawnZ) (indices 0 countToSpawn)
  ++ flat_map (fillGem pf availableLanes spawnZ) (indices countToSpawn length).

(** The branch taken when no letter is due and the 90% draw passed. *)
Definition planRow (pf : Platform) (snap : GameState) (spawnZ : float)
  : list GameObject :=
  let isObstacle :=
    (drawObstacle pf <? obstacleProb (level snap) (hasLuckCharm snap))%float in
  if isObstacle then
    let alienBase := (0.2 + (Z2f (level snap) * 0.02))%float in
    let spawnAlien :=
      (2 <=? level snap)
      && (drawAlien pf <? Math_min 0.5 alienBase)%float in
    let availableLanes := sort_random pf (availableLanes (laneCount snap)) in
    if spawnAlien then planAliens pf availableLanes spawnZ
    else planObstacles pf availableLanes spawnZ
  else
    let lane := getRandomLane (laneCount snap) (drawLane pf) in
    [ createRandomGem (laneX lane) spawnZ (uuid pf SiteGem) GEM_Y
                      (drawRarity pf SiteGem) ].

(** What the planner leaves: the entities pushed on [keptObjects], the next
    letter checkpoint and whether it raised [hasChanges]. *)
Record Plan : Type := mkPlan {
  planned_objects : list GameObject;
  planned_next : float;
  planned_changes : bool
}.

Definition planner (pf : Platform) (snap : GameState)
  (distanceTraveled nextLetterDistance : float)
  (keptObjects : list GameObject) : Plan :=
  let furthestZ := furthestZ keptObjects in
  if gtb furthestZ (- SPAWN_DISTANCE)%float then
    let spawnZ := spawnZ (speed snap) furthestZ in
    let isLetterDue := (nextLetterDistance <=? distanceTraveled)%float in
    if isLetterDue then
      let '(objs, isLetter) := planLetter pf snap spawnZ in
      mkPlan objs
             (if isLetter
              then (nextLetterDistance
                    + getLetterInterval pf (level snap))%float
              else nextLetterDistance)
             true
    else if (drawSpawn pf <? baseSpawnCheck)%float then
      mkPlan (planRow pf snap spawnZ) nextLetterDistance true
    else mkPlan [] nextLetterDistance false
  else mkPlan [] nextLetterDistance false.

(** The frame callback with its planner: the loop runs, the planner reads
    what the loop kept and the missiles it fired and pushes on the same
    array, and the registry is replaced when [hasChanges]. *)
Definition frame (pf : Platform) (f : Frame) (r : Refs)
  (nextLetterDistance : float) : Refs * float * list Effect :=
  match status (snap f) with
  | PLAYING =>
      let d := drone f r in
      let l := loop f (droneChanged d) (droneObjects d) in
      let alert :=
        if GameMode_eqb (gameMode (snap f)) ASSIST
        then threatInCurrentLane l else false in
      let distanceTraveled := (distanceTraveled r + dist f)%float in
      let p := planner pf (snap f) distanceTraveled nextLetterDistance
                       (keptObjects l ++ newSpawns l) in
      let kept := keptObjects l ++ newSpawns l ++ planned_objects p in
      let changes := hasChanges l || planned_changes p in
      (mkRefs (if changes then kept else visited l)
              (droneLastFire d)
              distanceTraveled,
       planned_next p,
       droneEffects d ++ emitted l ++ [SetShowJumpAlert alert]
       ++ (if changes then [SetRenderTrigger] else []))
  | _ => (r, nextLetterDistance, [])
  end.

(** The frame of [tick] that is given the entities the planner creates. *)
Definition withPlanned (pf : Platform) (f : Frame) (r : Refs)
  (nextLetterDistance : float) : Frame :=
  let d := drone f r in
  let l := loop f (droneChanged d) (droneObjects d) in
  mkFrame (snap f) (delta f) (playerPos f) (now f) (uuidv4 f)
          (planned_objects
             (planner pf (snap f) (distanceTraveled r + dist f)%float
                      nextLetterDistance (keptObjects l ++ newSpawns l))).

(** One entity followed over successive frames, as [hitsOver] follows it:
    how many missiles it fires. *)
Fixpoint missilesOver (frames : list (bool * Frame * nat)) (obj : GameObject)
  : nat :=
  match frames with
  | [] => 0
  | (cleared, f, n) :: rest =>
      let p :=
        processObject f n (if cleared then setActive false obj else obj) in
      (List.length (p_spawns p)
       + (if p_keep p then missilesOver rest (p_obj p) else 0))%nat
  end.

(** ** [LevelManager.tsx]: resets and transitions *)

Definition GameStatus_eqb (a b : GameStatus) : bool :=
  match a, b with
  | MENU, MENU | LEVEL_SELECT, LEVEL_SELECT | PLAYING, PLAYING
  | SHOP, SHOP | GAME_OVER, GAME_OVER | VICTORY, VICTORY => true
  | _, _ => false
  end.

(** The refs of the component: the three of [Refs], the next letter
    checkpoint and the status and level seen by the last run of the
    effect. *)
Record Manager : Type := mkManager {
  refs : Refs;
  nextLetterDistance : float;
  prevStatus : GameStatus;
  prevLevel : Z
}.

Definition shopPortal (id : string) : GameObject :=
  mkGameObject id SHOP_PORTAL (vec3 0 0 (-100)) true None None None None
               false.

(** The effect on [status] and [level]: the refs it leaves, the store
    operations it calls and whether it bumps the render trigger.  [id] is
    the result of [uuidv4()]. *)
Definition onTransition (pf : Platform) (status : GameStatus) (level : Z)
  (id : string) (m : Manager) : Manager * list Call * bool :=
  let isRestart :=
    GameStatus_eqb status PLAYING && GameStatus_eqb (prevStatus m) GAME_OVER in
  let isMenuReset := GameStatus_eqb status MENU in
  let isLevelUp :=
    negb (level =? prevLevel m) && GameStatus_eqb status PLAYING in
  let isVictoryReset :=
    GameStatus_eqb status PLAYING && GameStatus_eqb (prevStatus m) VICTORY in
  let r := refs m in
  if isMenuReset || isRestart || isVictoryReset then
    (mkManager (mkRefs [] (lastDroneFire r) 0) (getLetterInterval pf 1)
               status level,
     [CSetShowJumpAlert false], true)
  else if isLevelUp && (1 <? level) then
    (mkManager
       (mkRefs (filter (fun obj => gtb (at2 (position obj)) (-80)) (objects r)
                ++ [shopPortal id])
               (lastDroneFire r) (distanceTraveled r))
       (distanceTraveled r - SPAWN_DISTANCE + getLetterInterval pf level)
       status level,
     [], true)
  else if GameStatus_eqb status GAME_OVER || GameStatus_eqb status VICTORY then
    (mkManager r (nextLetterDistance m) status level,
     [CSetDistance (Math_floor (distanceTraveled r)); CSetShowJumpAlert false],
     false)
  else (mkManager r (nextLetterDistance m) status level, [], false).

(** ** The shop screen *)

(** A [ShopItem]; its name, description and icon are presentation only. *)
Record ShopItem : Type := mkShopItem {
  item_id : string;
  cost : Z;
  oneTime : bool
}.

Definition SHOP_ITEMS : list ShopItem :=
  [ mkShopItem "DOUBLE_JUMP" 200 true;
    mkShopItem "MAX_LIFE" 300 false;
    mkShopItem "HEAL" 100 false;
    mkShopItem "IMMORTAL" 600 true;
    mkShopItem "MAGNET" 400 false;
    mkShopItem "SHIELD" 150 false;
    mkShopItem "TIME_WARP" 500 true;
    mkShopItem "GEM_BOOSTER" 800 true;
    mkShopItem "LUCK_CHARM" 400 true;
    mkShopItem "SONIC_BLAST" 1000 true;
    mkShopItem "DRONE" 6000 true;
    mkShopItem "REVIVE" 4000 true;
    mkShopItem "DISCOUNT" 8000 true ].

(** The filter of [generateShopItems], in source order. *)
Definition inPool (state : GameState) (item : ShopItem) : bool :=
  if (item_id item === "DOUBLE_JUMP") && hasDoubleJump state then false
  else if (item_id item === "IMMORTAL") && hasImmortality state then false
  else if (item_id item === "MAGNET") && (5 <=? magnetLevel state) then false
  else if (item_id item === "TIME_WARP") && hasTimeWarp state then false
  else if (item_id item === "GEM_BOOSTER") && hasGemBooster state then false
  else if (item_id item === "LUCK_CHARM") && hasLuckCharm state then false
  else if (item_id item === "SONIC_BLAST") && hasSonicBlast state then false
  else if (item_id item === "DRONE") && hasDrone state then false
  else if (item_id item === "REVIVE") && hasRevive state then false
  else if (item_id item === "DISCOUNT") && hasDiscount state then false
  else if (item_id item === "SHIELD") && (3 <=? shieldCount state) then false
  else if (item_id item === "MAX_LIFE") && (10 <=? maxLives state) then false
  else if (item_id item === "HEAL") && (maxLives state <=? lives state)
  then false
  else true.

Definition EXCHANGE_ITEM : ShopItem := mkShopItem "EXCHANGE" 0 false.

(** [generateShopItems]; [sort] is what [pool.sort(() => 0.5 -
    Math.random())] does to the pool. *)
Definition generateShopItems (sort : list ShopItem -> list ShopItem)
  (state : GameState) : list ShopItem :=
  let pool := filter (inPool state) SHOP_ITEMS in
  let pool := sort pool in
  let selected := firstn 3 pool in
  if (List.length selected <? 3)%nat
  then selected ++ repeat EXCHANGE_ITEM (3 - List.length selected)
  else selected.

(** [hasDiscount ? Math.floor(item.cost * 0.8) : item.cost], and the
    wallet for the exchange. *)
Definition finalCost (state : GameState) (item : ShopItem) : Z :=
  if item_id item === "EXCHANGE" then currency state
  else if hasDiscount state then Math_floor (Z2f (cost item) * 0.8)%float
  else cost item.

(** The [disabled] attribute of an item's button. *)
Definition isDisabled (state : GameState) (item : ShopItem) : bool :=
  let canAfford :=
    if item_id item === "EXCHANGE" then 0 <? currency state
    else finalCost state item <=? currency state in
  let id := item_id item in
  negb canAfford
  || ((id === "HEAL") && (maxLives state <=? lives state))
  || ((id === "SHIELD") && (3 <=? shieldCount state))
  || ((id === "MAX_LIFE") && (10 <=? maxLives state))
  || ((id === "MAGNET") && (5 <=? magnetLevel state))
  || ((id === "DOUBLE_JUMP") && hasDoubleJump state)
  || ((id === "IMMORTAL") && hasImmortality state)
  || ((id === "TIME_WARP") && hasTimeWarp state)
  || ((id === "GEM_BOOSTER") && hasGemBooster state)
  || ((id === "LUCK_CHARM") && hasLuckCharm state)
  || ((id === "SONIC_BLAST") && hasSonicBlast state)
  || ((id === "DRONE") && hasDrone state)
  || ((id === "REVIVE") && hasRevive state)
  || ((id === "DISCOUNT") && hasDiscount state).

(** [onClick] of an item's button, which the browser runs only when the
    button is not disabled; the render that made the button read the same
    store. *)
Definition clickItem (item : ShopItem) : Action unit :=
  s <- get ;;
  if isDisabled s item then ret tt
  else forget (buyItem (item_id item) (finalCost s item)).

Fixpoint forEach {A : Type} (g : A -> Action unit) (l : list A)
  : Action unit :=
  match l with
  | [] => ret tt
  | a :: l' => _ <- g a ;; forEach g l'
  end.

(** [handleBuyAll] *)
Definition handleBuyAll (items : list ShopItem) : Action unit :=
  forEach
    (fun item =>
       currentStore <- get ;;
       let isValid :=
         negb ((item_id item === "HEAL")
               && (maxLives currentStore <=? lives currentStore))
         && negb ((item_id item === "SHIELD")
                  && (3 <=? shieldCount currentStore)) in
       let finalCost := finalCost currentStore item in
       if isValid && (finalCost <=? currency currentStore)
       then forget (buyItem (item_id item) finalCost)
       else ret tt)
    items.

(** [handleRefresh]: the items shown afterwards. *)
Definition handleRefresh (sort : list ShopItem -> list ShopItem)
  (items : list ShopItem) : Action (list ShopItem) :=
  paid <- spendCurrency 100 ;;
  if paid then s <- get ;; ret (generateShopItems sort s)
  else ret items.

(** ** The HUD: the sonic blast button *)

(** [Math.max(0, 15000 - diff)], the cooldown that the interval callback
    stores when it runs at [now]. *)
Definition sonicCooldown (now : Z) (state : GameState) : Z :=
  let diff := now - lastSonicBlastTime state in
  Z.max 0 (15000 - diff).

(** [handleSonicBlast] of the HUD. *)
Definition HUD_handleSonicBlast (now : Z) : Action unit :=
  fired <- triggerSonicBlast now ;;
  if fired then dispatchEvent "trigger-sonic-blast" else ret tt.

(** What the level manager does with an event of the window. *)
Definition onEvent (name : string) (objs : list GameObject)
  : list GameObject * list Effect :=
  if name === "trigger-sonic-blast" then handleSonicBlast objs
  else (objs, []).

(** ** Vocabulary of the statements on the level manager *)

(** What the drone may shoot: an active hazard ahead of the player and
    less than 40 units away; and its distance to the player. *)
Definition eligible (playerPos : Vec3) (o : GameObject) : bool :=
  active o && isHazard (type o)
  && (at2 (position o) <? at2 playerPos)%float
  && gtb (at2 (position o)) (at2 playerPos - 40)%float.

Definition droneDist (playerPos : Vec3) (o : GameObject) : float :=
  abs (at2 (position o) - at2 playerPos)%float.

(** What the scan knows after the entities [pre]. *)
Definition scanned (playerPos : Vec3) (pre : list GameObject)
  (targetObj : option nat) (minDist : float) : Prop :=
  Forall (fun o => eligible playerPos o = true ->
                   (droneDist playerPos o <? minDist)%float = false) pre
  /\ match targetObj with
     | None => minDist = 999%float
     | Some i =>
         exists t, nth_error pre i = Some t
                   /\ eligible playerPos t = true
                   /\ minDist = droneDist playerPos t
                   /\ (droneDist playerPos t <? 999)%float = true
     end.

(** What every entity of the planner has in common. *)
Definition plannedAt (z : float) (o : GameObject) : Prop :=
  active o = true /\ hasFired o = false /\ at2 (position o) = z
  /\ (type o = LETTER \/ type o = GEM \/ type o = ALIEN
      \/ type o = OBSTACLE).

(** The abscissas of the hazards of a row, and of its gems at the default
    height. *)
Definition hazardXs (row : list GameObject) : list float :=
  map (fun o => at0 (position o))
      (filter (fun o => isHazard (type o)) row).

Definition groundGemXs (row : list GameObject) : list float :=
  map (fun o => at0 (position o))
      (filter (fun o => isType (type o) GEM
                        && (at1 (position o) =? GEM_Y)%float) row).

(** A platform for the examples: every draw is [draw], the sort leaves the
    lanes in order and [Math.pow] is taken at exponent 0. *)
Definition samplePlatform (draw : float) : Platform :=
  mkPlatform (fun _ _ => 1%float) draw draw draw draw draw draw
             (fun _ => draw) (fun _ => draw) (fun _ => draw)
             (fun l => l) (fun _ => "u").

(** An alien 50 units ahead that has not fired. *)
Definition alienAhead : GameObject :=
  mkGameObject "a1" ALIEN (vec3 0 1.5 (-50)) true (Some "#00ff00")
               None None None false.

Arguments finalValue : simpl never.
Arguments Math_floor : simpl never.
Arguments Z2f : simpl never.
Arguments moveAmount : simpl never.

(** * Properties of the store *)

Ltac unfold_store :=
  unfold after, result, call, takeDamage, collectGem, collectLetter,
    advanceLevel, buyItem, spendCurrency, grant, bind, get, set, ret,
    dispatchEvent, setTimeout, merge; cbn [fst snd state fold_left].

Lemma not_invulnerable (s : GameState) :
  ~ invulnerable s ->
  GameMode_eqb (gameMode s) CHEAT || isImmortalityActive s
  || isShopInvincible s = false.
Proof.
  unfold invulnerable. intros H.
  destruct (gameMode s), (isImmortalityActive s), (isShopInvincible s);
    cbn; try reflexivity; exfalso; apply H; auto.
Qed.

Lemma is_invulnerable (s : GameState) :
  invulnerable s ->
  GameMode_eqb (gameMode s) CHEAT || isImmortalityActive s
  || isShopInvincible s = true.
Proof.
  unfold invulnerable.
  destruct (gameMode s), (isImmortalityActive s), (isShopInvincible s);
    cbn; try reflexivity; intros [H | [H | H]]; discriminate H.
Qed.

Ltac damage_branch s :=
  unfold_store;
  first [ rewrite (not_invulnerable s) by assumption
        | rewrite (is_invulnerable s) by assumption ];
  repeat match goal with
         | |- context [Z.ltb ?a ?b] =>
             destruct (Z.ltb_spec a b); [ try lia | try lia ]
         end.

(** C1. [takeDamage] does nothing under CHEAT mode, active immortality or
    shop grace; otherwise it consumes one shield and changes nothing else;
    otherwise, above one life, it takes one life; on the last life a held
    revive charge restores [maxLives], is cleared and grants immortality
    (with a 3000 ms timer that clears it), the status staying as it was;
    otherwise lives and speed drop to 0 and the status is VICTORY in an
    endless run, GAME_OVER in a finite one. *)
Theorem takeDamage_spec (s : GameState) :
  (invulnerable s -> call takeDamage s = (tt, mkWorld s [] [] []))
  /\ (~ invulnerable s -> 0 < shieldCount s ->
      after takeDamage s = s <| upd_shieldCount (shieldCount s - 1) |>)
  /\ (~ invulnerable s -> shieldCount s <= 0 -> 1 < lives s ->
      after takeDamage s = s <| upd_lives (lives s - 1) |>)
  /\ (~ invulnerable s -> shieldCount s <= 0 -> lives s <= 1 ->
      hasRevive s = true ->
      let w := snd (call takeDamage s) in
      state w = s <| upd_lives (maxLives s) |> <| upd_hasRevive false |>
                  <| upd_isImmortalityActive true |>
      /\ status (state w) = status s
      /\ dispatched w = ["trigger-sonic-blast"]
      /\ timers w = [(3000, [upd_isImmortalityActive false])]
      /\ (forall t, In t (timers w) ->
          isImmortalityActive (fire t (state w)) = false))
  /\ (~ invulnerable s -> shieldCount s <= 0 -> lives s <= 1 ->
      hasRevive s = false -> targetLevels s = Infinity ->
      after takeDamage s
      = s <| upd_lives 0 |> <| upd_status VICTORY |> <| upd_speed 0%float |>)
  /\ (~ invulnerable s -> shieldCount s <= 0 -> lives s <= 1 ->
      hasRevive s = false -> forall n, targetLevels s = Levels n ->
      after takeDamage s
      = s <| upd_lives 0 |> <| upd_status GAME_OVER |> <| upd_speed 0%float |>).
Proof.
  split; [| split; [| split; [| split; [| split]]]].
  - intros H. damage_branch s. reflexivity.
  - intros H Hs. damage_branch s. reflexivity.
  - intros H Hs Hl. damage_branch s. reflexivity.
  - intros H Hs Hl Hr. damage_branch s. rewrite Hr. cbn.
    repeat split; try reflexivity.
    intros t [<- | []]. reflexivity.
  - intros H Hs Hl Hr Ht. damage_branch s. rewrite Hr, Ht. reflexivity.
  - intros H Hs Hl Hr n Ht. damage_branch s. rewrite Hr, Ht. reflexivity.
Qed.

Lemma in_rangeZ (a : Z) (n : nat) (L : Z) :
  a <= L < a + Z.of_nat n -> In L (rangeZ a n).
Proof.
  intros H. unfold rangeZ. apply in_map_iff.
  exists (Z.to_nat (L - a)). split; [lia | apply in_seq; lia].
Qed.

(** The documented example: level multiplier 1.4, boost 2, floor of 28. *)
Lemma finalValue_level3_boosted : finalValue 10 3 true = 28.
Proof. vm_compute. reflexivity. Qed.

Lemma exactb_levels :
  forallb (fun v =>
             forallb (fun L => exactb v L false && exactb v L true)
                     (rangeZ 1 18))
          gemValues = true.
Proof. vm_compute. reflexivity. Qed.

Lemma within1b_levels :
  forallb (fun v =>
             forallb (fun L => within1b v L false && within1b v L true)
                     (rangeZ 1 1000))
          gemValues = true.
Proof. vm_compute. reflexivity. Qed.

(** The floor is taken of the binary64 product: a gold gem of 50 points at
    level 19 is worth 229, where the exact product 50 x 4.6 is 230. *)
Lemma finalValue_level19 :
  finalValue 50 19 false = 229 /\ finalValueQ 50 19 false = 230.
Proof. split; vm_compute; reflexivity. Qed.

(** C2. What [collectGem] does with the final value is what the claim says:
    it adds ten times the final value to the score and the final value to
    the currency, counts the gem, and heals one life exactly when the gem is
    a healing one and a life is missing, all in a single [set]; at level 3
    with the gem booster, [collectGem(10, false)] adds 280 to the score and
    28 to the currency.  The final value itself is not always the one of the
    claim's formula: the code takes the floor of a product computed in
    binary64.  For the gems the game makes it is the formula's value at
    levels 1 to 18 and never more than one below it up to level 1000; but a
    gem of 50 collected at level 19 without the booster is worth 229, and
    adds 2290 to the score, where the formula, and the 20% per level that
    the comment of the code announces, give 230. *)
Theorem collectGem_spec :
  (forall (s : GameState) (v : Z) (isHealing : bool),
      let fv := finalValue v (level s) (hasGemBooster s) in
      let w := snd (call (collectGem v isHealing) s) in
      state w
      = s <| upd_score (score s + fv * 10) |>
          <| upd_currency (currency s + fv) |>
          <| upd_gemsCollected (gemsCollected s + 1) |>
          <| upd_lives (if isHealing && (lives s <? maxLives s)
                        then lives s + 1 else lives s) |>
      /\ (lives (state w) = lives s + 1
          <-> isHealing = true /\ lives s < maxLives s)
      /\ List.length (setCalls w) = 1%nat)
  /\ (forall s : GameState,
         level s = 3 -> hasGemBooster s = true ->
         finalValueQ 10 3 true = 28
         /\ score (after (collectGem 10 false) s) = score s + 280
         /\ currency (after (collectGem 10 false) s) = currency s + 28)
  /\ (forall (v L : Z) (booster : bool),
         In v gemValues -> 1 <= L <= 18 ->
         finalValue v L booster = finalValueQ v L booster)
  /\ (forall (v L : Z) (booster : bool),
         In v gemValues -> 1 <= L <= 1000 ->
         finalValueQ v L booster - 1 <= finalValue v L booster
         <= finalValueQ v L booster)
  /\ (forall s : GameState,
         level s = 19 -> hasGemBooster s = false ->
         finalValueQ 50 19 false = 230
         /\ score (after (collectGem 50 false) s) = score s + 2290
         /\ currency (after (collectGem 50 false) s) = currency s + 229).
Proof.
  split; [| split; [| split; [| split]]].
  - intros s v isHealing. cbv zeta. unfold_store.
    destruct isHealing; cbn [andb];
      [destruct (Z.ltb_spec (lives s) (maxLives s)) |]; cbn;
      (split; [reflexivity |]); (split; [| reflexivity]);
      split; try tauto; try lia; intros [? ?]; try discriminate; lia.
  - intros s Hl Hb. split; [vm_compute; reflexivity |].
    unfold_store. rewrite Hl, Hb, finalValue_level3_boosted.
    cbn. split; reflexivity.
  - intros v L booster Hv HL.
    pose proof exactb_levels as A. rewrite forallb_forall in A.
    specialize (A v Hv). rewrite forallb_forall in A.
    specialize (A L (in_rangeZ 1 18 L ltac:(lia))).
    apply andb_true_iff in A as [A1 A2].
    apply Z.eqb_eq. destruct booster; assumption.
  - intros v L booster Hv HL.
    pose proof within1b_levels as A. rewrite forallb_forall in A.
    specialize (A v Hv). rewrite forallb_forall in A.
    specialize (A L (in_rangeZ 1 1000 L ltac:(lia))).
    apply andb_true_iff in A as [A1 A2].
    assert (B : within1b v L booster = true)
      by (destruct booster; assumption).
    unfold within1b in B. apply andb_true_iff in B as [B1 B2].
    apply Z.leb_le in B1, B2. split; assumption.
  - intros s Hl Hb. destruct finalValue_level19 as [E1 E2].
    split; [exact E2 |].
    unfold_store. rewrite Hl, Hb, E1. cbn. split; reflexivity.
Qed.

Lemma includes_In (l : list Z) (index : Z) :
  includes l index = true <-> In index l.
Proof.
  unfold includes. rewrite existsb_exists. split.
  - intros [x [Hx E]]. apply Z.eqb_eq in E. subst. exact Hx.
  - intros H. exists index. split; [exact H | apply Z.eqb_refl].
Qed.

Lemma includes_not_In (l : list Z) (index : Z) :
  ~ In index l -> includes l index = false.
Proof.
  intros H. destruct (includes l index) eqn:E; [| reflexivity].
  apply includes_In in E. contradiction.
Qed.

(** A letter already collected: nothing happens. *)
Lemma collectLetter_again (s : GameState) (index : Z) :
  In index (collectedLetters s) ->
  call (collectLetter index) s = (tt, mkWorld s [] [] []).
Proof.
  intros H. apply includes_In in H. unfold_store. rewrite H. reflexivity.
Qed.

(** A new letter short of the sixth. *)
Lemma collectLetter_more (s : GameState) (index : Z) :
  ~ In index (collectedLetters s) ->
  List.length (collectedLetters s) <> 5%nat ->
  after (collectLetter index) s = withLetter index s.
Proof.
  intros H Hn. apply includes_not_In in H. unfold_store. rewrite H. cbn.
  rewrite length_app. cbn [List.length].
  destruct (Nat.eqb_spec (List.length (collectedLetters s) + 1) 6);
    [lia | reflexivity].
Qed.

(** The sixth letter while the run continues: the level advances. *)
Lemma collectLetter_advance (s : GameState) (index : Z) :
  ~ In index (collectedLetters s) ->
  List.length (collectedLetters s) = 5%nat ->
  continues s ->
  after (collectLetter index) s = after advanceLevel (withLetter index s).
Proof.
  intros H Hn Hc. apply includes_not_In in H. unfold_store. rewrite H. cbn.
  rewrite length_app, Hn. cbn.
  destruct Hc as [E | [n [E Hlt]]]; rewrite E; cbn.
  - reflexivity.
  - destruct (Z.ltb_spec (level s) n); [reflexivity | lia].
Qed.

(** The sixth letter of the last level: VICTORY and the bonus. *)
Lemma collectLetter_victory (s : GameState) (index n : Z) :
  ~ In index (collectedLetters s) ->
  List.length (collectedLetters s) = 5%nat ->
  targetLevels s = Levels n -> n <= level s ->
  after (collectLetter index) s
  = (withLetter index s) <| upd_status VICTORY |>
                         <| upd_score (score s + 10000) |>.
Proof.
  intros H Hn E Hle. apply includes_not_In in H. unfold_store. rewrite H. cbn.
  rewrite length_app, Hn, E. cbn.
  destruct (Z.ltb_spec (level s) n); [lia | reflexivity].
Qed.

(** C3. [collectLetter] ignores an index already collected; otherwise it
    appends the index and raises the speed by 2.5% of the base run speed,
    and when that makes six letters it advances the level if the run is
    endless or below its target level, else sets VICTORY and adds 10000 to
    the score; so with five target levels the sixth letter of level 5 ends
    the run in VICTORY with the bonus on top of the letter's own effects. *)
Theorem collectLetter_spec (s : GameState) (index : Z) :
  (In index (collectedLetters s) ->
   call (collectLetter index) s = (tt, mkWorld s [] [] []))
  /\ (~ In index (collectedLetters s) ->
      let s1 := withLetter index s in
      (List.length (collectedLetters s1) <> 6%nat ->
       after (collectLetter index) s = s1)
      /\ (List.length (collectedLetters s1) = 6%nat -> continues s ->
          after (collectLetter index) s = after advanceLevel s1)
      /\ (List.length (collectedLetters s1) = 6%nat ->
          forall n, targetLevels s = Levels n -> n <= level s ->
          after (collectLetter index) s
          = s1 <| upd_status VICTORY |> <| upd_score (score s + 10000) |>))
  /\ (~ In index (collectedLetters s) ->
      List.length (collectedLetters s) = 5%nat ->
      targetLevels s = Levels 5 -> level s = 5 ->
      let s' := after (collectLetter index) s in
      status s' = VICTORY
      /\ score s' = score s + 10000
      /\ collectedLetters s' = collectedLetters s ++ [index]
      /\ speed s' = (speed s + RUN_SPEED_BASE * 0.025)%float).
Proof.
  split; [apply collectLetter_again |]. split.
  - intros H. cbn zeta.
    assert (L : List.length (collectedLetters (withLetter index s))
                = (List.length (collectedLetters s) + 1)%nat)
      by (cbn; apply length_app).
    rewrite L. repeat split.
    + intros Hn. apply collectLetter_more; [exact H | lia].
    + intros Hn Hc. apply collectLetter_advance; [exact H | lia | exact Hc].
    + intros Hn n E Hle. apply (collectLetter_victory s index n);
        [exact H | lia | exact E | exact Hle].
  - intros H Hn E Hl. cbn zeta.
    rewrite (collectLetter_victory s index 5 H Hn E) by lia.
    cbn. repeat split; reflexivity.
Qed.

(** C10. [collectLetter] never checks its index against the six glyphs: any
    integer not yet collected, negative or beyond 5 included, is appended
    with the speed increase, and counts as one of the six letters that
    complete the level. *)
Theorem collectLetter_unvalidated (s : GameState) (index : Z) :
  ~ In index (collectedLetters s) ->
  (List.length (collectedLetters s) <> 5%nat ->
   after (collectLetter index) s = withLetter index s
   /\ collectedLetters (after (collectLetter index) s)
      = collectedLetters s ++ [index])
  /\ (List.length (collectedLetters s) = 5%nat -> continues s ->
      after (collectLetter index) s = after advanceLevel (withLetter index s)
      /\ level (after (collectLetter index) s) = level s + 1)
  /\ (List.length (collectedLetters s) = 5%nat ->
      forall n, targetLevels s = Levels n -> n <= level s ->
      status (after (collectLetter index) s) = VICTORY
      /\ score (after (collectLetter index) s) = score s + 10000
      /\ collectedLetters (after (collectLetter index) s)
         = collectedLetters s ++ [index]).
Proof.
  intros H. split; [| split].
  - intros Hn. rewrite collectLetter_more by assumption.
    split; reflexivity.
  - intros Hn Hc. rewrite collectLetter_advance by assumption.
    split; reflexivity.
  - intros Hn n E Hle. rewrite (collectLetter_victory s index n) by assumption.
    repeat split; reflexivity.
Qed.

(** C7. Buying [EXCHANGE] with some currency converts all of it to score at
    100 to 1 and succeeds whatever the cost; without currency it fails and
    changes nothing; 500 of currency become 50000 of score. *)
Theorem buyItem_EXCHANGE (s : GameState) (cost : Z) :
  (0 < currency s ->
   result (buyItem "EXCHANGE" cost) s = true
   /\ after (buyItem "EXCHANGE" cost) s
      = s <| upd_score (score s + currency s * 100) |> <| upd_currency 0 |>)
  /\ (currency s <= 0 ->
      call (buyItem "EXCHANGE" cost) s = (false, mkWorld s [] [] []))
  /\ (currency s = 500 ->
      result (buyItem "EXCHANGE" cost) s = true
      /\ score (after (buyItem "EXCHANGE" cost) s) = score s + 50000
      /\ currency (after (buyItem "EXCHANGE" cost) s) = 0).
Proof.
  split; [| split]; intros H; unfold_store; cbn;
    destruct (Z.ltb_spec 0 (currency s)); try lia;
    repeat split; try reflexivity.
  cbn. lia.
Qed.

(** C9. An item type that is neither [EXCHANGE] nor one of the recognised
    identifiers is sold when affordable: the cost is debited in one [set],
    nothing is granted, and the purchase reports success. *)
Theorem buyItem_unrecognised (s : GameState) (type : string) (cost : Z) :
  type <> "EXCHANGE" -> ~ In type recognised -> cost <= currency s ->
  call (buyItem type cost) s
  = (true, mkWorld (s <| upd_currency (currency s - cost) |>)
                   [[upd_currency (currency s - cost)]] [] []).
Proof.
  intros Hx Hr Hc.
  assert (E : forall x, x = "EXCHANGE" \/ In x recognised ->
                        (type === x) = false).
  { intros x Hin. apply String.eqb_neq. intros ->.
    destruct Hin as [Hin | Hin]; [apply Hx | apply Hr]; exact Hin. }
  unfold_store. unfold blocked.
  repeat match goal with
         | |- context [type === ?x] =>
             rewrite (E x) by (unfold recognised; cbn; tauto)
         end.
  cbn. destruct (Z.leb_spec cost (currency s)); [reflexivity | lia].
Qed.

Lemma takeDamage_clamped (s : GameState) :
  clamped s -> clamped (after takeDamage s).
Proof.
  unfold clamped. intros H. unfold_store.
  destruct (GameMode_eqb (gameMode s) CHEAT || isImmortalityActive s
            || isShopInvincible s); cbn; [exact H |].
  destruct (Z.ltb_spec 0 (shieldCount s)); cbn; [lia |].
  destruct (Z.ltb_spec 1 (lives s)); cbn; [exact H |].
  destruct (hasRevive s); cbn; [exact H |].
  destruct (isInfinity (targetLevels s)); cbn; exact H.
Qed.

Lemma buyItem_clamped (s : GameState) (type : string) (cost : Z) :
  clamped s -> clamped (after (buyItem type cost) s).
Proof.
  unfold clamped. intros H. unfold_store. unfold blocked.
  repeat match goal with
         | |- context [type === ?x] =>
             destruct (String.eqb_spec type x); [subst type; cbn |]
         end;
    cbn;
    repeat match goal with
           | |- context [if ?b then _ else _] => destruct b eqn:?; cbn
           end;
    try lia.
Qed.

Lemma step_clamped (o : Op) (s : GameState) : clamped s -> clamped (step o s).
Proof.
  destruct o; cbn; [apply buyItem_clamped | apply takeDamage_clamped].
Qed.

Lemma run_clamped (ops : list Op) :
  forall s, clamped s -> clamped (run ops s).
Proof.
  unfold run. induction ops as [| o ops IH]; intros s H; cbn.
  - exact H.
  - apply IH, step_clamped, H.
Qed.

(** C8. Along every sequence of purchases and hits that starts with
    [magnetLevel] in [0,5] and [shieldCount] in [0,3], both stay in their
    range: [MAGNET] at level 5 or more and [SHIELD] at 3 or more are
    rejected without any change, and [takeDamage] never takes a shield that
    is not there. *)
Theorem counters_clamped :
  (forall (ops : list Op) (s : GameState), clamped s -> clamped (run ops s))
  /\ (forall (s : GameState) (cost : Z),
         5 <= magnetLevel s ->
         call (buyItem "MAGNET" cost) s = (false, mkWorld s [] [] []))
  /\ (forall (s : GameState) (cost : Z),
         3 <= shieldCount s ->
         call (buyItem "SHIELD" cost) s = (false, mkWorld s [] [] []))
  /\ (forall s : GameState,
         0 <= shieldCount s -> 0 <= shieldCount (after takeDamage s)).
Proof.
  split; [exact run_clamped |]. split; [| split].
  - intros s cost H. unfold_store. unfold blocked. cbn.
    destruct (Z.leb_spec 5 (magnetLevel s)); [| lia].
    cbn. rewrite ?orb_true_r. reflexivity.
  - intros s cost H. unfold_store. unfold blocked. cbn.
    destruct (Z.leb_spec 3 (shieldCount s)); [| lia].
    cbn. rewrite ?orb_true_r. reflexivity.
  - intros s H. unfold_store.
    destruct (GameMode_eqb (gameMode s) CHEAT || isImmortalityActive s
              || isShopInvincible s); cbn; [exact H |].
    destruct (Z.ltb_spec 0 (shieldCount s)); cbn; [lia |].
    destruct (Z.ltb_spec 1 (lives s)); cbn; [exact H |].
    destruct (hasRevive s); cbn; [exact H |].
    destruct (isInfinity (targetLevels s)); cbn; exact H.
Qed.

(** * Properties of the frame loop *)

Lemma fold_loopStep (f : Frame) (objs : list GameObject) :
  forall acc : Loop,
    let ps := processAll f (List.length (newSpawns acc)) objs in
    fold_left (loopStep f) objs acc
    = mkLoop (visited acc ++ map p_obj ps)
             (keptObjects acc ++ map p_obj (filter p_keep ps))
             (newSpawns acc ++ flat_map p_spawns ps)
             (hasChanges acc || existsb p_changed ps)
             (threatInCurrentLane acc || existsb p_threat ps)
             (emitted acc ++ flat_map p_effects ps).
Proof.
  induction objs as [| obj rest IH]; intros acc; cbn zeta.
  - cbn. rewrite !app_nil_r, !orb_false_r. destruct acc; reflexivity.
  - cbn [fold_left processAll]. rewrite IH. cbn zeta.
    unfold loopStep.
    cbn [visited keptObjects newSpawns hasChanges threatInCurrentLane emitted].
    rewrite length_app.
    set (p := processObject f (List.length (newSpawns acc)) obj).
    set (ps := processAll f _ rest).
    cbn [map filter flat_map existsb].
    destruct (p_keep p); cbn [map];
      f_equal; rewrite <- ?app_assoc, ?orb_assoc; reflexivity.
Qed.

Lemma loop_processAll (f : Frame) (c0 : bool) (objs : list GameObject) :
  let ps := processAll f 0 objs in
  loop f c0 objs
  = mkLoop (map p_obj ps) (map p_obj (filter p_keep ps))
           (flat_map p_spawns ps) (c0 || existsb p_changed ps)
           (existsb p_threat ps) (flat_map p_effects ps).
Proof. unfold loop. rewrite fold_loopStep. reflexivity. Qed.

(** The collision block never drops an entity without raising
    [hasChanges]. *)
Lemma collide_keep_or_changed (f : Frame) (prevZ : float) (obj : GameObject) :
  c_changed (collide f prevZ obj) = false -> c_keep (collide f prevZ obj) = true.
Proof.
  unfold collide.
  repeat match goal with
         | |- context [if ?b then _ else _] => destruct b
         end; cbn; congruence.
Qed.

Lemma unchanged_kept (f : Frame) (n : nat) (obj : GameObject) :
  p_changed (processObject f n obj) = false ->
  p_keep (processObject f n obj) = true
  /\ p_spawns (processObject f n obj) = [].
Proof.
  unfold processObject. cbn [p_changed p_keep p_spawns].
  intros H. apply orb_false_elim in H as [H He].
  apply orb_false_elim in H as [Hf Hc].
  rewrite Hf in *. rewrite He.
  rewrite (collide_keep_or_changed _ _ _ Hc). split; reflexivity.
Qed.

Lemma unchanged_all (f : Frame) (objs : list GameObject) :
  forall n,
    existsb p_changed (processAll f n objs) = false ->
    filter p_keep (processAll f n objs) = processAll f n objs
    /\ flat_map p_spawns (processAll f n objs) = [].
Proof.
  induction objs as [| obj rest IH]; intros n H;
    cbn [processAll existsb filter flat_map] in *.
  - split; reflexivity.
  - apply orb_false_elim in H as [Hp Hr].
    destruct (unchanged_kept f n obj Hp) as [Hk Hs].
    rewrite Hk, Hs in *.
    destruct (IH _ Hr) as [IH1 IH2]. rewrite IH1, IH2. split; reflexivity.
Qed.

(** The registry at the end of a frame: the entities the loop kept, then
    the missiles fired, then what the planner appended, whether or not the
    array was replaced. *)
Lemma tick_registry (f : Frame) (r : Refs) :
  status (snap f) = PLAYING ->
  let ps := processAll f 0 (droneObjects (drone f r)) in
  objects (fst (tick f r))
  = map p_obj (filter p_keep ps) ++ flat_map p_spawns ps ++ planned f.
Proof.
  intros Hs. cbn zeta. unfold tick. rewrite Hs. rewrite loop_processAll.
  cbn [fst objects hasChanges keptObjects newSpawns visited].
  set (ps := processAll f 0 (droneObjects (drone f r))).
  destruct (droneChanged (drone f r) || existsb p_changed ps) eqn:E;
    cbn [orb]; [reflexivity |].
  destruct (planned f) eqn:Ep; [| reflexivity].
  apply orb_false_elim in E as [_ E].
  destruct (unchanged_all f _ 0 E) as [E1 E2]. fold ps in E1, E2.
  rewrite E1, E2. cbn. rewrite app_nil_r. reflexivity.
Qed.

(** The collision block leaves an inactive entity alone. *)
Lemma collide_inactive (f : Frame) (prevZ : float) (obj : GameObject) :
  active obj = false -> collide f prevZ obj = mkCollision obj true false [].
Proof. intros H. unfold collide. rewrite H. reflexivity. Qed.

Lemma magnet_inactive (f : Frame) (obj : GameObject) :
  active obj = false -> magnet f obj = obj.
Proof.
  intros H. unfold magnet. rewrite H, andb_false_r. reflexivity.
Qed.

(** An inactive entity only moves: no flag, effect or spawn comes of it. *)
Lemma processObject_inactive (f : Frame) (n : nat) (obj : GameObject) :
  active obj = false ->
  let p := processObject f n obj in
  p_obj p = move f obj /\ p_effects p = [] /\ p_spawns p = []
  /\ p_threat p = false.
Proof.
  intros H. cbn zeta. unfold processObject.
  assert (Hm : active (move f obj) = false) by exact H.
  rewrite (magnet_inactive f _ Hm).
  unfold alienFires, threatens. rewrite Hm.
  rewrite !andb_false_r. cbn [andb].
  rewrite (collide_inactive f _ _ Hm). cbn.
  rewrite ?andb_false_r. repeat split; reflexivity.
Qed.

(** Which entities one pass keeps. *)
Lemma processObject_keep (f : Frame) (n : nat) (obj : GameObject) :
  let p := processObject f n obj in
  p_keep p
  = negb (isType (type obj) SHOP_PORTAL && active obj
          && negb (active (p_obj p)))
    && negb (gtb (at2 (position (p_obj p))) REMOVE_DISTANCE).
Proof.
  cbn zeta. unfold processObject. cbn [p_keep p_obj]. f_equal.
  set (o1 := magnet f (move f obj)).
  assert (Ht : type o1 = type obj).
  { unfold o1, magnet.
    repeat match goal with
           | |- context [if ?b then _ else _] => destruct b
           end; reflexivity. }
  assert (Ha : active o1 = active obj).
  { unfold o1, magnet.
    repeat match goal with
           | |- context [if ?b then _ else _] => destruct b
           end; reflexivity. }
  set (o2 := if alienFires o1 then setHasFired true o1 else o1).
  assert (Ht2 : type o2 = type obj)
    by (unfold o2; destruct (alienFires o1); exact Ht).
  assert (Ha2 : active o2 = active obj)
    by (unfold o2; destruct (alienFires o1); exact Ha).
  unfold collide. rewrite Ha2, Ht2.
  destruct (isType (type obj) SHOP_PORTAL), (active obj) eqn:Hact;
    cbn [andb negb c_keep c_obj]; try reflexivity.
  - destruct (_ <? _)%float; cbn [c_keep c_obj]; [reflexivity |].
    rewrite Ha2. reflexivity.
  - repeat match goal with
           | |- context [if ?b then _ else _] => destruct b
           end; reflexivity.
Qed.

Lemma processObject_id (f : Frame) (n : nat) (obj : GameObject) :
  id (p_obj (processObject f n obj)) = id obj.
Proof.
  unfold processObject, collide, magnet. cbn [p_obj].
  repeat match goal with
         | |- context [if ?b then _ else _] => destruct b
         end; reflexivity.
Qed.

Lemma processAll_ids (f : Frame) (objs : list GameObject) :
  forall n,
    map (fun p => id (p_obj p)) (processAll f n objs) = map id objs.
Proof.
  induction objs as [| obj rest IH]; intros n; cbn [processAll map].
  - reflexivity.
  - rewrite processObject_id, IH. reflexivity.
Qed.

Lemma drone_ids (f : Frame) (r : Refs) :
  map id (droneObjects (drone f r)) = map id (objects r).
Proof.
  unfold drone.
  destruct (hasDrone (snap f) && (2000 <? now f - lastDroneFire r));
    [| reflexivity].
  destruct (fst (droneScan (playerPos f) (objects r))) as [i |];
    [| reflexivity].
  cbn [droneObjects]. revert i.
  induction (objects r) as [| a l IH]; intros [| i]; cbn; try reflexivity.
  rewrite IH. reflexivity.
Qed.

(** Among entities with distinct keys, one that a filter drops leaves no
    entity of its key behind. *)
Lemma dropped_key_absent {A B : Type} (g : A -> B) (k : A -> bool)
  (l : list A) (x : A) :
  NoDup (map g l) -> In x l -> k x = false ->
  ~ In (g x) (map g (filter k l)).
Proof.
  induction l as [| a l IH]; intros Hn Hin Hk; [destruct Hin |].
  cbn [map] in Hn. apply NoDup_cons_iff in Hn as [Ha Hn].
  assert (Hsub : forall y, In y (map g (filter k l)) -> In y (map g l)).
  { intros y Hy. apply in_map_iff in Hy as (z & <- & Hz).
    apply filter_In in Hz as [Hz _]. apply in_map, Hz. }
  destruct Hin as [-> | Hin]; cbn [filter].
  - rewrite Hk. intros H. apply Ha, Hsub, H.
  - destruct (k a); cbn [map].
    + intros [E | H].
      * apply Ha. rewrite E. apply in_map, Hin.
      * exact (IH Hn Hin Hk H).
    + exact (IH Hn Hin Hk).
Qed.

(** An entity that the pass keeps is in the registry at the end of the
    frame; one that it drops has left it, ids being unique. *)
Lemma tick_keeps (f : Frame) (r : Refs) (p : Processed) :
  status (snap f) = PLAYING ->
  In p (processAll f 0 (droneObjects (drone f r))) ->
  p_keep p = true ->
  In (p_obj p) (objects (fst (tick f r))).
Proof.
  intros Hs Hp Hk. rewrite (tick_registry f r Hs). cbn zeta.
  apply in_or_app. left. apply in_map, filter_In. split; assumption.
Qed.

Lemma tick_drops (f : Frame) (r : Refs) (p : Processed) :
  status (snap f) = PLAYING ->
  NoDup (map id (objects r)) ->
  In p (processAll f 0 (droneObjects (drone f r))) ->
  p_keep p = false ->
  (forall o, In o (flat_map p_spawns
                     (processAll f 0 (droneObjects (drone f r)))
                   ++ planned f) ->
             id o <> id (p_obj p)) ->
  ~ In (id (p_obj p)) (map id (objects (fst (tick f r)))).
Proof.
  intros Hs Hn Hp Hk Hfresh. rewrite (tick_registry f r Hs). cbn zeta.
  rewrite map_app, in_app_iff. intros [H | H].
  - rewrite map_map in H.
    revert H. apply (dropped_key_absent (fun q => id (p_obj q)));
      [| exact Hp | exact Hk].
    rewrite processAll_ids, drone_ids. exact Hn.
  - apply in_map_iff in H as (o & E & Ho). exact (Hfresh o Ho E).
Qed.

(** The drone leaves an inactive entity as it is, in its place. *)
Lemma updateAt_inactive (l : list GameObject) :
  forall (i j : nat) (o : GameObject),
    nth_error l i = Some o -> active o = false ->
    nth_error (updateAt (setActive false) j l) i = Some o.
Proof.
  induction l as [| a l IH]; intros [| i] [| j] o H Ha; cbn in *;
    try discriminate; try assumption.
  - injection H as ->. destruct o; cbn in Ha; subst. reflexivity.
  - apply IH; assumption.
Qed.

Lemma drone_inactive (f : Frame) (r : Refs) (i : nat) (o : GameObject) :
  nth_error (objects r) i = Some o -> active o = false ->
  nth_error (droneObjects (drone f r)) i = Some o.
Proof.
  intros H Ha. unfold drone.
  destruct (hasDrone (snap f) && (2000 <? now f - lastDroneFire r));
    [| exact H].
  destruct (fst (droneScan (playerPos f) (objects r))) as [j |];
    [| exact H].
  cbn [droneObjects]. apply updateAt_inactive; assumption.
Qed.

Lemma processAll_nth (f : Frame) (objs : list GameObject) :
  forall (n i : nat) (o : GameObject),
    nth_error objs i = Some o ->
    exists k, nth_error (processAll f n objs) i = Some (processObject f k o).
Proof.
  induction objs as [| a objs IH]; intros n [| i] o H; cbn in H;
    try discriminate.
  - injection H as ->. exists n. reflexivity.
  - cbn [processAll nth_error]. apply (IH _ i o H).
Qed.

(** C5 (as amended). An inactive entity is never collision-tested: the pass
    only moves it, by the frame's movement, and the drone before the pass
    leaves it as it is.  A shop portal that the pass deactivates leaves the
    registry in that frame; any other entity that becomes inactive (hit,
    collected, shot by the drone) stays in the registry, and leaves it at
    the end of the frame in which its travel-axis position exceeds
    [REMOVE_DISTANCE].  The registry at the end of a frame is made of the
    entities kept, the missiles fired and the planner's entities; with
    unique ids, no entity of a dropped one's id is left. *)
Theorem deactivated_entities (f : Frame) :
  (forall (prevZ : float) (obj : GameObject),
      active obj = false ->
      collide f prevZ obj = mkCollision obj true false [])
  /\ (forall (n : nat) (obj : GameObject),
         active obj = false ->
         let p := processObject f n obj in
         p_obj p = move f obj
         /\ active (p_obj p) = false /\ p_effects p = [] /\ p_spawns p = []
         /\ p_threat p = false
         /\ p_keep p
            = negb (gtb (at2 (position (move f obj))) REMOVE_DISTANCE))
  /\ (forall (n : nat) (obj : GameObject),
         let p := processObject f n obj in
         p_keep p
         = negb (isType (type obj) SHOP_PORTAL && active obj
                 && negb (active (p_obj p)))
           && negb (gtb (at2 (position (p_obj p))) REMOVE_DISTANCE))
  /\ (forall r : Refs,
         status (snap f) = PLAYING ->
         let ps := processAll f 0 (droneObjects (drone f r)) in
         objects (fst (tick f r))
         = map p_obj (filter p_keep ps) ++ flat_map p_spawns ps ++ planned f)
  /\ (forall (r : Refs) (p : Processed),
         status (snap f) = PLAYING ->
         In p (processAll f 0 (droneObjects (drone f r))) ->
         p_keep p = true ->
         In (p_obj p) (objects (fst (tick f r))))
  /\ (forall (r : Refs) (p : Processed),
         status (snap f) = PLAYING ->
         NoDup (map id (objects r)) ->
         In p (processAll f 0 (droneObjects (drone f r))) ->
         p_keep p = false ->
         (forall o, In o (flat_map p_spawns
                            (processAll f 0 (droneObjects (drone f r)))
                          ++ planned f) ->
                    id o <> id (p_obj p)) ->
         ~ In (id (p_obj p)) (map id (objects (fst (tick f r)))))
  /\ (forall (r : Refs) (i : nat) (o : GameObject),
         status (snap f) = PLAYING ->
         nth_error (objects r) i = Some o -> active o = false ->
         nth_error (droneObjects (drone f r)) i = Some o
         /\ (exists k,
               nth_error (processAll f 0 (droneObjects (drone f r))) i
               = Some (processObject f k o))
         /\ (gtb (at2 (position (move f o))) REMOVE_DISTANCE = false ->
             In (move f o) (objects (fst (tick f r))))).
Proof.
  assert (Hin : forall (n : nat) (obj : GameObject),
             active obj = false ->
             let p := processObject f n obj in
             p_obj p = move f obj
             /\ active (p_obj p) = false /\ p_effects p = []
             /\ p_spawns p = [] /\ p_threat p = false
             /\ p_keep p
                = negb (gtb (at2 (position (move f obj))) REMOVE_DISTANCE)).
  { intros n obj H.
    destruct (processObject_inactive f n obj H) as (E & Ee & Es & Et).
    pose proof (processObject_keep f n obj) as K.
    cbn zeta in *. rewrite E in K. rewrite E, Ee, Es, Et, K, H.
    rewrite andb_false_r. repeat split. exact H. }
  split; [apply collide_inactive |].
  split; [exact Hin |].
  split; [| split; [| split; [| split]]].
  - apply processObject_keep.
  - apply tick_registry.
  - apply tick_keeps.
  - apply tick_drops.
  - intros r i o Hs Hn Ha.
    pose proof (drone_inactive f r i o Hn Ha) as Hd.
    destruct (processAll_nth f _ 0 i o Hd) as [k Hk].
    split; [exact Hd |]. split; [exists k; exact Hk |].
    intros He. destruct (Hin k o Ha) as (E & _ & _ & _ & _ & K).
    rewrite <- E. apply tick_keeps; [exact Hs | |].
    + exact (nth_error_In _ _ Hk).
    + rewrite K, He. reflexivity.
Qed.

Lemma hitCount_app (l1 l2 : list Effect) :
  hitCount (l1 ++ l2) = (hitCount l1 + hitCount l2)%nat.
Proof. unfold hitCount. rewrite filter_app, length_app. reflexivity. Qed.

Lemma hitCount_In (l : list Effect) :
  In PlayerHit l <-> hitCount l <> 0%nat.
Proof.
  unfold hitCount. induction l as [| e l IH].
  - cbn. split; [intros [] | intros H; apply H; reflexivity].
  - destruct e; cbn [filter isPlayerHit In List.length];
      try (split;
           [ intros [E | H]; [discriminate E | apply IH, H]
           | intros H; right; apply IH, H ]).
    split; [intros _; discriminate | intros _; left; reflexivity].
Qed.

Lemma collide_hazard (f : Frame) (prevZ : float) (o : GameObject) :
  isHazard (type o) = true ->
  hitCount (c_effects (collide f prevZ o))
  = (if hits f prevZ o then 1 else 0)%nat
  /\ active (c_obj (collide f prevZ o)) = active o && negb (hits f prevZ o).
Proof.
  intros Hz. unfold collide, hits. rewrite Hz.
  destruct (type o); try discriminate Hz; cbn [isType];
    destruct (active o) eqn:Ha, (inZZone f prevZ o),
      (abs (at0 (position o) - at0 (playerPos f)) <? 0.9)%float,
      (isHit f o); cbn; rewrite ?Ha; split; reflexivity.
Qed.

Lemma magnet_hazard (f : Frame) (obj : GameObject) :
  isHazard (type obj) = true -> magnet f obj = obj.
Proof.
  intros Hz. unfold magnet.
  destruct (type obj); try discriminate Hz; cbn [isType];
    rewrite andb_false_r; reflexivity.
Qed.

(** The object that reaches the collision block, for a hazard: moved along
    the travel axis, its latch possibly set, nothing else touched. *)
Lemma processObject_hazard (f : Frame) (n : nat) (obj : GameObject) :
  isHazard (type obj) = true ->
  exists o2 : GameObject,
    type o2 = type obj /\ active o2 = active obj
    /\ position o2 = position (move f obj)
    /\ hitCount (p_effects (processObject f n obj))
       = hitCount (c_effects (collide f (at2 (position obj)) o2))
    /\ p_obj (processObject f n obj)
       = c_obj (collide f (at2 (position obj)) o2).
Proof.
  intros Hz. unfold processObject.
  rewrite (magnet_hazard f (move f obj)) by exact Hz.
  cbn [p_effects p_obj].
  destruct (alienFires (move f obj));
    [exists (setHasFired true (move f obj)) | exists (move f obj)];
    repeat split; rewrite hitCount_app; reflexivity.
Qed.

Lemma hits_spelled (f : Frame) (obj o2 : GameObject) :
  type o2 = type obj -> active o2 = active obj ->
  position o2 = position (move f obj) ->
  hits f (at2 (position obj)) o2 = true
  <-> active obj = true
      /\ (at2 (position obj) <? at2 (playerPos f) + 2)%float = true
      /\ gtb (at2 (position obj) + moveAmount f obj)%float
             (at2 (playerPos f) - 2)%float = true
      /\ (abs (at0 (position obj) - at0 (playerPos f)) <? 0.9)%float = true
      /\ (at1 (playerPos f) <? objTop obj)%float = true
      /\ gtb (at1 (playerPos f) + 1.8)%float (objBottom obj) = true.
Proof.
  intros Ht Ha Hp. unfold hits, inZZone, isHit, objTop, objBottom.
  rewrite Ht, Ha, Hp. cbn [move setPosition position at0 at1 at2].
  rewrite !andb_true_iff. tauto.
Qed.

Lemma processObject_type (f : Frame) (n : nat) (obj : GameObject) :
  type (p_obj (processObject f n obj)) = type obj.
Proof.
  unfold processObject, collide, magnet. cbn [p_obj].
  repeat match goal with
         | |- context [if ?b then _ else _] => destruct b
         end; reflexivity.
Qed.

Lemma hitsOver_inactive (frames : list (bool * Frame * nat)) :
  forall obj, active obj = false -> hitsOver frames obj = 0%nat.
Proof.
  induction frames as [| [[cleared f] n] rest IH]; intros obj H;
    [reflexivity |].
  cbn [hitsOver].
  assert (H' : active (if cleared then setActive false obj else obj) = false)
    by (destruct cleared; [reflexivity | exact H]).
  destruct (processObject_inactive f n _ H') as (E & Ee & _).
  rewrite Ee, E. cbn [hitCount filter List.length plus].
  destruct (p_keep _); [apply IH; exact H' | reflexivity].
Qed.

Lemma hitsOver_le_1 (frames : list (bool * Frame * nat)) :
  forall obj, isHazard (type obj) = true -> (hitsOver frames obj <= 1)%nat.
Proof.
  induction frames as [| [[cleared f] n] rest IH]; intros obj Hz;
    [cbn; lia |].
  cbn [hitsOver].
  set (o := if cleared then setActive false obj else obj).
  assert (Hz' : isHazard (type o) = true)
    by (unfold o; destruct cleared; exact Hz).
  destruct (processObject_hazard f n o Hz') as (o2 & Ht & Ha & Hp & Hc & Ho).
  assert (Hz2 : isHazard (type o2) = true) by (rewrite Ht; exact Hz').
  destruct (collide_hazard f (at2 (position o)) o2 Hz2) as [Hn Hact].
  rewrite Hc, Hn.
  assert (Hnext : (hitsOver rest (p_obj (processObject f n o)) <= 1)%nat)
    by (apply IH; rewrite processObject_type; exact Hz').
  destruct (hits f (at2 (position o)) o2).
  - rewrite hitsOver_inactive.
    + destruct (p_keep _); lia.
    + rewrite Ho, Hact, andb_false_r. reflexivity.
  - destruct (p_keep _); lia.
Qed.

(** The hits of a frame are the hits of the entities it visits: the drone,
    the jump alert and the render trigger register none. *)
Lemma tick_hits (f : Frame) (r : Refs) :
  status (snap f) = PLAYING ->
  hitCount (snd (tick f r))
  = hitCount (flat_map p_effects
                (processAll f 0 (droneObjects (drone f r)))).
Proof.
  intros Hs. unfold tick. rewrite Hs, loop_processAll.
  cbn [snd emitted hasChanges]. rewrite !hitCount_app.
  assert (Hd : hitCount (droneEffects (drone f r)) = 0%nat).
  { unfold drone.
    destruct (hasDrone (snap f) && (2000 <? now f - lastDroneFire r));
      [destruct (fst (droneScan (playerPos f) (objects r))) |];
      reflexivity. }
  rewrite Hd.
  match goal with
  | |- context [if ?b then [SetRenderTrigger] else []] => destruct b
  end; cbn; lia.
Qed.

(** C6. In a frame a hazard registers a hit exactly when it is active, its
    travel-axis position before and after the move straddles the window of
    two units around the player ([prevZ < playerZ + 2] and
    [newZ > playerZ - 2]), it is less than 0.9 from the player sideways and
    its vertical box overlaps the player's.  The hit is single and clears
    [active], so that over any later frames the entity registers no other
    hit, however far one frame carried it. *)
Theorem hazard_hit_once (f : Frame) (n : nat) (obj : GameObject) :
  isHazard (type obj) = true ->
  let p := processObject f n obj in
  let prevZ := at2 (position obj) in
  let newZ := (prevZ + moveAmount f obj)%float in
  let pl := playerPos f in
  (In PlayerHit (p_effects p)
   <-> active obj = true
       /\ (prevZ <? at2 pl + 2)%float = true
       /\ gtb newZ (at2 pl - 2)%float = true
       /\ (abs (at0 (position obj) - at0 pl) <? 0.9)%float = true
       /\ (at1 pl <? objTop obj)%float = true
       /\ gtb (at1 pl + 1.8)%float (objBottom obj) = true)
  /\ (In PlayerHit (p_effects p) ->
      hitCount (p_effects p) = 1%nat /\ active (p_obj p) = false)
  /\ (forall later : list (bool * Frame * nat),
         (hitsOver ((false, f, n) :: later) obj <= 1)%nat)
  /\ (forall later : list (bool * Frame * nat),
         In PlayerHit (p_effects p) ->
         hitsOver ((false, f, n) :: later) obj = 1%nat)
  /\ (forall r : Refs,
         status (snap f) = PLAYING ->
         hitCount (snd (tick f r))
         = hitCount (flat_map p_effects
                       (processAll f 0 (droneObjects (drone f r))))).
Proof.
  intros Hz. cbn zeta.
  destruct (processObject_hazard f n obj Hz) as (o2 & Ht & Ha & Hp & Hc & Ho).
  assert (Hz2 : isHazard (type o2) = true) by (rewrite Ht; exact Hz).
  destruct (collide_hazard f (at2 (position obj)) o2 Hz2) as [Hn Hact].
  pose proof (hits_spelled f obj o2 Ht Ha Hp) as Hs.
  assert (Hin : In PlayerHit (p_effects (processObject f n obj))
                <-> hits f (at2 (position obj)) o2 = true).
  { rewrite hitCount_In, Hc, Hn.
    destruct (hits f (at2 (position obj)) o2); split; congruence. }
  split; [rewrite Hin; exact Hs |]. split; [| split; [| split]].
  - intros H. apply Hin in H. rewrite Hc, Hn, Ho, Hact, H.
    split; [reflexivity | apply andb_false_r].
  - intros later. apply hitsOver_le_1. exact Hz.
  - intros later H. apply Hin in H. cbn [hitsOver].
    rewrite Hc, Hn, H, hitsOver_inactive.
    + destruct (p_keep _); reflexivity.
    + rewrite Ho, Hact, H. apply andb_false_r.
  - apply tick_hits.
Qed.

(** * Properties of the Spawn Planner's threshold *)

Lemma closeb_levels :
  forallb (fun L => closeb L false && closeb L true) (rangeZ 1 1000) = true.
Proof. vm_compute. reflexivity. Qed.

Lemma capped_levels :
  forallb (fun L => PrimFloat.Leibniz.eqb (obstacleProb L false) 0.6%float)
          (rangeZ 20 981) = true.
Proof. vm_compute. reflexivity. Qed.

Lemma baseQ_le_cap (L : Z) :
  L <= 20 -> ((20 # 100) + inject_Z L * (2 # 100) <= 6 # 10)%Q.
Proof.
  intros H. unfold Qle, Qplus, Qmult, inject_Z. cbn [Qnum Qden].
  change (Z.pos (1 * 100)) with 100. change (Z.pos (100 * 100)) with 10000.
  lia.
Qed.

Lemma cap_le_baseQ (L : Z) :
  20 <= L -> (6 # 10 <= (20 # 100) + inject_Z L * (2 # 100))%Q.
Proof.
  intros H. unfold Qle, Qplus, Qmult, inject_Z. cbn [Qnum Qden].
  change (Z.pos (1 * 100)) with 100. change (Z.pos (100 * 100)) with 10000.
  lia.
Qed.

Lemma obstacleProbQ_below (L : Z) :
  L <= 20 ->
  (obstacleProbQ L false == (20 # 100) + inject_Z L * (2 # 100))%Q.
Proof.
  intros H. unfold obstacleProbQ. apply Q.min_r, baseQ_le_cap, H.
Qed.

Lemma obstacleProbQ_capped (L : Z) :
  20 <= L -> (obstacleProbQ L false == 6 # 10)%Q.
Proof.
  intros H. unfold obstacleProbQ. apply Q.min_l, cap_le_baseQ, H.
Qed.

(** C4 (as amended). The threshold for the obstacle path is 20% plus 2
    percentage points per level: 22% at level 1, 2 points more with each
    level, capped at 60% from level 20 on, and multiplied by 0.8 when the
    luck charm is owned.  The binary64 value the code computes is within
    2^-53 of that exact value (levels 1 to 1000). *)
Theorem obstacleProb_threshold :
  obstacleProb 1 false = 0.22%float
  /\ (forall L : Z, obstacleProb L true = (obstacleProb L false * 0.8)%float)
  /\ (forall (L : Z) (luck : bool),
         1 <= L <= 1000 ->
         (Qabs (f2Q (obstacleProb L luck) - obstacleProbQ L luck)
          <= 1 # (2 ^ 53))%Q)
  /\ (forall L : Z, 20 <= L <= 1000 -> obstacleProb L false = 0.6%float)
  /\ (obstacleProbQ 1 false == 22 # 100)%Q
  /\ (forall L : Z,
         1 <= L < 20 ->
         (obstacleProbQ (L + 1) false == obstacleProbQ L false + (2 # 100))%Q)
  /\ (forall L : Z, 20 <= L -> (obstacleProbQ L false == 6 # 10)%Q)
  /\ (forall L : Z,
         (obstacleProbQ L true == obstacleProbQ L false * (8 # 10))%Q).
Proof.
  split; [vm_compute; reflexivity |].
  split; [reflexivity |].
  split; [| split; [| split; [| split; [| split]]]].
  - intros L luck H.
    pose proof closeb_levels as A. rewrite forallb_forall in A.
    specialize (A L (in_rangeZ 1 1000 L ltac:(lia))).
    apply andb_true_iff in A as [A1 A2].
    apply Qle_bool_iff. destruct luck; assumption.
  - intros L H.
    pose proof capped_levels as A. rewrite forallb_forall in A.
    apply FloatAxioms.Leibniz.eqb_spec.
    apply (A L (in_rangeZ 20 981 L ltac:(lia))).
  - vm_compute. reflexivity.
  - intros L H. rewrite !obstacleProbQ_below by lia.
    rewrite inject_Z_plus. ring.
  - apply obstacleProbQ_capped.
  - intros L. reflexivity.
Qed.

(** * Further properties of the store *)

Ltac unfold_calls :=
  unfold perform, forget, selectMode, startGame, restartGame, takeDamage,
    addScore, collectGem, collectLetter, setStatus, setDistance, buyItem,
    spendCurrency, advanceLevel, openShop, closeShop, activateImmortality,
    activateTimeWarp, triggerSonicBlast, setPlayerLane, setShowJumpAlert,
    grant, blocked, bind, get, set, ret, dispatchEvent, setTimeout, merge.

Ltac split_ifs :=
  repeat match goal with
         | |- context [if ?b then _ else _] => destruct b eqn:?
         end.

Ltac split_type type :=
  repeat match goal with
         | |- context [type === ?x] =>
             destruct (String.eqb_spec type x); [subst type; cbn |]
         end.

Ltac reflect_bools :=
  repeat match goal with
         | H : _ && _ = true |- _ => apply andb_true_iff in H; destruct H
         | H : _ || _ = false |- _ => apply orb_false_iff in H; destruct H
         | H : negb _ = true |- _ => apply negb_true_iff in H
         | H : negb _ = false |- _ => apply negb_false_iff in H
         | H : (_ <? _) = true |- _ => apply Z.ltb_lt in H
         | H : (_ <? _) = false |- _ => apply Z.ltb_ge in H
         | H : (_ <=? _) = true |- _ => apply Z.leb_le in H
         | H : (_ <=? _) = false |- _ => apply Z.leb_gt in H
         end.

Lemma removeAt_Forall {A : Type} (P : A -> Prop) (l : list A) :
  forall i, Forall P l -> Forall P (removeAt i l).
Proof.
  induction l as [| a l IH]; intros i H; destruct i; cbn; try assumption.
  - inversion H; assumption.
  - inversion H; subst. constructor; [assumption | apply IH; assumption].
Qed.

Lemma NoDup_snoc (l : list Z) (index : Z) :
  NoDup l -> includes l index = false -> NoDup (l ++ [index]).
Proof.
  intros Hn Hi.
  assert (Hnot : ~ In index l).
  { intros H. apply includes_In in H. congruence. }
  clear Hi. induction Hn as [| a l Ha Hn IH]; cbn.
  - constructor; [intros [] | constructor].
  - constructor.
    + rewrite in_app_iff. intros [H | [H | []]]; [exact (Ha H) |].
      apply Hnot. left. symmetry. exact H.
    + apply IH. intros H. apply Hnot. right. exact H.
Qed.

(** What an expiring timer does, its callback being one of the three the
    store arms. *)
Lemma expire_flag (i : nat) (w : World) :
  flagTimers w ->
  snd (expire i w) = w
  \/ exists (t : Z * Partial) (u : Update),
       nth_error (timers w) i = Some t /\ snd t = [u]
       /\ (u = upd_isImmortalityActive false
           \/ u = upd_isTimeWarpActive false
           \/ u = upd_isShopInvincible false)
       /\ snd (expire i w)
          = mkWorld (applyUpdate u (state w)) (setCalls w ++ [[u]])
                    (dispatched w) (removeAt i (timers w)).
Proof.
  intros H. unfold expire.
  destruct (nth_error (timers w) i) as [[ms p] |] eqn:E; [| left; reflexivity].
  right. pose proof (nth_error_In _ _ E) as Hin.
  unfold flagTimers in H. rewrite Forall_forall in H. specialize (H _ Hin).
  unfold flagTimer in H. cbn [snd] in H.
  exists (ms, p).
  destruct H as [-> | [-> | ->]];
    eexists; (split; [reflexivity |]); (split; [reflexivity |]);
    (split; [| reflexivity]); tauto.
Qed.

Lemma perform_flagTimers (c : Call) (w : World) :
  flagTimers w -> flagTimers (snd (perform c w)).
Proof.
  intros H. destruct c.
  20: { cbn [perform].
        destruct (expire_flag i w H) as [E | (t & u & _ & _ & _ & E)];
          rewrite E; [exact H |].
        unfold flagTimers in *. cbn [timers].
        apply removeAt_Forall. exact H. }
  all: unfold flagTimers in *; unfold_calls; cbn [fst snd];
    try split_type type; split_ifs; cbn [fst snd timers]; try exact H;
    apply Forall_app; (split; [exact H |]); constructor;
    try constructor; unfold flagTimer; cbn; tauto.
Qed.

Lemma perform_bounded (c : Call) (w : World) :
  flagTimers w -> bounded (state w) -> bounded (state (snd (perform c w))).
Proof.
  intros Hf H. unfold bounded in *. destruct c;
    try (cbn [perform];
         destruct (expire_flag i w Hf)
           as [E | (t & u & _ & _ & [-> | [-> | ->]] & E)];
         rewrite E; cbn; exact H);
    unfold_calls; cbn [fst snd];
    try split_type type; split_ifs; reflect_bools; cbn; split_ifs; lia.
Qed.

Lemma perform_lanes (c : Call) (w : World) :
  flagTimers w ->
  1 <= level (state w) /\ laneCount (state w) = lanesOf (level (state w)) ->
  1 <= level (state (snd (perform c w)))
  /\ laneCount (state (snd (perform c w)))
     = lanesOf (level (state (snd (perform c w)))).
Proof.
  intros Hf H. unfold lanesOf in *. destruct c;
    try (cbn [perform];
         destruct (expire_flag i w Hf)
           as [E | (t & u & _ & _ & [-> | [-> | ->]] & E)];
         rewrite E; cbn -[Z.add Z.mul Z.sub Z.min]; exact H);
    unfold_calls; cbn [fst snd];
    try split_type type; split_ifs; reflect_bools;
    cbn -[Z.add Z.mul Z.sub Z.min]; split_ifs; lia.
Qed.

Lemma perform_NoDup (c : Call) (w : World) :
  flagTimers w ->
  NoDup (collectedLetters (state w)) ->
  NoDup (collectedLetters (state (snd (perform c w)))).
Proof.
  intros Hf H. destruct c;
    try (cbn [perform];
         destruct (expire_flag i w Hf)
           as [E | (t & u & _ & _ & [-> | [-> | ->]] & E)];
         rewrite E; cbn; exact H);
    unfold_calls; cbn [fst snd];
    try split_type type; split_ifs; cbn; try exact H; try constructor.
  all: apply NoDup_snoc; [exact H |];
    match goal with
    | E : negb (includes _ _) = true |- _ =>
        apply negb_true_iff in E; exact E
    end.
Qed.

Lemma perform_steady (c : Call) (w : World) :
  steady w -> steady (snd (perform c w)).
Proof.
  intros (Hf & Hb & Hl & Hn). split; [| split; [| split]].
  - apply perform_flagTimers, Hf.
  - apply perform_bounded; assumption.
  - apply perform_lanes; assumption.
  - apply perform_NoDup; assumption.
Qed.

Lemma performAll_steady (cs : list Call) :
  forall w, steady w -> steady (performAll cs w).
Proof.
  unfold performAll. induction cs as [| c cs IH]; intros w H; cbn.
  - exact H.
  - apply IH, perform_steady, H.
Qed.

Lemma initialWorld_steady : steady initialWorld.
Proof.
  split; [constructor |]. split; [| split; [| constructor]].
  - unfold bounded. cbn. lia.
  - unfold lanesOf. cbn. lia.
Qed.

(** X1. Whatever is called on the store from the moment the page loads,
    lives stay between 0 and [maxLives], [maxLives] at most 10, the magnet
    level at most 5 and the shields at most 3. *)
Theorem reachable_bounded (cs : list Call) :
  bounded (state (performAll cs initialWorld)).
Proof.
  destruct (performAll_steady cs initialWorld initialWorld_steady)
    as (_ & H & _).
  exact H.
Qed.

(** X2. In every reachable state the lane count is the one of the level:
    three lanes at level 1 and two more per level up to nine, hence odd and
    between 3 and 9; the level is at least 1. *)
Theorem reachable_lanes (cs : list Call) :
  let s := state (performAll cs initialWorld) in
  1 <= level s
  /\ laneCount s = Z.min (3 + 2 * (level s - 1)) 9
  /\ 3 <= laneCount s <= 9
  /\ Z.odd (laneCount s) = true.
Proof.
  cbv zeta.
  destruct (performAll_steady cs initialWorld initialWorld_steady)
    as (_ & _ & (Hl & Hc) & _).
  unfold lanesOf in Hc. split; [exact Hl |]. split; [exact Hc |].
  split; [lia |]. rewrite Hc.
  destruct (Z.min_spec (3 + 2 * (level (state (performAll cs initialWorld)) - 1)) 9)
    as [[_ E] | [_ E]]; rewrite E; [| reflexivity].
  rewrite Z.odd_add_mul_2. reflexivity.
Qed.

(** X3. In every reachable state the collected letters are pairwise
    distinct. *)
Theorem reachable_letters_distinct (cs : list Call) :
  NoDup (collectedLetters (state (performAll cs initialWorld))).
Proof.
  destruct (performAll_steady cs initialWorld initialWorld_steady)
    as (_ & _ & _ & H).
  exact H.
Qed.

Lemma perform_mode (c : Call) (w : World) :
  flagTimers w -> withinRun c = true ->
  gameMode (state (snd (perform c w))) = gameMode (state w)
  /\ targetLevels (state (snd (perform c w))) = targetLevels (state w).
Proof.
  intros Hf Hc. destruct c; try discriminate Hc;
    try (cbn [perform];
         destruct (expire_flag i w Hf)
           as [E | (t & u & _ & _ & [-> | [-> | ->]] & E)];
         rewrite E; cbn; split; reflexivity);
    unfold_calls; cbn [fst snd];
    try split_type type; split_ifs; cbn; split; reflexivity.
Qed.

Lemma performAll_mode (cs : list Call) :
  forall w,
    flagTimers w -> Forall (fun c => withinRun c = true) cs ->
    flagTimers (performAll cs w)
    /\ gameMode (state (performAll cs w)) = gameMode (state w)
    /\ targetLevels (state (performAll cs w)) = targetLevels (state w).
Proof.
  unfold performAll. induction cs as [| c cs IH]; intros w Hf Hc; cbn.
  - repeat split. exact Hf.
  - inversion Hc as [| ? ? Hc1 Hc2]; subst.
    destruct (perform_mode c w Hf Hc1) as [E1 E2].
    destruct (IH (snd (perform c w)) (perform_flagTimers c w Hf) Hc2)
      as (F & G1 & G2).
    rewrite G1, G2, E1, E2. repeat split. exact F.
Qed.

Lemma startGame_state (t : LevelGoal) (w : World) :
  state (snd (startGame t w)) = startState (gameMode (state w)) t.
Proof.
  unfold startState, after, call, startGame, bind, get, set.
  cbn [fst snd state]. vm_compute. reflexivity.
Qed.

(** X4. Restarting brings a run back to its start: after any calls that
    neither pick a mode nor start a game, [restartGame] leaves the store in
    the state [startGame] had put it in. *)
Theorem restartGame_round_trip (s : GameState) (t : LevelGoal)
  (cs : list Call) :
  Forall (fun c => withinRun c = true) cs ->
  state (snd (restartGame (performAll cs (snd (call (startGame t) s)))))
  = after (startGame t) s.
Proof.
  intros Hc.
  destruct (performAll_mode cs (snd (call (startGame t) s))
              ltac:(constructor) Hc) as (_ & Hm & Ht).
  unfold restartGame, bind, get. cbn [fst snd].
  unfold after. rewrite !startGame_state. rewrite Hm, Ht.
  unfold call. rewrite !startGame_state. cbn [state].
  unfold startState, after, call, startGame, bind, get, set.
  cbn [fst snd state]. vm_compute. reflexivity.
Qed.








Lemma filter_removeAt {A : Type} (f : A -> bool) (l : list A) :
  forall (i : nat) (t : A),
    nth_error l i = Some t ->
    List.length (filter f l)
    = ((if f t then 1 else 0) + List.length (filter f (removeAt i l)))%nat.
Proof.
  induction l as [| a l IH]; intros [| i] t E; cbn in E; try discriminate E.
  - injection E as ->. cbn. destruct (f t); reflexivity.
  - cbn [filter removeAt]. specialize (IH i t E).
    destruct (f a); cbn [List.length]; rewrite IH; lia.
Qed.

Lemma perform_timed (c : Call) (w : World) :
  flagTimers w -> withinRun c = true -> timed w ->
  timed (snd (perform c w)).
Proof.
  intros Hf Hc [Hi Ht]. unfold timed, immortalityTimers, timeWarpTimers in *.
  destruct c; try discriminate Hc.
  17: { cbn [perform].
        destruct (expire_flag i w Hf)
          as [E | (t & u & En & Es & Hu & E)];
          rewrite E; [split; assumption |].
        cbn [timers state].
        rewrite (filter_removeAt clearsImmortality _ i t En) in Hi.
        rewrite (filter_removeAt clearsTimeWarp _ i t En) in Ht.
        assert (Ci : clearsImmortality t
                     = match u with
                       | upd_isImmortalityActive false => true
                       | _ => false
                       end)
          by (unfold clearsImmortality; rewrite Es; reflexivity).
        assert (Ct : clearsTimeWarp t
                     = match u with
                       | upd_isTimeWarpActive false => true
                       | _ => false
                       end)
          by (unfold clearsTimeWarp; rewrite Es; reflexivity).
        rewrite Ci in Hi. rewrite Ct in Ht.
        destruct Hu as [-> | [-> | ->]];
          cbn [applyUpdate isImmortalityActive isTimeWarpActive];
          destruct (isImmortalityActive (state w)),
            (isTimeWarpActive (state w)); cbn [Nat.b2n] in *; split; lia. }
  all: unfold_calls; cbn [fst snd];
    try split_type type; split_ifs; reflect_bools;
    cbn [fst snd state timers fold_left app applyUpdate isImmortalityActive
           isTimeWarpActive];
    rewrite ?filter_app, ?length_app;
    cbn [filter clearsImmortality clearsTimeWarp snd List.length];
    repeat match goal with
           | E : isImmortalityActive (state _) = _ |- _ => rewrite E in *
           | E : isTimeWarpActive (state _) = _ |- _ => rewrite E in *
           end;
    cbn [Nat.b2n] in *; try (split; lia); try discriminate.
Qed.

Lemma performAll_timed (cs : list Call) :
  Forall (fun c => withinRun c = true) cs ->
  forall w, flagTimers w -> timed w -> timed (performAll cs w).
Proof.
  unfold performAll.
  induction cs as [| c cs IH]; intros Hc w Hf Ht; cbn; [exact Ht |].
  inversion Hc as [| ? ? Hc1 Hc2]; subst.
  apply (IH Hc2).
  - apply perform_flagTimers, Hf.
  - apply perform_timed; assumption.
Qed.

(** [startGame] clears both flags and cancels no timer. *)
Lemma startGame_timers (t : LevelGoal) (w : World) :
  let started := snd (startGame t w) in
  timers started = timers w
  /\ isImmortalityActive (state started) = false
  /\ isTimeWarpActive (state started) = false.
Proof. cbv zeta. unfold startGame, bind, get, set. cbn. repeat split. Qed.

(** X6. Within a run, over any calls and timer expiries, each timed flag
    stays tied to its timer: if the immortality flag is raised exactly while
    one timer that clears it is pending, and so the time-warp flag, this
    remains so, so that a window is never left without its end and no stale
    timer cuts a later window short.  [startGame] establishes this exactly
    when it is called with no such timer pending, as the first game is: it
    clears both flags and cancels no timer.  So a game started, or
    restarted, while a window was open begins with a cleared flag and a
    stale timer pending, and the tie is broken. *)
Theorem timed_flags (w : World) (t : LevelGoal) (cs : list Call) :
  flagTimers w ->
  Forall (fun c => withinRun c = true) cs ->
  let started := snd (startGame t w) in
  (timed w -> timed (performAll cs w))
  /\ (timed started
      <-> immortalityTimers w = 0%nat /\ timeWarpTimers w = 0%nat)
  /\ (immortalityTimers w = 0%nat -> timeWarpTimers w = 0%nat ->
      timed (performAll cs started))
  /\ (timed w ->
      isImmortalityActive (state w) = true
      \/ isTimeWarpActive (state w) = true ->
      ~ timed started).
Proof.
  intros Hf Hc. cbv zeta.
  destruct (startGame_timers t w) as (Et & Ei & Ew).
  assert (Hst : timed (snd (startGame t w))
                <-> immortalityTimers w = 0%nat /\ timeWarpTimers w = 0%nat).
  { unfold timed, immortalityTimers, timeWarpTimers.
    rewrite Et, Ei, Ew. cbn [Nat.b2n]. tauto. }
  split; [| split; [exact Hst | split]].
  - apply performAll_timed; assumption.
  - intros H1 H2. apply performAll_timed; [exact Hc | | apply Hst; auto].
    unfold flagTimers. rewrite Et. exact Hf.
  - intros [Hi Hw] Hflag Hs. destruct (proj1 Hst Hs) as [H1 H2].
    rewrite H1 in Hi. rewrite H2 in Hw.
    destruct Hflag as [E | E]; rewrite E in *; discriminate.
Qed.

Lemma perform_quiet (c : Call) (w : World) :
  flagTimers w -> quiet c = true -> hasSonicBlast (state w) = true ->
  hasSonicBlast (state (snd (perform c w))) = true
  /\ lastSonicBlastTime (state (snd (perform c w)))
     = lastSonicBlastTime (state w).
Proof.
  intros Hf Hc Hs. destruct c; try discriminate Hc.
  16: { cbn [perform].
        destruct (expire_flag i w Hf)
          as [E | (t & u & _ & _ & [-> | [-> | ->]] & E)];
          rewrite E; cbn [state applyUpdate hasSonicBlast lastSonicBlastTime];
          (split; [exact Hs | reflexivity]). }
  all: unfold_calls; cbn [fst snd]; rewrite ?Hs;
    split_ifs;
    try (exfalso;
         repeat match goal with
                | H : _ = false |- _ => cbn in H; try discriminate H
                end; fail);
    cbn; split; try exact Hs; reflexivity.
Qed.

(** X7. Two sonic blasts of a run are more than 15 seconds apart: once
    [triggerSonicBlast] has succeeded at time [now1], and whatever else is
    called in the run meanwhile, it succeeds again at time [now2] exactly
    when [now2 - now1] exceeds 15000 ms. *)
Theorem sonicBlast_cooldown (w : World) (now1 now2 : Z) (cs : list Call) :
  flagTimers w ->
  fst (triggerSonicBlast now1 w) = true ->
  Forall (fun c => quiet c = true) cs ->
  fst (triggerSonicBlast now2
         (performAll cs (snd (triggerSonicBlast now1 w))))
  = (15000 <? now2 - now1).
Proof.
  intros Hf H1 Hc.
  assert (H0 : flagTimers (snd (triggerSonicBlast now1 w))
               /\ hasSonicBlast (state (snd (triggerSonicBlast now1 w))) = true
               /\ lastSonicBlastTime (state (snd (triggerSonicBlast now1 w)))
                  = now1).
  { revert H1. unfold triggerSonicBlast, bind, get, set, ret.
    cbn [fst snd]. destruct (hasSonicBlast (state w)) eqn:Es; cbn [andb];
      [| discriminate].
    destruct (SONIC_BLAST_COOLDOWN <? now1 - lastSonicBlastTime (state w));
      [| discriminate].
    intros _. cbn. rewrite Es. repeat split. exact Hf. }
  revert H0. generalize (snd (triggerSonicBlast now1 w)). clear H1 Hf w.
  unfold performAll.
  induction cs as [| c cs IH]; intros w (Hf & Hs & Hl); cbn [fold_left].
  - unfold triggerSonicBlast, bind, get, set, ret. cbn [fst snd].
    rewrite Hs, Hl. cbn [andb]. unfold SONIC_BLAST_COOLDOWN.
    destruct (15000 <? now2 - now1); reflexivity.
  - apply Forall_cons_iff in Hc as [Hc1 Hc2].
    apply (IH Hc2). destruct (perform_quiet c w Hf Hc1 Hs) as [Hs' Hl'].
    split; [apply perform_flagTimers, Hf |]. split; [exact Hs' |].
    rewrite Hl'. exact Hl.
Qed.

(** X8. A purchase that fails makes no [set] call and leaves the store as it
    was; one that succeeds for an item other than [EXCHANGE] was affordable
    and debits exactly its cost; and neither [buyItem] nor [spendCurrency]
    ever takes the currency below zero. *)
Theorem purchase_outcome (s : GameState) (type : string) (cost : Z) :
  (result (buyItem type cost) s = false ->
   snd (call (buyItem type cost) s) = mkWorld s [] [] [])
  /\ (result (spendCurrency cost) s = false ->
      snd (call (spendCurrency cost) s) = mkWorld s [] [] [])
  /\ (result (buyItem type cost) s = true -> type <> "EXCHANGE" ->
      cost <= currency s
      /\ currency (after (buyItem type cost) s) = currency s - cost)
  /\ (0 <= currency s ->
      0 <= currency (after (buyItem type cost) s)
      /\ 0 <= currency (after (spendCurrency cost) s)).
Proof.
  split; [| split; [| split]].
  - unfold_store. unfold blocked. split_ifs; cbn; intros; try discriminate;
      reflexivity.
  - unfold_store. split_ifs; cbn; intros; try discriminate; reflexivity.
  - intros Hr Hx. apply String.eqb_neq in Hx. revert Hr.
    unfold_store. rewrite Hx.
    destruct (blocked s type); cbn; [discriminate |].
    destruct (Z.leb_spec cost (currency s)); cbn; [| discriminate].
    intros _. split; [assumption |].
    split_type type; split_ifs; reflexivity.
  - intros H. split.
    + unfold_store. split_type type; split_ifs; reflect_bools; cbn; lia.
    + unfold_store. split_ifs; reflect_bools; cbn; lia.
Qed.

(** X9. The counted items grant exactly one unit when they are sold: a
    [SHIELD] or [MAGNET] purchase that succeeds raises its counter by one
    and stays within the cap, [HEAL] restores one life without exceeding
    [maxLives], and [MAX_LIFE] raises both [maxLives] and the lives by
    one; the [Math.min] clamps of the grants never cut anything. *)
Theorem counted_items_grant_one (s : GameState) (cost : Z) :
  (result (buyItem "SHIELD" cost) s = true ->
   shieldCount (after (buyItem "SHIELD" cost) s) = shieldCount s + 1
   /\ shieldCount s + 1 <= 3)
  /\ (result (buyItem "MAGNET" cost) s = true ->
      magnetLevel (after (buyItem "MAGNET" cost) s) = magnetLevel s + 1
      /\ magnetLevel s + 1 <= 5)
  /\ (result (buyItem "HEAL" cost) s = true ->
      lives (after (buyItem "HEAL" cost) s) = lives s + 1
      /\ lives s + 1 <= maxLives s)
  /\ (result (buyItem "MAX_LIFE" cost) s = true ->
      maxLives (after (buyItem "MAX_LIFE" cost) s) = maxLives s + 1
      /\ lives (after (buyItem "MAX_LIFE" cost) s) = lives s + 1
      /\ maxLives s + 1 <= 10).
Proof.
  split; [| split; [| split]]; unfold_store; unfold blocked; cbn;
    split_ifs; reflect_bools; cbn; intros; try discriminate; lia.
Qed.

(** X10. In the shop and for the grace period after it damage is ignored:
    [takeDamage] does nothing once [openShop] was called, nor after
    [closeShop] as long as the timer that [closeShop] armed (its only one,
    of 3000 ms) is pending; when that timer expires the run is PLAYING with
    the invincibility cleared. *)
Theorem shop_grace (s : GameState) :
  let shop := snd (call openShop s) in
  let back := snd (closeShop shop) in
  status (state shop) = SHOP
  /\ takeDamage shop = (tt, shop)
  /\ status (state back) = PLAYING
  /\ takeDamage back = (tt, back)
  /\ timers back = [(3000, [upd_isShopInvincible false])]
  /\ isShopInvincible (state (snd (expire 0 back))) = false
  /\ status (state (snd (expire 0 back))) = PLAYING
  /\ timers (snd (expire 0 back)) = [].
Proof.
  cbv zeta. unfold call, openShop, closeShop, expire, takeDamage, bind, get,
    set, setTimeout, ret, merge.
  cbn. rewrite !orb_true_r. repeat split; reflexivity.
Qed.

(** * The level manager outside the frame loop *)

Lemma blast_fold (objs done : list GameObject) (fx : list Effect)
  (b : bool) :
  fold_left blastStep objs (done, fx, b)
  = (done ++ map (fun o => if inBlast o then setActive false o else o) objs,
     fx ++ map (fun o => ParticleBurst (position o) "#ff8800" (Some 2%float))
               (filter inBlast objs),
     b || existsb inBlast objs).
Proof.
  revert done fx b. induction objs as [| o objs IH]; intros done fx b.
  - cbn. now rewrite !app_nil_r, orb_false_r.
  - cbn [fold_left blastStep map filter existsb]. destruct (inBlast o).
    + rewrite IH. cbn [map app]. rewrite <- !app_assoc. cbn [app orb].
      now rewrite orb_true_r.
    + rewrite IH. now rewrite <- !app_assoc.
Qed.

Lemma inBlast_setActive (o : GameObject) : inBlast (setActive false o) = false.
Proof. reflexivity. Qed.

(** X11. The sonic blast clears what is in its range and touches nothing
    else: the registry keeps its entities in order, an entity that was not
    an active hazard strictly between 150 units ahead of the origin and 5
    units behind it is left as it was, every other one only loses its
    [active] flag, one burst is dispatched for each of them, and the render
    trigger is bumped when there was one.  Afterwards no active hazard is
    left in the range, so a second blast does nothing. *)
Theorem sonic_blast_clears (objs : list GameObject) :
  let objs' := fst (handleSonicBlast objs) in
  Forall2 (fun o o' =>
             o' = (if inBlast o then setActive false o else o))
          objs objs'
  /\ Forall (fun o' => inBlast o' = false) objs'
  /\ snd (handleSonicBlast objs)
     = map (fun o => ParticleBurst (position o) "#ff8800" (Some 2%float))
           (filter inBlast objs)
       ++ (if existsb inBlast objs then [SetRenderTrigger] else [])
  /\ handleSonicBlast objs' = (objs', []).
Proof.
  cbv zeta. unfold handleSonicBlast. rewrite !blast_fold. cbn [fst snd app].
  assert (Hclear :
    Forall (fun o' => inBlast o' = false)
           (map (fun o => if inBlast o then setActive false o else o) objs)).
  { apply Forall_forall. intros o' Hin. apply in_map_iff in Hin.
    destruct Hin as [o [<- _]]. destruct (inBlast o) eqn:E;
      [apply inBlast_setActive | exact E]. }
  split; [| split; [exact Hclear | split; [reflexivity |]]].
  - induction objs; cbn; constructor; auto.
    apply IHobjs. now inversion Hclear.
  - cbn [app].
    set (l := map _ objs) in *. clearbody l.
    induction l as [| a l IH]; [reflexivity |].
    inversion Hclear as [| ? ? Ha Hl]; subst.
    specialize (IH Hl). cbn [map filter existsb]. rewrite Ha. cbn [orb].
    injection IH as IH1 IH2. f_equal.
    + f_equal. exact IH1.
    + exact IH2.
Qed.

(** ** The order of the doubles *)

Lemma SFltb_trans (a b c : spec_float) :
  SFltb a b = true -> SFltb b c = true -> SFltb a c = true.
Proof.
  unfold SFltb, SFcompare.
  destruct a as [sa | sa | | sa ma ea], b as [sb | sb | | sb mb eb],
    c as [sc | sc | | sc mc ec];
    try destruct sa; try destruct sb; try destruct sc;
    try discriminate; try reflexivity; intros Hab Hbc.
  all: change (Pos.compare_cont Eq ma mb) with (Pos.compare ma mb) in Hab;
    change (Pos.compare_cont Eq mb mc) with (Pos.compare mb mc) in Hbc;
    change (Pos.compare_cont Eq ma mc) with (Pos.compare ma mc);
    destruct (Z.compare_spec ea eb), (Z.compare_spec eb ec),
      (Z.compare_spec ea ec); try discriminate; try lia; try reflexivity;
    destruct (Pos.compare_spec ma mb), (Pos.compare_spec mb mc),
      (Pos.compare_spec ma mc); try discriminate; try lia; reflexivity.
Qed.

Lemma SFltb_irrefl (a : spec_float) : SFltb a a = false.
Proof.
  unfold SFltb, SFcompare.
  destruct a as [sa | sa | | sa ma ea]; try destruct sa; try reflexivity;
    rewrite Z.compare_refl;
    change (Pos.compare_cont Eq ma ma) with (Pos.compare ma ma);
    rewrite Pos.compare_refl; reflexivity.
Qed.

Lemma float_ltb_trans (a b c : float) :
  (a <? b)%float = true -> (b <? c)%float = true -> (a <? c)%float = true.
Proof. rewrite !ltb_spec. apply SFltb_trans. Qed.

Lemma float_ltb_irrefl (a : float) : (a <? a)%float = false.
Proof. rewrite ltb_spec. apply SFltb_irrefl. Qed.

(** ** The drone *)

Lemma droneScan_fold (playerPos : Vec3) (objs pre : list GameObject)
  (targetObj : option nat) (minDist : float) :
  scanned playerPos pre targetObj minDist ->
  let '(targetObj', minDist') :=
    fst (fold_left
      (fun (acc : (option nat * float) * nat) (obj : GameObject) =>
         let '((targetObj, minDist), i) := acc in
         let z := at2 (position obj) in
         if active obj && isHazard (type obj)
            && (z <? at2 playerPos)%float
            && gtb z (at2 playerPos - 40)%float
         then
           let d := abs (z - at2 playerPos)%float in
           if (d <? minDist)%float then ((Some i, d), S i)
           else ((targetObj, minDist), S i)
         else ((targetObj, minDist), S i))
      objs ((targetObj, minDist), List.length pre)) in
  scanned playerPos (pre ++ objs) targetObj' minDist'.
Proof.
  revert pre targetObj minDist.
  induction objs as [| o objs IH]; intros pre targetObj minDist [Hall Htgt].
  - cbn. rewrite app_nil_r. now split.
  - cbn [fold_left].
    fold (eligible playerPos o). fold (droneDist playerPos o).
    replace (pre ++ o :: objs) with ((pre ++ [o]) ++ objs)
      by now rewrite <- app_assoc.
    replace (S (List.length pre)) with (List.length (pre ++ [o]))
      by (rewrite length_app; cbn; lia).
    destruct (eligible playerPos o) eqn:El.
    + destruct (droneDist playerPos o <? minDist)%float eqn:Hd.
      * apply IH. split.
        -- apply Forall_app. split.
           ++ eapply Forall_impl; [| exact Hall]. cbv beta. intros a Ha Ea.
              specialize (Ha Ea).
              destruct (droneDist playerPos a <? droneDist playerPos o)%float
                eqn:Hlt; [| reflexivity].
              rewrite (float_ltb_trans _ _ _ Hlt Hd) in Ha. discriminate.
           ++ constructor; [| constructor]. intros _.
              apply float_ltb_irrefl.
        -- exists o. split; [| split; [exact El | split; [reflexivity |]]].
           ++ rewrite nth_error_app2 by lia. now rewrite Nat.sub_diag.
           ++ destruct targetObj as [i |].
              ** destruct Htgt as [t [_ [_ [-> Ht]]]].
                 exact (float_ltb_trans _ _ _ Hd Ht).
              ** now rewrite <- Htgt.
      * apply IH. split.
        -- apply Forall_app. split; [exact Hall |].
           constructor; [| constructor]. intros _. exact Hd.
        -- destruct targetObj as [i |]; [| exact Htgt].
           destruct Htgt as [t [Hn Ht]]. exists t. split; [| exact Ht].
           rewrite nth_error_app1; [exact Hn |].
           apply nth_error_Some. congruence.
    + apply IH. split.
      * apply Forall_app. split; [exact Hall |].
        constructor; [| constructor]. congruence.
      * destruct targetObj as [i |]; [| exact Htgt].
        destruct Htgt as [t [Hn Ht]]. exists t. split; [| exact Ht].
        rewrite nth_error_app1; [exact Hn |].
        apply nth_error_Some. congruence.
Qed.

Lemma updateAt_split {A : Type} (g : A -> A) (i : nat) (l : list A) (t : A) :
  nth_error l i = Some t ->
  exists l1 l2, l = l1 ++ t :: l2 /\ updateAt g i l = l1 ++ g t :: l2
                /\ List.length l1 = i.
Proof.
  revert i. induction l as [| a l IH]; intros [| i] H; try discriminate.
  - injection H as ->. now exists [], l.
  - destruct (IH i H) as [l1 [l2 [E1 [E2 E3]]]].
    exists (a :: l1), l2. cbn. now rewrite <- E1, E2, E3.
Qed.

(** X13. The drone shoots the nearest hazard it may shoot, and only that:
    when it fires, the owner has the drone and more than 2000 ms have
    passed since its last shot, exactly one entity of the registry loses
    its [active] flag and nothing else changes, that entity was an active
    hazard ahead of the player and less than 40 units away, no other such
    hazard is strictly nearer to the player, the shot is timed at [now] and
    one burst is dispatched at the target.  When it does not fire the
    registry, the time of the last shot and the effects are untouched; and
    with the drone ready that happens only when no hazard it may shoot is
    nearer than 999 units. *)
Theorem drone_shoots_nearest (f : Frame) (r : Refs) :
  let d := drone f r in
  let pl := playerPos f in
  (droneChanged d = true ->
   hasDrone (snap f) = true
   /\ 2000 < now f - lastDroneFire r
   /\ droneLastFire d = now f
   /\ exists l1 t l2,
        objects r = l1 ++ t :: l2
        /\ droneObjects d = l1 ++ setActive false t :: l2
        /\ eligible pl t = true
        /\ Forall (fun o => eligible pl o = true ->
                            (droneDist pl o <? droneDist pl t)%float = false)
                  (objects r)
        /\ droneEffects d
           = [ParticleBurst (position t) "#00ccff" (Some 0.5%float)])
  /\ (droneChanged d = false ->
      droneObjects d = objects r
      /\ droneLastFire d = lastDroneFire r
      /\ droneEffects d = []
      /\ (hasDrone (snap f) = true -> 2000 < now f - lastDroneFire r ->
          Forall (fun o => eligible pl o = true ->
                           (droneDist pl o <? 999)%float = false)
                 (objects r))).
Proof.
  cbv zeta. unfold drone.
  pose proof (droneScan_fold (playerPos f) (objects r) [] None 999%float)
    as Hscan.
  cbn [List.length app] in Hscan. fold (droneScan (playerPos f) (objects r))
    in Hscan.
  destruct (droneScan (playerPos f) (objects r)) as [tgt m].
  assert (Hs : scanned (playerPos f) (objects r) tgt m).
  { apply Hscan. split; [constructor | reflexivity]. }
  clear Hscan. destruct Hs as [Hall Htgt]. cbn [fst].
  destruct (hasDrone (snap f)); cbn [andb].
  2: { split; [discriminate | intros _]. repeat split; discriminate. }
  destruct (Z.ltb_spec 2000 (now f - lastDroneFire r)) as [Hn | Hn].
  2: { split; [discriminate | intros _]. repeat split. intros _ H. lia. }
  destruct tgt as [i |].
  - cbn. split; [intros _ | discriminate].
    destruct Htgt as [t [Hi [El [-> _]]]].
    split; [reflexivity | split; [exact Hn | split; [reflexivity |]]].
    destruct (updateAt_split (setActive false) i (objects r) t Hi)
      as [l1 [l2 [E1 [E2 E3]]]].
    exists l1, t, l2. repeat split; try assumption.
    now rewrite (nth_error_nth _ _ _ Hi).
  - cbn. split; [discriminate | intros _]. repeat split.
    intros _ _. now rewrite Htgt in Hall.
Qed.

(** ** The sonic blast button *)

(** X12. The blast button of the HUD and the cooldown that its interval
    callback computes, both taken at the same [Date.now()]: a press that
    fires finds that cooldown at 0, dispatches one ['trigger-sonic-blast']
    event and puts the cooldown back to 15000 ms; a press that does not fire
    changes nothing at all.  With the ability owned the press fires exactly
    when more than 15000 ms have passed since the last blast, while the
    cooldown is 0 from 15000 ms on: at exactly 15000 ms the HUD computes a
    cooldown of 0 and the press is still refused. *)
Theorem HUD_sonic_blast_button (now : Z) (w : World) :
  let pressed := snd (HUD_handleSonicBlast now w) in
  let diff := now - lastSonicBlastTime (state w) in
  (fst (triggerSonicBlast now w) = true ->
   sonicCooldown now (state w) = 0
   /\ dispatched pressed = dispatched w ++ ["trigger-sonic-blast"]
   /\ lastSonicBlastTime (state pressed) = now
   /\ sonicCooldown now (state pressed) = 15000)
  /\ (fst (triggerSonicBlast now w) = false -> pressed = w)
  /\ (hasSonicBlast (state w) = true ->
      (fst (triggerSonicBlast now w) = true <-> 15000 < diff)
      /\ (sonicCooldown now (state w) = 0 <-> 15000 <= diff)).
Proof.
  cbv zeta.
  unfold HUD_handleSonicBlast, triggerSonicBlast, sonicCooldown, bind, get,
    set, ret, dispatchEvent, SONIC_BLAST_COOLDOWN.
  destruct (hasSonicBlast (state w)); cbn [andb].
  - destruct (Z.ltb_spec 15000 (now - lastSonicBlastTime (state w)));
      cbn [fst snd state dispatched merge fold_left applyUpdate
           lastSonicBlastTime].
    + repeat split; try discriminate; intros; try reflexivity; lia.
    + repeat split; try discriminate; intros; lia.
  - cbn. repeat split; discriminate.
Qed.

(** ** Resets and transitions *)

Lemma far_portal (z : float) :
  gtb z (-80)%float = true -> ((-100) <? z)%float = true.
Proof.
  intros H. apply (float_ltb_trans _ (-80)%float); [| exact H].
  vm_compute. reflexivity.
Qed.

(** X14. A level-up in a running game puts one shop portal 100 units
    ahead: the registry keeps, in order, the entities less than 80 units
    ahead and drops the others, the portal is appended, active, on the
    centre line, strictly farther than every entity kept; the distance
    travelled is not touched, the render trigger is bumped and no store
    operation is called.  The effect records the status and level it saw,
    so that running it again for the same status and level adds no second
    portal. *)
Theorem level_up_portal (pf : Platform) (level : Z) (id id' : string)
  (m : Manager) :
  prevStatus m <> GAME_OVER -> prevStatus m <> VICTORY ->
  level <> prevLevel m -> 1 < level ->
  let '(m', calls, render) := onTransition pf PLAYING level id m in
  objects (refs m')
  = filter (fun o => gtb (at2 (position o)) (-80)) (objects (refs m))
    ++ [shopPortal id]
  /\ Forall (fun o => ((-100) <? at2 (position o))%float = true
                      /\ In o (objects (refs m)))
            (filter (fun o => gtb (at2 (position o)) (-80))
                    (objects (refs m)))
  /\ distanceTraveled (refs m') = distanceTraveled (refs m)
  /\ calls = [] /\ render = true
  /\ onTransition pf PLAYING level id' m' = (m', [], false).
Proof.
  intros Hg Hv Hl H1. unfold onTransition.
  cbn [GameStatus_eqb andb orb].
  assert (Eg : GameStatus_eqb (prevStatus m) GAME_OVER = false)
    by (destruct (prevStatus m); try reflexivity; congruence).
  assert (Ev : GameStatus_eqb (prevStatus m) VICTORY = false)
    by (destruct (prevStatus m); try reflexivity; congruence).
  rewrite Eg, Ev. cbn [orb].
  destruct (Z.eqb_spec level (prevLevel m)) as [E | _]; [contradiction |].
  destruct (Z.ltb_spec 1 level) as [_ | ?]; [| lia].
  cbn [negb andb refs objects distanceTraveled prevStatus prevLevel
       GameStatus_eqb orb].
  rewrite Z.eqb_refl. cbn [negb andb].
  repeat split.
  apply Forall_forall. intros o Ho. apply filter_In in Ho as [Hin Hz].
  split; [apply far_portal; exact Hz | exact Hin].
Qed.

(** X15. Completing the word opens the way to the shop: when the sixth
    letter is collected in a game that goes on (endless, or below its
    target level), the store raises the level, and the level manager, which
    last saw the game PLAYING at the old level, answers the change with a
    shop portal in the registry. *)
Theorem word_completed_opens_portal (pf : Platform) (s : GameState)
  (index : Z) (id : string) (m : Manager) :
  ~ In index (collectedLetters s) ->
  List.length (collectedLetters s) = 5%nat ->
  continues s ->
  1 <= level s ->
  prevStatus m = PLAYING -> prevLevel m = level s ->
  let s' := after (collectLetter index) s in
  let '(m', calls, render) := onTransition pf (status s') (level s') id m in
  status s' = PLAYING /\ level s' = level s + 1
  /\ collectedLetters s' = []
  /\ In (shopPortal id) (objects (refs m'))
  /\ render = true.
Proof.
  intros Hn H5 Hc H1 Hp Hl. cbv zeta.
  rewrite (collectLetter_advance s index Hn H5 Hc).
  unfold after, call, advanceLevel, withLetter, bind, get, set, ret.
  cbn [fst snd state merge fold_left applyUpdate status level
       collectedLetters].
  unfold onTransition. rewrite Hp, Hl.
  cbn [GameStatus_eqb andb orb].
  destruct (Z.eqb_spec (level s + 1) (level s)) as [E | _]; [lia |].
  destruct (Z.ltb_spec 1 (level s + 1)) as [_ | ?]; [| lia].
  cbn [negb andb refs objects].
  repeat split. apply in_or_app. right. left. reflexivity.
Qed.

(** ** Aliens and their missiles *)

Ltac split_all_ifs :=
  repeat match goal with
         | |- context [if ?b then _ else _] => destruct b
         end.

Lemma magnet_hasFired (f : Frame) (obj : GameObject) :
  hasFired (magnet f obj) = hasFired obj.
Proof. unfold magnet. split_all_ifs; reflexivity. Qed.

Lemma magnet_active (f : Frame) (obj : GameObject) :
  active (magnet f obj) = active obj.
Proof. unfold magnet. split_all_ifs; reflexivity. Qed.

Lemma magnet_type (f : Frame) (obj : GameObject) :
  type (magnet f obj) = type obj.
Proof. unfold magnet. split_all_ifs; reflexivity. Qed.

Lemma magnet_alien (f : Frame) (obj : GameObject) :
  isType (type obj) ALIEN = true -> magnet f obj = obj.
Proof.
  intros H. unfold magnet. destruct (type obj); try discriminate.
  cbn [isType]. now rewrite andb_false_r.
Qed.

Lemma collide_hasFired (f : Frame) (prevZ : float) (obj : GameObject) :
  hasFired (c_obj (collide f prevZ obj)) = hasFired obj.
Proof. unfold collide. split_all_ifs; reflexivity. Qed.

Lemma collide_active (f : Frame) (prevZ : float) (obj : GameObject) :
  active (c_obj (collide f prevZ obj)) = true -> active obj = true.
Proof.
  unfold collide. destruct (active obj) eqn:E; [reflexivity |].
  cbn. intros H. congruence.
Qed.

(** Whether the pass over [obj] fires a missile. *)
Lemma alienFires_moved (f : Frame) (obj : GameObject) :
  alienFires (magnet f (move f obj))
  = isType (type obj) ALIEN && active obj && negb (hasFired obj)
    && gtb (at2 (position obj) + dist f)%float (-90)%float.
Proof.
  unfold alienFires. rewrite magnet_type, magnet_active, magnet_hasFired.
  change (type (move f obj)) with (type obj).
  change (active (move f obj)) with (active obj).
  change (hasFired (move f obj)) with (hasFired obj).
  destruct (isType (type obj) ALIEN) eqn:E; [| reflexivity].
  rewrite magnet_alien by exact E.
  unfold move, moveAmount. destruct (type obj); try discriminate.
  reflexivity.
Qed.

Lemma processObject_fires (f : Frame) (n : nat) (obj : GameObject) :
  let p := processObject f n obj in
  let fires :=
    isType (type obj) ALIEN && active obj && negb (hasFired obj)
    && gtb (at2 (position obj) + dist f)%float (-90)%float in
  p_spawns p
  = (if fires
     then [ mkGameObject (uuidv4 f n) MISSILE
              (vec3 (at0 (position obj)) 1.0
                    (at2 (position obj) + dist f + 2)%float)
              true (Some "#ff0000") None None None false ]
     else [])
  /\ hasFired (p_obj p) = hasFired obj || fires.
Proof.
  cbv zeta. unfold processObject. cbn [p_spawns p_obj].
  rewrite collide_hasFired, alienFires_moved.
  destruct (isType (type obj) ALIEN) eqn:E.
  2: { cbn [andb]. rewrite magnet_hasFired, orb_false_r. now split. }
  rewrite (magnet_alien f (move f obj)) by exact E. cbn [andb].
  destruct (active obj && negb (hasFired obj)
            && gtb (at2 (position obj) + dist f)%float (-90)%float).
  - split; [| now rewrite orb_true_r].
    unfold missileOf, move, moveAmount.
    destruct (type obj); try discriminate. reflexivity.
  - now rewrite orb_false_r.
Qed.

Lemma missilesOver_fired (frames : list (bool * Frame * nat)) :
  forall obj, hasFired obj = true -> missilesOver frames obj = 0%nat.
Proof.
  induction frames as [| [[cleared f] n] rest IH]; intros obj H;
    [reflexivity |].
  cbn [missilesOver].
  set (o := if cleared then setActive false obj else obj).
  assert (Ho : hasFired o = true) by (unfold o; destruct cleared; exact H).
  destruct (processObject_fires f n o) as [Es Ef].
  rewrite Ho in Es, Ef. rewrite !andb_false_r in Es. cbn [negb andb] in Es.
  rewrite Es. cbn [List.length plus].
  destruct (p_keep _); [| reflexivity]. apply IH. rewrite Ef. reflexivity.
Qed.

(** X16. An alien fires once: the pass over an entity pushes a missile
    exactly when the entity is an active alien that has not fired and whose
    position after the frame's move is beyond -90; the missile is active, in
    the alien's lane at height 1.0, two units nearer than the alien, and the
    alien is marked as having fired.  The mark is never cleared, so over any
    sequence of frames, whatever happens to the entity between them, it
    fires at most one missile. *)
Theorem alien_fires_once (f : Frame) (n : nat) (obj : GameObject) :
  let p := processObject f n obj in
  let fires :=
    isType (type obj) ALIEN && active obj && negb (hasFired obj)
    && gtb (at2 (position obj) + dist f)%float (-90)%float in
  p_spawns p
  = (if fires
     then [ mkGameObject (uuidv4 f n) MISSILE
              (vec3 (at0 (position obj)) 1.0
                    (at2 (position obj) + dist f + 2)%float)
              true (Some "#ff0000") None None None false ]
     else [])
  /\ hasFired (p_obj p) = hasFired obj || fires
  /\ forall frames, (missilesOver frames obj <= 1)%nat.
Proof.
  cbv zeta. destruct (processObject_fires f n obj) as [Es Ef].
  split; [exact Es | split; [exact Ef |]].
  clear. intros frames. revert obj.
  induction frames as [| [[cleared f] n] rest IH]; intros obj;
    [cbn; lia |].
  cbn [missilesOver].
  set (o := if cleared then setActive false obj else obj).
  destruct (processObject_fires f n o) as [Es Ef].
  set (fires := isType (type o) ALIEN && active o && negb (hasFired o)
                && gtb (at2 (position o) + dist f)%float (-90)%float) in *.
  rewrite Es. destruct fires.
  - rewrite missilesOver_fired
      by (rewrite Ef; apply orb_true_r).
    cbn [List.length plus]. destruct (p_keep _); lia.
  - cbn [List.length plus]. destruct (p_keep _); [apply IH | lia].
Qed.

(** ** What a frame does to the registry *)

Lemma updateAt_In {A : Type} (g : A -> A) (i : nat) (l : list A) (a : A) :
  In a (updateAt g i l) -> exists a0, In a0 l /\ (a = a0 \/ a = g a0).
Proof.
  revert i. induction l as [| b l IH]; intros [| i] H; cbn in H;
    try contradiction.
  - destruct H as [<- | H]; [exists b | exists a]; cbn; auto.
  - destruct H as [<- | H]; [exists b; cbn; auto |].
    destruct (IH i H) as [a0 [Hin Ha]]. exists a0. cbn. auto.
Qed.

Lemma drone_In (f : Frame) (r : Refs) (o : GameObject) :
  In o (droneObjects (drone f r)) ->
  exists o0, In o0 (objects r) /\ (o = o0 \/ o = setActive false o0).
Proof.
  unfold drone.
  destruct (hasDrone (snap f) && (2000 <? now f - lastDroneFire r)).
  - destruct (fst (droneScan (playerPos f) (objects r))) as [i |];
      cbn [droneObjects].
    + apply updateAt_In.
    + intros H. exists o. auto.
  - cbn [droneObjects]. intros H. exists o. auto.
Qed.

Lemma processAll_In (f : Frame) (objs : list GameObject) (p : Processed) :
  forall n, In p (processAll f n objs) ->
            exists k o, In o objs /\ p = processObject f k o.
Proof.
  induction objs as [| a objs IH]; intros n H; cbn [processAll] in H;
    [contradiction |].
  destruct H as [<- | H].
  - exists n, a. cbn. auto.
  - destruct (IH _ H) as [k [o [Hin E]]]. exists k, o. cbn. auto.
Qed.

Lemma processObject_active (f : Frame) (n : nat) (obj : GameObject) :
  active (p_obj (processObject f n obj)) = true -> active obj = true.
Proof.
  unfold processObject. cbn [p_obj]. intros H.
  apply collide_active in H.
  destruct (alienFires _) in H; cbn [active setHasFired] in H;
    rewrite magnet_active in H; exact H.
Qed.

(** X17. A frame never brings an entity back nor changes what it is: every
    entity of the registry after a frame is either an entity that was there
    before, with the same id and type, inactive if it was inactive and
    marked as fired if it was; or a missile just fired, active, in the lane
    of an alien that was active in the registry; or an entity of the Spawn
    Planner. *)
Theorem frame_never_revives (f : Frame) (r : Refs) :
  Forall
    (fun o' =>
       (exists o, In o (objects r)
                  /\ id o' = id o /\ type o' = type o
                  /\ (active o' = true -> active o = true)
                  /\ (hasFired o = true -> hasFired o' = true))
       \/ (type o' = MISSILE /\ active o' = true
           /\ exists a, In a (objects r) /\ type a = ALIEN
                        /\ active a = true
                        /\ at0 (position o') = at0 (position a))
       \/ In o' (planned f))
    (objects (fst (tick f r))).
Proof.
  apply Forall_forall. intros o' Hin.
  destruct (status (snap f)) eqn:Hs;
    try solve [unfold tick in Hin; rewrite Hs in Hin; left; exists o';
               repeat split; auto].
  rewrite tick_registry in Hin by exact Hs.
  apply in_app_or in Hin as [Hin | Hin];
    [| apply in_app_or in Hin as [Hin | Hin]].
  - left. apply in_map_iff in Hin as [p [<- Hp]].
    apply filter_In in Hp as [Hp _].
    apply processAll_In in Hp as [k [o [Ho ->]]].
    apply drone_In in Ho as [o0 [Ho0 Ho]].
    exists o0. split; [exact Ho0 |].
    rewrite processObject_id, processObject_type.
    destruct (processObject_fires f k o) as [_ Ef].
    split; [| split; [| split]].
    + destruct Ho as [-> | ->]; reflexivity.
    + destruct Ho as [-> | ->]; reflexivity.
    + intros Ha. apply processObject_active in Ha.
      destruct Ho as [-> | ->]; [exact Ha | discriminate].
    + intros Hf. rewrite Ef.
      destruct Ho as [-> | ->]; cbn [hasFired setActive]; rewrite Hf;
        reflexivity.
  - right. left. apply in_flat_map in Hin as [p [Hp Hin]].
    apply processAll_In in Hp as [k [o [Ho ->]]].
    destruct (processObject_fires f k o) as [Es _]. rewrite Es in Hin.
    destruct (isType (type o) ALIEN) eqn:Et; [| contradiction].
    destruct (active o) eqn:Ea; [| contradiction].
    cbn [andb] in Hin.
    destruct (negb (hasFired o) && _); [| contradiction].
    destruct Hin as [<- | []]. cbn [type active position at0].
    split; [reflexivity | split; [reflexivity |]].
    apply drone_In in Ho as [o0 [Ho0 Ho]]. exists o0.
    destruct Ho as [-> | ->]; [| discriminate].
    repeat split; try assumption.
    destruct (type o0); try discriminate. reflexivity.
  - right. right. exact Hin.
Qed.

Lemma NoDup_map_filter {A B : Type} (g : A -> B) (k : A -> bool)
  (l : list A) (rest : list B) :
  NoDup (map g l ++ rest) -> NoDup (map g (filter k l) ++ rest).
Proof.
  induction l as [| a l IH]; intros H; [exact H |].
  cbn [map app] in H. inversion H as [| ? ? Hn Hd]; subst.
  cbn [filter]. destruct (k a); [| exact (IH Hd)].
  cbn [map app]. constructor; [| exact (IH Hd)].
  intros Hin. apply Hn. apply in_app_or in Hin as [Hin | Hin].
  - apply in_or_app. left. apply in_map_iff in Hin as [x [E Hx]].
    apply filter_In in Hx as [Hx _]. apply in_map_iff. eauto.
  - apply in_or_app. now right.
Qed.

Lemma processAll_spawn_ids (f : Frame) (objs : list GameObject) :
  forall n,
    map id (flat_map p_spawns (processAll f n objs))
    = map (uuidv4 f)
          (seq n (List.length (flat_map p_spawns (processAll f n objs)))).
Proof.
  induction objs as [| o objs IH]; intros n; [reflexivity |].
  cbn [processAll flat_map]. rewrite map_app, length_app, seq_app, map_app.
  destruct (processObject_fires f n o) as [Es _]. rewrite Es.
  destruct (_ && _).
  - cbn [List.length map seq id app]. f_equal. apply IH.
  - cbn [List.length map seq app]. rewrite Nat.add_0_r. apply IH.
Qed.

(** X27. A frame keeps the ids distinct: when the ids of the registry, the
    results of the [uuidv4()] calls that the frame makes for its missiles
    and the ids of the planner's entities are all different, no two
    entities of the registry after the frame have the same id. *)
Theorem frame_keeps_ids_distinct (f : Frame) (r : Refs) :
  let fired :=
    List.length
      (flat_map p_spawns (processAll f 0 (droneObjects (drone f r)))) in
  NoDup (map id (objects r) ++ map (uuidv4 f) (seq 0 fired)
         ++ map id (planned f)) ->
  NoDup (map id (objects (fst (tick f r)))).
Proof.
  cbv zeta. intros H.
  destruct (status (snap f)) eqn:Hs;
    try solve [unfold tick; rewrite Hs;
               exact (NoDup_app_remove_r _ _ H)].
  rewrite tick_registry by exact Hs.
  rewrite !map_app, processAll_spawn_ids, map_map.
  apply NoDup_map_filter.
  rewrite <- (map_map p_obj id).
  assert (E : map id (map p_obj (processAll f 0 (droneObjects (drone f r))))
              = map id (objects r)).
  { rewrite map_map.
    rewrite (processAll_ids f (droneObjects (drone f r)) 0).
    apply drone_ids. }
  rewrite E. exact H.
Qed.

(** ** The Spawn Planner *)

Lemma createRandomGem_shape (x z : float) (id : string) (y rand : float) :
  exists c p,
    createRandomGem x z id y rand
    = mkGameObject id GEM (vec3 x y z) true (Some c) (Some p) None None false
    /\ In (c, p) [("#00ff00", 50); ("#9900ff", 150); ("#ffd700", 50);
                  ("#00ffff", 10)]
    /\ ((c === "#00ff00") = gtb rand 0.99).
Proof.
  unfold createRandomGem.
  destruct (gtb rand 0.99); [| destruct (gtb rand 0.90);
                                [| destruct (gtb rand 0.60)]];
    eexists; eexists; (split; [reflexivity |]); cbn; auto 6.
Qed.

Lemma gem_plannedAt (x z : float) (id : string) (y rand : float) :
  plannedAt z (createRandomGem x z id y rand).
Proof.
  destruct (createRandomGem_shape x z id y rand) as [c [p [-> _]]].
  unfold plannedAt. cbn. repeat split; auto.
Qed.

Lemma fillGem_plannedAt (pf : Platform) (lanes : list Z) (z : float)
  (ks : list nat) :
  Forall (plannedAt z) (flat_map (fillGem pf lanes z) ks).
Proof.
  apply Forall_flat_map. apply Forall_forall. intros k _. unfold fillGem.
  destruct (_ <? _)%float; [| constructor].
  constructor; [apply gem_plannedAt | constructor].
Qed.

Lemma planRow_plannedAt (pf : Platform) (snap : GameState) (z : float) :
  Forall (plannedAt z) (planRow pf snap z).
Proof.
  unfold planRow. destruct (_ <? _)%float.
  - destruct (_ && _).
    + unfold planAliens. apply Forall_app. split.
      * apply Forall_map. apply Forall_forall. intros k _.
        unfold plannedAt, alienAt. cbn. repeat split; auto.
      * apply fillGem_plannedAt.
    + unfold planObstacles. apply Forall_app. split.
      * apply Forall_flat_map. apply Forall_forall. intros k _.
        unfold obstacleAt. constructor.
        -- unfold plannedAt. cbn. repeat split; auto.
        -- destruct (_ <? _)%float; [| constructor].
           constructor; [apply gem_plannedAt | constructor].
      * apply fillGem_plannedAt.
  - constructor; [apply gem_plannedAt | constructor].
Qed.

Lemma planLetter_plannedAt (pf : Platform) (snap : GameState) (z : float) :
  Forall (plannedAt z) (fst (planLetter pf snap z)).
Proof.
  unfold planLetter. destruct (availableIndices _); cbn [fst].
  - constructor; [apply gem_plannedAt | constructor].
  - constructor; [| constructor]. unfold plannedAt. cbn. repeat split; auto.
Qed.

Lemma ltb_nan_r (x : float) : (x <? nan)%float = false.
Proof.
  rewrite ltb_spec. replace (Prim2SF nan) with S754_nan
    by (vm_compute; reflexivity).
  unfold SFltb, SFcompare. destruct (Prim2SF x); reflexivity.
Qed.

Lemma float_ltb_asym (a b : float) :
  (a <? b)%float = true -> (b <? a)%float = false.
Proof.
  intros H. destruct (b <? a)%float eqn:E; [| reflexivity].
  rewrite <- (float_ltb_irrefl a). symmetry.
  exact (float_ltb_trans _ _ _ H E).
Qed.

(** [Math.min] is never above its arguments. *)
Lemma Math_min_le (a b : float) :
  gtb (Math_min a b) a = false /\ gtb (Math_min a b) b = false.
Proof.
  unfold gtb, Math_min. destruct (is_nan a || is_nan b).
  - split; apply ltb_nan_r.
  - destruct (a <? b)%float eqn:E1.
    + split; [apply float_ltb_irrefl | apply float_ltb_asym; exact E1].
    + destruct (b <? a)%float eqn:E2.
      * split; [apply float_ltb_asym; exact E2 | apply float_ltb_irrefl].
      * destruct (get_sign a); split;
          try apply float_ltb_irrefl; assumption.
Qed.

(** X19. Where the planner puts what it plans: it plans only when the
    farthest entity that is not a missile (or -20 without any) is nearer
    than [SPAWN_DISTANCE]; everything it plans in a frame is active, has
    not fired, is a letter, a gem, an alien or an obstacle, and stands at
    one same distance, which is neither nearer than [SPAWN_DISTANCE] nor
    nearer than the farthest entity less the gap of [12 + speed * 0.4].
    The letter checkpoint moves only in a frame that plans a letter, by
    one letter interval of the level. *)
Theorem planned_entities (pf : Platform) (snap : GameState)
  (distanceTraveled nextLetterDistance : float)
  (keptObjects : list GameObject) :
  let p := planner pf snap distanceTraveled nextLetterDistance keptObjects in
  let z := spawnZ (speed snap) (furthestZ keptObjects) in
  Forall (plannedAt z) (planned_objects p)
  /\ gtb z (- SPAWN_DISTANCE)%float = false
  /\ gtb z (furthestZ keptObjects - (12 + speed snap * 0.4))%float = false
  /\ (planned_objects p <> [] ->
      gtb (furthestZ keptObjects) (- SPAWN_DISTANCE)%float = true)
  /\ (planned_next p <> nextLetterDistance ->
      planned_next p
      = (nextLetterDistance + getLetterInterval pf (level snap))%float
      /\ exists o, planned_objects p = [o] /\ type o = LETTER).
Proof.
  cbv zeta. split; [| split; [| split; [| split]]].
  - unfold planner. destruct (gtb _ _); [| constructor].
    destruct (_ <=? _)%float.
    + pose proof (planLetter_plannedAt pf snap
                    (spawnZ (speed snap) (furthestZ keptObjects))) as H.
      destruct (planLetter _ _ _) as [objs isLetter]. exact H.
    + destruct (_ <? _)%float; [apply planRow_plannedAt | constructor].
  - apply Math_min_le.
  - apply Math_min_le.
  - unfold planner. destruct (gtb _ _); [reflexivity |].
    cbn. intros H. now contradiction H.
  - unfold planner. destruct (gtb _ _); [| cbn; congruence].
    destruct (_ <=? _)%float.
    + unfold planLetter. destruct (availableIndices _); cbn.
      * congruence.
      * intros _. split; [reflexivity |]. eexists. split; reflexivity.
    + destruct (_ <? _)%float; cbn; congruence.
Qed.

Lemma availableLanes_length (laneCount : Z) :
  0 <= laneCount ->
  (1 <= List.length (availableLanes laneCount))%nat.
Proof.
  intros H. unfold availableLanes, maxLane.
  assert (0 <= laneCount / 2) by (apply Z.div_pos; lia).
  destruct (Z.to_nat (2 * (laneCount / 2) + 1)) eqn:E; [lia |].
  cbn. lia.
Qed.

Lemma alienCount_bounds (lanes : Z) (pAlien : float) :
  1 <= lanes ->
  1 <= alienCount lanes pAlien <= 3 /\ alienCount lanes pAlien <= lanes.
Proof.
  intros H. unfold alienCount.
  destruct (gtb pAlien 0.9), (gtb pAlien 0.7), (Z.leb_spec 3 lanes);
    cbn [andb]; lia.
Qed.

Lemma countToSpawn_bounds (lanes : Z) (p : float) :
  1 <= lanes ->
  1 <= countToSpawn lanes p <= 3 /\ countToSpawn lanes p <= lanes.
Proof.
  intros H. unfold countToSpawn.
  destruct (gtb p 0.80), (gtb p 0.50); lia.
Qed.

Lemma indices_from_0 (n : Z) :
  1 <= n -> exists k, indices 0 n = O :: seq 1 k.
Proof.
  intros H. unfold indices. cbn [Z.to_nat]. rewrite Nat.sub_0_r.
  destruct (Z.to_nat n) eqn:E; [lia |]. exists n0. reflexivity.
Qed.

Lemma planRow_nonempty (pf : Platform) (snap : GameState) (z : float) :
  0 <= laneCount snap ->
  List.length (sort_random pf (availableLanes (laneCount snap)))
  = List.length (availableLanes (laneCount snap)) ->
  planRow pf snap z <> [].
Proof.
  intros H0 Hs. pose proof (availableLanes_length _ H0) as Hl.
  unfold planRow. destruct (_ <? _)%float; [| discriminate].
  destruct (_ && _).
  - unfold planAliens. rewrite Hs.
    destruct (alienCount_bounds
                (Z.of_nat (List.length (availableLanes (laneCount snap))))
                (drawCount pf)) as [[H1 _] _]; [lia |].
    destruct (indices_from_0 _ H1) as [k ->]. discriminate.
  - unfold planObstacles. rewrite Hs.
    destruct (countToSpawn_bounds
                (Z.of_nat (List.length (availableLanes (laneCount snap))))
                (drawCount pf)) as [[H1 _] _]; [lia |].
    destruct (indices_from_0 _ H1) as [k ->]. discriminate.
Qed.

Lemma planner_changes (pf : Platform) (snap : GameState)
  (distanceTraveled nextLetterDistance : float)
  (keptObjects : list GameObject) :
  0 <= laneCount snap ->
  List.length (sort_random pf (availableLanes (laneCount snap)))
  = List.length (availableLanes (laneCount snap)) ->
  planned_changes
    (planner pf snap distanceTraveled nextLetterDistance keptObjects)
  = match planned_objects
            (planner pf snap distanceTraveled nextLetterDistance keptObjects)
    with [] => false | _ :: _ => true end.
Proof.
  intros H0 Hs. unfold planner. destruct (gtb _ _); [| reflexivity].
  destruct (_ <=? _)%float.
  - unfold planLetter. destruct (availableIndices _); reflexivity.
  - destruct (_ <? _)%float; [| reflexivity]. cbn.
    pose proof (planRow_nonempty pf snap
                  (spawnZ (speed snap) (furthestZ keptObjects)) H0 Hs).
    destruct (planRow _ _ _); [contradiction | reflexivity].
Qed.

Lemma drone_planned (f : Frame) (l : list GameObject) (r : Refs) :
  drone (mkFrame (snap f) (delta f) (playerPos f) (now f) (uuidv4 f) l) r
  = drone f r.
Proof. reflexivity. Qed.

Lemma loop_planned (f : Frame) (l : list GameObject) (c : bool)
  (objs : list GameObject) :
  loop (mkFrame (snap f) (delta f) (playerPos f) (now f) (uuidv4 f) l) c objs
  = loop f c objs.
Proof. reflexivity. Qed.

(** X18. The frame callback is the frame loop followed by the Spawn
    Planner: with a lane count that is not negative and a sort that keeps
    the number of lanes, the planner raises [hasChanges] exactly when it
    pushes an entity, so that the registry and the effects of the whole
    callback are those of [tick] for the frame whose planned entities are
    the planner's, computed from what the loop kept and the missiles it
    fired, at the distance travelled after this frame. *)
Theorem frame_is_tick_with_planner (pf : Platform) (f : Frame) (r : Refs)
  (nextLetterDistance : float) :
  0 <= laneCount (snap f) ->
  List.length (sort_random pf (availableLanes (laneCount (snap f))))
  = List.length (availableLanes (laneCount (snap f))) ->
  let f' := withPlanned pf f r nextLetterDistance in
  fst (fst (frame pf f r nextLetterDistance)) = fst (tick f' r)
  /\ snd (frame pf f r nextLetterDistance) = snd (tick f' r)
  /\ (status (snap f) <> PLAYING ->
      frame pf f r nextLetterDistance = (r, nextLetterDistance, [])).
Proof.
  intros H0 Hs. cbv zeta. unfold frame, tick, withPlanned.
  cbn [snap planned]. rewrite !drone_planned, !loop_planned.
  destruct (status (snap f)); try (repeat split; congruence).
  cbn [fst snd]. rewrite (planner_changes pf (snap f) _ _ _ H0 Hs).
  repeat split; congruence.
Qed.

(** X26. Only the emerald heals: a gem made by [createRandomGem] is worth
    10, 50 or 150 points, and when it is collected the collision block
    emits one gem collection with these points, flagged as healing exactly
    when the rarity draw was above 0.99, in which case the gem is worth 50;
    the gold gem, worth 50 too, does not heal. *)
Theorem only_emerald_heals (x z : float) (id : string) (y rand : float) :
  let g := createRandomGem x z id y rand in
  exists p c,
    collectEffects g
    = [CollectGem p (gtb rand 0.99); PlayGemCollect;
       ParticleBurst (vec3 x y z) c None]
    /\ (p = 10 \/ p = 50 \/ p = 150)
    /\ (gtb rand 0.99 = true -> p = 50)
    /\ (p = 150 <-> gtb rand 0.99 = false /\ gtb rand 0.90 = true)
    /\ (p = 10 <-> gtb rand 0.60 = false /\ gtb rand 0.90 = false
                   /\ gtb rand 0.99 = false).
Proof.
  cbv zeta. unfold createRandomGem.
  destruct (gtb rand 0.99) eqn:E1; [| destruct (gtb rand 0.90) eqn:E2;
                                     [| destruct (gtb rand 0.60) eqn:E3]];
    eexists; eexists; (split; [reflexivity |]);
    repeat split; intros; try discriminate; try lia; auto;
    repeat match goal with H : _ /\ _ |- _ => destruct H end;
    try discriminate.
Qed.

(** *** Rows of hazards *)

Lemma shuffledX_nth (lanes : list Z) (k : nat) :
  (k < List.length lanes)%nat -> shuffledX lanes k = laneX (nth k lanes 0).
Proof.
  intros H. unfold shuffledX.
  destruct (nth_error lanes k) eqn:E.
  - now rewrite (nth_error_nth _ _ _ E).
  - apply nth_error_None in E. lia.
Qed.

Lemma gem_x (x z : float) (id : string) (y rand : float) :
  let g := createRandomGem x z id y rand in
  type g = GEM /\ position g = vec3 x y z.
Proof.
  cbv zeta. destruct (createRandomGem_shape x z id y rand) as [c [p [-> _]]].
  split; reflexivity.
Qed.

Lemma fillGem_hazards (pf : Platform) (lanes : list Z) (z : float)
  (ks : list nat) :
  hazardXs (flat_map (fillGem pf lanes z) ks) = [].
Proof.
  unfold hazardXs. induction ks as [| k ks IH]; [reflexivity |].
  cbn [flat_map]. rewrite filter_app, map_app, IH, app_nil_r.
  unfold fillGem. destruct (_ <? _)%float; [| reflexivity].
  cbn [filter]. destruct (gem_x (shuffledX lanes k) z (uuid pf (SiteFill k))
                            GEM_Y (drawRarity pf (SiteFill k))) as [-> _].
  reflexivity.
Qed.

Lemma fillGem_ground (pf : Platform) (lanes : list Z) (z : float)
  (ks : list nat) :
  groundGemXs (flat_map (fillGem pf lanes z) ks)
  = map (shuffledX lanes)
        (filter (fun k => (drawFill pf k <? 0.4)%float) ks).
Proof.
  unfold groundGemXs. induction ks as [| k ks IH]; [reflexivity |].
  cbn [flat_map filter]. rewrite filter_app, map_app, IH.
  unfold fillGem. destruct (_ <? _)%float; [| reflexivity].
  destruct (gem_x (shuffledX lanes k) z (uuid pf (SiteFill k))
                  GEM_Y (drawRarity pf (SiteFill k))) as [Ht Hp].
  cbn [filter]. rewrite Ht, Hp. cbn [isType andb at1].
  replace (GEM_Y =? GEM_Y)%float with true by (vm_compute; reflexivity).
  cbn [map app]. rewrite Hp. reflexivity.
Qed.

Lemma aliens_hazards (pf : Platform) (lanes : list Z) (z : float)
  (ks : list nat) :
  hazardXs (map (alienAt pf lanes z) ks) = map (shuffledX lanes) ks
  /\ groundGemXs (map (alienAt pf lanes z) ks) = [].
Proof.
  unfold hazardXs, groundGemXs.
  induction ks as [| k ks [IH1 IH2]]; [split; reflexivity |].
  cbn [map filter alienAt type isHazard isType andb position at0].
  now rewrite IH1, IH2.
Qed.

Lemma obstacles_hazards (pf : Platform) (lanes : list Z) (z : float)
  (ks : list nat) :
  hazardXs (flat_map (obstacleAt pf lanes z) ks) = map (shuffledX lanes) ks
  /\ groundGemXs (flat_map (obstacleAt pf lanes z) ks) = [].
Proof.
  unfold hazardXs, groundGemXs.
  induction ks as [| k ks [IH1 IH2]]; [split; reflexivity |].
  cbn [flat_map]. rewrite !filter_app, !map_app, IH1, IH2, app_nil_r.
  unfold obstacleAt.
  cbn [filter type isHazard isType andb position at0 map app].
  destruct (_ <? _)%float; [| split; reflexivity].
  destruct (gem_x (shuffledX lanes k) z (uuid pf (SiteBonus k)) 2.5
                  (drawRarity pf (SiteBonus k))) as [Ht Hp].
  cbn [filter]. rewrite Ht, Hp. cbn [isHazard isType andb at1 map app].
  replace (2.5 =? GEM_Y)%float with false by (vm_compute; reflexivity).
  split; reflexivity.
Qed.

Lemma hazardXs_app (a b : list GameObject) :
  hazardXs (a ++ b) = hazardXs a ++ hazardXs b.
Proof. unfold hazardXs. now rewrite filter_app, map_app. Qed.

Lemma groundGemXs_app (a b : list GameObject) :
  groundGemXs (a ++ b) = groundGemXs a ++ groundGemXs b.
Proof. unfold groundGemXs. now rewrite filter_app, map_app. Qed.

Lemma row_lanes (lanes : list Z) (c : nat) (keep : nat -> bool) :
  NoDup lanes -> (1 <= c <= 3)%nat -> (c <= List.length lanes)%nat ->
  let idx :=
    filter keep (seq c (List.length lanes - c)) in
  exists hz gm : list Z,
    map (shuffledX lanes) (seq 0 c) = map laneX hz
    /\ map (shuffledX lanes) idx = map laneX gm
    /\ NoDup (hz ++ gm) /\ incl (hz ++ gm) lanes
    /\ (1 <= List.length hz <= 3)%nat.
Proof.
  intros Hnd Hc Hle idx.
  exists (map (fun k => nth k lanes 0) (seq 0 c)),
         (map (fun k => nth k lanes 0) idx).
  assert (Hidx : forall k, In k (seq 0 c ++ idx) ->
                           (k < List.length lanes)%nat).
  { intros k Hk. apply in_app_or in Hk as [Hk | Hk].
    - apply in_seq in Hk. lia.
    - apply filter_In in Hk as [Hk _]. apply in_seq in Hk. lia. }
  split; [| split; [| split; [| split]]].
  - rewrite map_map. apply map_ext_in. intros k Hk.
    apply shuffledX_nth. apply Hidx. apply in_or_app. now left.
  - rewrite map_map. apply map_ext_in. intros k Hk.
    apply shuffledX_nth. apply Hidx. apply in_or_app. now right.
  - rewrite <- map_app. apply NoDup_map_NoDup_ForallPairs.
    + intros i j Hi Hj E. apply Hidx in Hi, Hj.
      exact (proj1 (NoDup_nth lanes 0) Hnd i j Hi Hj E).
    + apply NoDup_app.
      * apply seq_NoDup.
      * apply NoDup_filter, seq_NoDup.
      * intros k Hk Hk'. apply in_seq in Hk.
        apply filter_In in Hk' as [Hk' _]. apply in_seq in Hk'. lia.
  - rewrite <- map_app. intros a Ha. apply in_map_iff in Ha as [k [<- Hk]].
    apply nth_In. apply Hidx. exact Hk.
  - rewrite length_map, length_seq. exact Hc.
Qed.

Lemma row_layout (pf : Platform) (lanes : list Z) (z : float)
  (row : list GameObject) :
  NoDup lanes -> lanes <> [] ->
  row = planAliens pf lanes z \/ row = planObstacles pf lanes z ->
  exists hz gm : list Z,
    hazardXs row = map laneX hz
    /\ groundGemXs row = map laneX gm
    /\ NoDup (hz ++ gm) /\ incl (hz ++ gm) lanes
    /\ (1 <= List.length hz <= 3)%nat.
Proof.
  intros Hnd Hne Hrow.
  assert (Hl : 1 <= Z.of_nat (List.length lanes))
    by (destruct lanes; [contradiction | cbn [List.length]; lia]).
  assert (Hix : forall c : Z, 1 <= c <= 3 -> c <= Z.of_nat (List.length lanes) ->
            indices 0 c = seq 0 (Z.to_nat c)
            /\ indices c (Z.of_nat (List.length lanes))
               = seq (Z.to_nat c) (List.length lanes - Z.to_nat c)).
  { intros c Hc Hle. unfold indices. cbn [Z.to_nat].
    now rewrite Nat.sub_0_r, Nat2Z.id. }
  destruct Hrow as [-> | ->].
  - unfold planAliens.
    destruct (alienCount_bounds _ (drawCount pf) Hl) as [Hc Hle].
    destruct (Hix _ Hc Hle) as [-> ->].
    rewrite hazardXs_app, groundGemXs_app.
    rewrite (proj1 (aliens_hazards pf lanes z _)),
      (proj2 (aliens_hazards pf lanes z _)),
      fillGem_hazards, fillGem_ground, app_nil_r.
    cbn [app]. apply row_lanes; [exact Hnd | lia | lia].
  - unfold planObstacles.
    destruct (countToSpawn_bounds _ (drawCount pf) Hl) as [Hc Hle].
    destruct (Hix _ Hc Hle) as [-> ->].
    rewrite hazardXs_app, groundGemXs_app.
    rewrite (proj1 (obstacles_hazards pf lanes z _)),
      (proj2 (obstacles_hazards pf lanes z _)),
      fillGem_hazards, fillGem_ground, app_nil_r.
    cbn [app]. apply row_lanes; [exact Hnd | lia | lia].
Qed.

Lemma rangeZ_In (a : Z) (n : nat) (L : Z) :
  In L (rangeZ a n) -> a <= L < a + Z.of_nat n.
Proof.
  unfold rangeZ. intros H. apply in_map_iff in H as [i [<- Hi]].
  apply in_seq in Hi. lia.
Qed.

Lemma rangeZ_NoDup (a : Z) (n : nat) : NoDup (rangeZ a n).
Proof.
  unfold rangeZ. apply NoDup_map_NoDup_ForallPairs; [| apply seq_NoDup].
  intros i j _ _ E. lia.
Qed.

(** X20. The layout of a row of hazards: when the planner lays a squad of
    aliens or a row of obstacles, on a course whose lane count is not
    negative and with a sort that permutes the lanes, there are between one
    and three hazards, each in a lane of its own; the gems at the default
    height stand in lanes that no hazard of the row and no other such gem
    occupies; and all these lanes are lanes of the course, from [-maxLane]
    to [maxLane].  (The gems that a row of obstacles may carry at height
    2.5 stand above an obstacle.) *)
Theorem hazard_row_layout (pf : Platform) (snap : GameState) (z : float) :
  Permutation (sort_random pf (availableLanes (laneCount snap)))
              (availableLanes (laneCount snap)) ->
  0 <= laneCount snap ->
  (drawObstacle pf <? obstacleProb (level snap) (hasLuckCharm snap))%float
  = true ->
  let row := planRow pf snap z in
  exists hz gm : list Z,
    hazardXs row = map laneX hz
    /\ groundGemXs row = map laneX gm
    /\ NoDup (hz ++ gm)
    /\ Forall (fun lane => - maxLane (laneCount snap) <= lane
                           <= maxLane (laneCount snap)) (hz ++ gm)
    /\ (1 <= List.length hz <= 3)%nat.
Proof.
  intros Hp H0 Ho. cbv zeta.
  set (lanes := sort_random pf (availableLanes (laneCount snap))).
  assert (Hnd : NoDup lanes).
  { apply (Permutation_NoDup (Permutation_sym Hp)). apply rangeZ_NoDup. }
  assert (Hne : lanes <> []).
  { intros E. apply Permutation_length in Hp. fold lanes in Hp.
    rewrite E in Hp. pose proof (availableLanes_length _ H0).
    cbn in Hp. lia. }
  destruct (row_layout pf lanes z (planRow pf snap z) Hnd Hne)
    as [hz [gm [E1 [E2 [N [I L]]]]]].
  { unfold planRow. rewrite Ho. fold lanes. destruct (_ && _); auto. }
  exists hz, gm. repeat split; try assumption; try lia.
  apply Forall_forall. intros lane Hin. apply I in Hin.
  apply (Permutation_in _ Hp) in Hin. apply rangeZ_In in Hin.
  unfold maxLane in *.
  assert (0 <= laneCount snap / 2) by (apply Z.div_pos; lia). lia.
Qed.

(** *** Letters *)

Lemma availableIndices_In (collected : list Z) (i : Z) :
  In i (availableIndices collected) ->
  0 <= i < 6 /\ ~ In i collected.
Proof.
  unfold availableIndices. intros H. apply filter_In in H as [Hr Hn].
  apply rangeZ_In in Hr. cbn in Hr. split; [lia |].
  intros Hin. apply includes_In in Hin. rewrite Hin in Hn. discriminate.
Qed.

(** X21. The letter the planner plans: when a letter is due and the index
    it draws falls inside the list of the glyph indices not collected yet,
    the planner plans one entity, a letter whose target index is one of
    0..5 and is not among the collected letters, with the glyph of that
    index; when the player reaches it the collision block emits the
    collection of exactly that index, which the repeat test of the store
    does not reject. *)
Theorem planned_letter (pf : Platform) (snap : GameState) (z : float) :
  let avail := availableIndices (collectedLetters snap) in
  let k := Math_floor (drawLetter pf * Z2f (Z.of_nat (List.length avail)))
  in
  0 <= k < Z.of_nat (List.length avail) ->
  exists i o glyph,
    planLetter pf snap z = ([o], true)
    /\ type o = LETTER /\ targetIndex o = Some i
    /\ 0 <= i < 6 /\ ~ In i (collectedLetters snap)
    /\ nth_error GEMINI_TARGET (Z.to_nat i) = Some glyph
    /\ value o = Some glyph
    /\ color o = nth_error GEMINI_COLORS (Z.to_nat i)
    /\ In (CollectLetter i) (collectEffects o)
    /\ includes (collectedLetters snap) i = false.
Proof.
  cbv zeta. intros Hk. unfold planLetter.
  destruct (availableIndices (collectedLetters snap)) as [| a l] eqn:Ea;
    [cbn in Hk; lia |].
  rewrite <- Ea in *.
  set (k := Math_floor _) in *.
  destruct (nth_error (availableIndices (collectedLetters snap))
                      (Z.to_nat k)) as [i |] eqn:Ei.
  2: { apply nth_error_None in Ei. lia. }
  pose proof (nth_error_In _ _ Ei) as Hin.
  apply availableIndices_In in Hin as [Hr Hn].
  assert (Hat : at_index (availableIndices (collectedLetters snap)) k
                = Some i).
  { unfold at_index. destruct (Z.ltb_spec k 0); [lia | exact Ei]. }
  rewrite Hat.
  assert (Hg : exists glyph,
             nth_error GEMINI_TARGET (Z.to_nat i) = Some glyph).
  { destruct (nth_error GEMINI_TARGET (Z.to_nat i)) eqn:E; [eauto |].
    apply nth_error_None in E. cbn in E. lia. }
  destruct Hg as [glyph Hg].
  assert (Hi : forall (A : Type) (l : list A),
             at_index l i = nth_error l (Z.to_nat i)).
  { intros A l0. unfold at_index. destruct (Z.ltb_spec i 0); [lia |].
    reflexivity. }
  exists i, (mkGameObject (uuid pf SiteLetter) LETTER
               (vec3 (laneX (getRandomLane (laneCount snap) (drawLane pf)))
                     1.0 z)
               true (nth_error GEMINI_COLORS (Z.to_nat i)) None (Some glyph)
               (Some i) false), glyph.
  rewrite !Hi, Hg. repeat split; try assumption; try lia;
    try (apply includes_not_In; assumption).
  unfold collectEffects. cbn [type isType targetIndex app]. left. reflexivity.
Qed.

(** * The shop screen *)

Lemma buyItem_fst (type : string) (cost : Z) (w : World) :
  fst (buyItem type cost w)
  = if type === "EXCHANGE" then 0 <? currency (state w)
    else negb (blocked (state w) type) && (cost <=? currency (state w)).
Proof.
  unfold buyItem, bind, get, set, ret.
  destruct (type === "EXCHANGE").
  - destruct (0 <? currency (state w)); reflexivity.
  - destruct (blocked (state w) type); cbn [negb andb]; [reflexivity |].
    destruct (cost <=? currency (state w)); [| reflexivity].
    destruct (grant _ _ _). reflexivity.
Qed.

Lemma buyItem_refused (type : string) (cost : Z) (w : World) :
  fst (buyItem type cost w) = false -> snd (buyItem type cost w) = w.
Proof.
  unfold buyItem, bind, get, set, ret.
  destruct (type === "EXCHANGE").
  - destruct (0 <? currency (state w)); [discriminate | reflexivity].
  - destruct (blocked (state w) type); [reflexivity |].
    destruct (cost <=? currency (state w)); [| reflexivity].
    destruct (grant _ _ _). discriminate.
Qed.

Lemma grant_currency (s : GameState) (type : string) (w : World) :
  currency (state (snd (grant s type w))) = currency (state w).
Proof.
  unfold grant, set, ret, merge. split_ifs; reflexivity.
Qed.

Lemma buyItem_debits (type : string) (cost : Z) (w : World) :
  (type === "EXCHANGE") = false ->
  fst (buyItem type cost w) = true ->
  currency (state (snd (buyItem type cost w))) = currency (state w) - cost.
Proof.
  intros Hx. unfold buyItem, bind, get, ret. rewrite Hx.
  destruct (blocked (state w) type); [discriminate |].
  destruct (cost <=? currency (state w)); [| discriminate].
  intros _. unfold set.
  match goal with
  | |- context [grant ?s ?t ?w1] =>
      pose proof (grant_currency s t w1) as G;
      destruct (grant s t w1) as [u' w2]
  end.
  cbn [snd state] in *. rewrite G. reflexivity.
Qed.

(** The guards of the button are those of the store. *)
Lemma isDisabled_blocked (s : GameState) (item : ShopItem) :
  isDisabled s item
  = negb (if item_id item === "EXCHANGE" then 0 <? currency s
          else finalCost s item <=? currency s)
    || blocked s (item_id item).
Proof.
  unfold isDisabled, blocked. cbv zeta.
  destruct (negb _);
    destruct ((item_id item === "HEAL") && (maxLives s <=? lives s)),
      ((item_id item === "SHIELD") && (3 <=? shieldCount s)),
      ((item_id item === "MAX_LIFE") && (10 <=? maxLives s));
    reflexivity.
Qed.

Lemma blocked_EXCHANGE (s : GameState) (type : string) :
  (type === "EXCHANGE") = true -> blocked s type = false.
Proof.
  intros H. apply String.eqb_eq in H. subst type. reflexivity.
Qed.

(** The filter of the shop is the guard of the store. *)
Lemma inPool_blocked (s : GameState) (item : ShopItem) :
  inPool s item = negb (blocked s (item_id item)).
Proof.
  unfold inPool, blocked.
  repeat match goal with
         | |- context [if ?g then false else _] =>
             destruct g;
             [repeat (rewrite ?orb_true_r; cbn [orb negb]); reflexivity |]
         end.
  reflexivity.
Qed.

(** X22. A button of the shop is enabled exactly when the purchase it
    triggers succeeds: for any item and any state, the [disabled] attribute
    that the shop screen computes for the item is the negation of what
    [buyItem] returns for the item's id and the cost shown, the wallet for
    the exchange and the list price, less 20% with the VIP card, for the
    others. *)
Theorem button_enabled_iff_purchase (s : GameState) (item : ShopItem) :
  isDisabled s item
  = negb (result (buyItem (item_id item) (finalCost s item)) s).
Proof.
  unfold result, call. rewrite buyItem_fst, isDisabled_blocked.
  cbn [state].
  destruct (item_id item === "EXCHANGE") eqn:E.
  - rewrite (blocked_EXCHANGE s _ E). now rewrite orb_false_r.
  - destruct (blocked s (item_id item)), (finalCost s item <=? currency s);
      reflexivity.
Qed.

Lemma discount_exact :
  Forall (fun item =>
            5 * Math_floor (Z2f (cost item) * 0.8)%float = 4 * cost item
            /\ (item_id item === "EXCHANGE") = false)
         SHOP_ITEMS.
Proof.
  unfold SHOP_ITEMS. repeat constructor; vm_compute; reflexivity.
Qed.

(** X23. The VIP card takes exactly 20% off: for every item of the
    catalogue the discounted price [Math.floor(cost * 0.8)], computed in
    binary64, is four fifths of the list price, with no unit lost to
    rounding, and a purchase from an enabled button with the card owned
    debits exactly that. *)
Theorem vip_discount_exact (s : GameState) (item : ShopItem) :
  In item SHOP_ITEMS -> hasDiscount s = true -> isDisabled s item = false ->
  5 * finalCost s item = 4 * cost item
  /\ result (buyItem (item_id item) (finalCost s item)) s = true
  /\ 5 * (currency s
          - currency (after (buyItem (item_id item) (finalCost s item)) s))
     = 4 * cost item.
Proof.
  intros Hin Hd Hb.
  pose proof (proj1 (Forall_forall _ _) discount_exact item Hin) as [E X].
  assert (Hf : finalCost s item = Math_floor (Z2f (cost item) * 0.8)%float)
    by (unfold finalCost; rewrite X, Hd; reflexivity).
  assert (Hr : result (buyItem (item_id item) (finalCost s item)) s = true).
  { unfold result, call. rewrite buyItem_fst. cbn [state].
    rewrite isDisabled_blocked, X in Hb.
    apply orb_false_iff in Hb as [Ha Hk]. apply negb_false_iff in Ha.
    now rewrite X, Hk, Ha. }
  split; [rewrite Hf; exact E | split; [exact Hr |]].
  unfold after, call.
  rewrite (buyItem_debits _ _ _ X Hr). cbn [state]. rewrite Hf. lia.
Qed.

Lemma SHOP_ITEMS_NoDup : NoDup SHOP_ITEMS.
Proof.
  unfold SHOP_ITEMS.
  repeat (constructor; [cbn; intuition discriminate |]). constructor.
Qed.

Lemma SHOP_ITEMS_not_EXCHANGE (item : ShopItem) :
  In item SHOP_ITEMS -> (item_id item === "EXCHANGE") = false.
Proof.
  intros H. exact (proj2 (proj1 (Forall_forall _ _) discount_exact item H)).
Qed.

Lemma filter_repeat_EXCHANGE (n : nat) :
  filter (fun item => negb (item_id item === "EXCHANGE"))
         (repeat EXCHANGE_ITEM n) = [].
Proof. induction n as [| n IH]; [reflexivity | exact IH]. Qed.

Lemma firstn_In {A : Type} (n : nat) (l : list A) (a : A) :
  In a (firstn n l) -> In a l.
Proof.
  intros H. rewrite <- (firstn_skipn n l). apply in_or_app. now left.
Qed.

(** X24. What the shop offers: with a sort that permutes its pool,
    [generateShopItems] always returns three items; each of them is either
    the score exchange or an item of the catalogue, and none is one that
    the store would refuse as already owned or at its cap in the state the
    shop was generated from; no catalogue item is offered twice; and the
    score exchange appears exactly when fewer than three catalogue items
    are left to sell. *)
Theorem shop_offers (sort : list ShopItem -> list ShopItem)
  (s : GameState) :
  (forall l, Permutation (sort l) l) ->
  let items := generateShopItems sort s in
  List.length items = 3%nat
  /\ Forall (fun item => blocked s (item_id item) = false
                         /\ (item = EXCHANGE_ITEM \/ In item SHOP_ITEMS))
            items
  /\ NoDup (filter (fun item => negb (item_id item === "EXCHANGE")) items)
  /\ (In EXCHANGE_ITEM items
      <-> (List.length (filter (inPool s) SHOP_ITEMS) < 3)%nat).
Proof.
  intros Hsort. cbv zeta. unfold generateShopItems.
  set (pool := filter (inPool s) SHOP_ITEMS).
  pose proof (Hsort pool) as Hp.
  set (sp := sort pool) in *.
  assert (Hlen : List.length (firstn 3 sp) = Nat.min 3 (List.length pool)).
  { rewrite length_firstn. now rewrite (Permutation_length Hp). }
  assert (Hsel : forall item, In item (firstn 3 sp) ->
                              In item SHOP_ITEMS /\ inPool s item = true).
  { intros item Hin. apply firstn_In in Hin.
    apply (Permutation_in _ Hp) in Hin. now apply filter_In in Hin. }
  assert (Hnd : NoDup (firstn 3 sp)).
  { apply (NoDup_app_remove_r (firstn 3 sp) (skipn 3 sp)).
    rewrite firstn_skipn. apply (Permutation_NoDup (Permutation_sym Hp)).
    apply NoDup_filter, SHOP_ITEMS_NoDup. }
  assert (Hsel' : Forall (fun item => blocked s (item_id item) = false
                            /\ (item = EXCHANGE_ITEM \/ In item SHOP_ITEMS))
                         (firstn 3 sp)).
  { apply Forall_forall. intros item Hin. apply Hsel in Hin as [Hin Hpool].
    rewrite inPool_blocked in Hpool. apply negb_true_iff in Hpool. auto. }
  assert (Hx : ~ In EXCHANGE_ITEM (firstn 3 sp)).
  { intros Hin. apply Hsel in Hin as [Hin _].
    apply SHOP_ITEMS_not_EXCHANGE in Hin. discriminate. }
  destruct (Nat.ltb_spec (List.length (firstn 3 sp)) 3) as [Hlt | Hge].
  - split; [| split; [| split]].
    + rewrite length_app, repeat_length. lia.
    + apply Forall_app. split; [exact Hsel' |].
      apply Forall_forall. intros item Hin. apply repeat_spec in Hin.
      subst item. split; [reflexivity | now left].
    + rewrite filter_app, filter_repeat_EXCHANGE, app_nil_r.
      apply NoDup_filter, Hnd.
    + split; [intros _; lia | intros _].
      apply in_or_app. right.
      destruct (3 - List.length (firstn 3 sp))%nat eqn:E; [lia |].
      now left.
  - split; [| split; [| split]].
    + pose proof (firstn_le_length 3 sp). lia.
    + exact Hsel'.
    + apply NoDup_filter, Hnd.
    + split; [intros H; contradiction | intros H; lia].
Qed.

Lemma forEach_ext {A : Type} (g h : A -> Action unit) :
  (forall a w, g a w = h a w) ->
  forall l w, forEach g l w = forEach h l w.
Proof.
  intros E l. induction l as [| a l IH]; intros w; [reflexivity |].
  cbn [forEach]. unfold bind. rewrite E. destruct (h a w). apply IH.
Qed.

(** X25. Buying everything is clicking every button in turn: whatever the
    items shown and the state of the store, [handleBuyAll] leaves the
    store, its [set] calls included, exactly as clicking the buttons of the
    items one after the other does, each click going through only if the
    button is enabled in the state the previous purchases left.  So the
    bulk purchase skips an item exactly when its button would be disabled,
    although it re-checks only the HEAL and SHIELD caps itself. *)
Theorem buy_all_is_clicking (items : list ShopItem) (w : World) :
  handleBuyAll items w = forEach clickItem items w.
Proof.
  unfold handleBuyAll. apply forEach_ext. clear. intros item w.
  unfold clickItem, bind, get, forget, ret. cbv beta.
  rewrite isDisabled_blocked.
  pose proof (buyItem_fst (item_id item) (finalCost (state w) item) w) as F.
  pose proof (buyItem_refused (item_id item) (finalCost (state w) item) w)
    as R.
  destruct (item_id item === "EXCHANGE") eqn:E.
  - rewrite (blocked_EXCHANGE _ _ E) in *. rewrite orb_false_r.
    assert (Hc : finalCost (state w) item = currency (state w))
      by (unfold finalCost; now rewrite E).
    rewrite Hc in *. rewrite Z.leb_refl, andb_true_r.
    apply String.eqb_eq in E. rewrite E in *.
    change (negb (("EXCHANGE" === "HEAL") && _)
            && negb (("EXCHANGE" === "SHIELD") && _)) with true.
    cbv iota.
    destruct (0 <? currency (state w)) eqn:C; cbn [negb]; [reflexivity |].
    now rewrite (R F).
  - destruct (finalCost (state w) item <=? currency (state w));
      cbn [negb orb]; [| now rewrite andb_false_r].
    rewrite andb_true_r in *.
    destruct (blocked (state w) (item_id item)) eqn:B; cbn [negb] in *.
    + cbn [negb andb] in F.
      destruct (_ && _); [now rewrite (R F) | reflexivity].
    + unfold blocked in B.
      repeat (apply orb_false_iff in B; destruct B as [B ?]).
      match goal with
      | H1 : (item_id item === "HEAL") && _ = false,
        H2 : (item_id item === "SHIELD") && _ = false |- _ =>
          rewrite H1, H2
      end.
      reflexivity.
Qed.

End Game.

(** * Concrete runs

    The constants of [types.ts] are not among the sources.  The runs below
    take a base run speed of 22.5, lanes 2.2 wide and a removal boundary 20
    units behind the player; the theorems above hold for every value. *)

(** C1, on the documented example: the last life of three with a revive
    charge. *)
Lemma takeDamage_spec_witness :
  let s := (playing 22.5) <| upd_lives 1 |> <| upd_hasRevive true |> in
  let w := snd (call takeDamage s) in
  lives (state w) = 3 /\ hasRevive (state w) = false
  /\ isImmortalityActive (state w) = true /\ status (state w) = PLAYING
  /\ (forall t, In t (timers w) ->
      isImmortalityActive (fire t (state w)) = false).
Proof.
  cbv zeta.
  destruct (takeDamage_spec
              ((playing 22.5) <| upd_lives 1 |> <| upd_hasRevive true |>))
    as (_ & _ & _ & H & _).
  assert (N : ~ invulnerable
                ((playing 22.5) <| upd_lives 1 |> <| upd_hasRevive true |>))
    by (intros [X | [X | X]]; discriminate X).
  specialize (H N ltac:(cbn; lia) ltac:(cbn; lia) eq_refl).
  cbv zeta in H. destruct H as (E & Es & _ & _ & Ht).
  rewrite E, Es at 1. repeat split; try reflexivity. exact Ht.
Defined.

(** C2, on a run at level 3 with the gem booster, and on a gem of 50 at
    level 19. *)
Lemma collectGem_spec_witness :
  let s := (playing 22.5) <| upd_level 3 |> <| upd_hasGemBooster true |> in
  let s19 := (playing 22.5) <| upd_level 19 |> in
  (score (after (collectGem 10 false) s) = 280
   /\ currency (after (collectGem 10 false) s) = 28)
  /\ (finalValueQ 50 19 false = 230
      /\ score (after (collectGem 50 false) s19) = 2290
      /\ currency (after (collectGem 50 false) s19) = 229).
Proof.
  cbv zeta. destruct collectGem_spec as (_ & H & _ & _ & H19).
  split.
  - apply (H ((playing 22.5) <| upd_level 3 |> <| upd_hasGemBooster true |>)
             ltac:(vm_compute; reflexivity) ltac:(vm_compute; reflexivity)).
  - apply (H19 ((playing 22.5) <| upd_level 19 |>)
               ltac:(vm_compute; reflexivity) ltac:(vm_compute; reflexivity)).
Defined.

(** C3, on the documented example: five target levels, the sixth letter of
    level 5. *)
Lemma collectLetter_spec_witness :
  let s := (playing 22.5) <| upd_level 5 |>
                          <| upd_collectedLetters [0; 1; 2; 3; 4] |> in
  status (after (collectLetter 22.5 5) s) = VICTORY
  /\ score (after (collectLetter 22.5 5) s) = score s + 10000
  /\ collectedLetters (after (collectLetter 22.5 5) s) = [0; 1; 2; 3; 4; 5].
Proof.
  cbv zeta.
  destruct (collectLetter_spec 22.5
              ((playing 22.5) <| upd_level 5 |>
                              <| upd_collectedLetters [0; 1; 2; 3; 4] |>) 5)
    as (_ & _ & H).
  assert (N : ~ In 5 [0; 1; 2; 3; 4]) by (cbn; lia).
  destruct (H N ltac:(vm_compute; reflexivity) ltac:(vm_compute; reflexivity)
              ltac:(vm_compute; reflexivity)) as (E1 & E2 & E3 & _).
  split; [exact E1 |]. split; [exact E2 | exact E3].
Defined.

(** C4, at level 7. *)
Lemma obstacleProb_threshold_witness :
  (Qabs (f2Q (obstacleProb 7 true) - obstacleProbQ 7 true) <= 1 # (2 ^ 53))%Q
  /\ (obstacleProbQ 8 false == obstacleProbQ 7 false + (2 # 100))%Q
  /\ obstacleProb 25 false = 0.6%float.
Proof.
  destruct obstacleProb_threshold as (_ & _ & H1 & H2 & _ & H3 & _).
  split; [apply H1; lia |]. split; [apply (H3 7); lia | apply H2; lia].
Defined.

(** C5 as stated fails: an obstacle that hits the player becomes inactive
    and is still in the registry at the end of the frame. *)
Lemma hit_obstacle_stays_in_registry :
  let t := tick 2.2 20 (frame16 22.5) (mkRefs [obstacleAhead] 0 0) in
  map active [obstacleAhead] = [true]
  /\ snd t = [PlayerHit; SetShowJumpAlert false; SetRenderTrigger]
  /\ map id (objects (fst t)) = [id obstacleAhead]
  /\ map active (objects (fst t)) = [false].
Proof. vm_compute. repeat split; reflexivity. Defined.

(** C5 as amended, on the same frame, and on the frame that carries the
    spent obstacle past the removal boundary. *)
Lemma deactivated_entities_witness :
  let f := frame16 22.5 in
  let spent := setPosition (vec3 0 0.8 19.9) (setActive false obstacleAhead) in
  objects (fst (tick 2.2 20 f (mkRefs [obstacleAhead] 0 0)))
  = map p_obj (filter p_keep (processAll 2.2 20 f 0 [obstacleAhead]))
  /\ p_effects (processObject 2.2 20 f 0 (setActive false obstacleAhead)) = []
  /\ p_obj (processObject 2.2 20 f 0 (setActive false obstacleAhead))
     = move f (setActive false obstacleAhead)
  /\ In (move f (setActive false obstacleAhead))
        (objects (fst (tick 2.2 20 f
                            (mkRefs [setActive false obstacleAhead] 0 0))))
  /\ objects (fst (tick 2.2 20 f (mkRefs [spent] 0 0))) = [].
Proof.
  cbv zeta.
  destruct (deactivated_entities 2.2 20 (frame16 22.5))
    as (_ & H2 & _ & H4 & _ & _ & H7).
  destruct (H2 0%nat (setActive false obstacleAhead) eq_refl)
    as (Hm & _ & He & _).
  split; [| split; [| split; [| split]]].
  - rewrite (H4 (mkRefs [obstacleAhead] 0 0) eq_refl). vm_compute. reflexivity.
  - exact He.
  - exact Hm.
  - apply (H7 (mkRefs [setActive false obstacleAhead] 0 0) 0%nat
              (setActive false obstacleAhead) eq_refl eq_refl eq_refl).
    vm_compute. reflexivity.
  - rewrite (H4 (mkRefs [_] 0 0) eq_refl). vm_compute. reflexivity.
Defined.

(** C6, on an obstacle that one frame carries from three units ahead of the
    player to seven units behind. *)
Lemma hazard_hit_once_witness :
  let f := frameFast 22.5 in
  let p := processObject 2.2 20 f 0 obstacleFar in
  (at2 (position obstacleFar) <? at2 (playerPos f) - 2)%float = true
  /\ (at2 (playerPos f) + 2 <? at2 (position (p_obj p)))%float = true
  /\ In PlayerHit (p_effects p)
  /\ hitCount (p_effects p) = 1%nat
  /\ active (p_obj p) = false
  /\ hitsOver 2.2 20 [(false, f, 0%nat); (false, f, 0%nat); (false, f, 0%nat)]
              obstacleFar = 1%nat.
Proof.
  cbv zeta.
  destruct (hazard_hit_once 2.2 20 (frameFast 22.5) 0 obstacleFar eq_refl)
    as (Hiff & Hone & _ & Hex & _).
  assert (Hin : In PlayerHit
                   (p_effects
                      (processObject 2.2 20 (frameFast 22.5) 0 obstacleFar)))
    by (apply Hiff; vm_compute; repeat split; reflexivity).
  destruct (Hone Hin) as [H1 H2].
  split; [vm_compute; reflexivity |]. split; [vm_compute; reflexivity |].
  split; [exact Hin |]. split; [exact H1 |]. split; [exact H2 |].
  apply (Hex _ Hin).
Defined.

(** C7, on the documented example: 500 of currency. *)
Lemma buyItem_EXCHANGE_witness :
  let s := (playing 22.5) <| upd_currency 500 |> in
  result (buyItem "EXCHANGE" 123456) s = true
  /\ score (after (buyItem "EXCHANGE" 123456) s) = score s + 50000
  /\ currency (after (buyItem "EXCHANGE" 123456) s) = 0.
Proof.
  cbv zeta.
  destruct (buyItem_EXCHANGE ((playing 22.5) <| upd_currency 500 |>) 123456)
    as (_ & _ & H).
  apply H. reflexivity.
Defined.

(** C8, on a run with five magnet levels and three shields that is hit
    and shops. *)
Lemma counters_clamped_witness :
  let s := (playing 22.5) <| upd_magnetLevel 5 |> <| upd_shieldCount 3 |>
                          <| upd_currency 1000 |> in
  clamped (run [Damage; Buy "SHIELD" 10; Buy "SHIELD" 10; Buy "MAGNET" 10;
                Damage; Damage; Damage; Damage] s)
  /\ result (buyItem "MAGNET" 10) s = false.
Proof.
  cbv zeta. destruct counters_clamped as (H & Hm & _). split.
  - apply H. vm_compute. repeat split; discriminate.
  - unfold result. rewrite Hm; [reflexivity | vm_compute; discriminate].
Defined.

(** C9, on an item the shop does not know. *)
Lemma buyItem_unrecognised_witness :
  let s := (playing 22.5) <| upd_currency 100 |> in
  result (buyItem "TELEPORT" 40) s = true
  /\ after (buyItem "TELEPORT" 40) s = s <| upd_currency 60 |>.
Proof.
  cbv zeta.
  pose proof (buyItem_unrecognised ((playing 22.5) <| upd_currency 100 |>)
                "TELEPORT" 40) as H.
  assert (N : "TELEPORT" <> "EXCHANGE") by discriminate.
  assert (R : ~ In "TELEPORT" recognised)
    by (cbn; intros X; repeat destruct X as [X | X]; discriminate X || exact X).
  specialize (H N R ltac:(cbn; lia)).
  unfold result, after. rewrite H. split; reflexivity.
Defined.

(** C10, on the indices -1 and 6 as the sixth letter of the last level. *)
Lemma collectLetter_unvalidated_witness :
  let s := (playing 22.5) <| upd_level 5 |>
                          <| upd_collectedLetters [0; 1; 2; 3; 4] |> in
  status (after (collectLetter 22.5 (-1)) s) = VICTORY
  /\ collectedLetters (after (collectLetter 22.5 (-1)) s)
     = [0; 1; 2; 3; 4; -1]
  /\ status (after (collectLetter 22.5 6) s) = VICTORY.
Proof.
  cbv zeta.
  assert (N1 : ~ In (-1) [0; 1; 2; 3; 4]) by (cbn; lia).
  assert (N2 : ~ In 6 [0; 1; 2; 3; 4]) by (cbn; lia).
  destruct (collectLetter_unvalidated 22.5
              ((playing 22.5) <| upd_level 5 |>
                              <| upd_collectedLetters [0; 1; 2; 3; 4] |>)
              (-1) N1) as (_ & _ & H1).
  destruct (collectLetter_unvalidated 22.5
              ((playing 22.5) <| upd_level 5 |>
                              <| upd_collectedLetters [0; 1; 2; 3; 4] |>)
              6 N2) as (_ & _ & H2).
  destruct (H1 eq_refl 5 eq_refl ltac:(cbn; lia)) as (A & _ & B).
  destruct (H2 eq_refl 5 eq_refl ltac:(cbn; lia)) as (C & _).
  repeat split; assumption.
Defined.

(** C4 as stated fails: at level 1 the threshold is 22%, not 20%, so that a
    draw of 0.21 takes the obstacle path. *)
Lemma level1_threshold_is_22_percent :
  obstacleProb 1 false = 0.22%float
  /\ (obstacleProb 1 false =? 0.20)%float = false
  /\ (0.21 <? 0.20)%float = false
  /\ nonLetterBranch 1 false 0.5 0.21 = Some true
  /\ ~ (obstacleProbQ 1 false == 20 # 100)%Q.
Proof.
  repeat split; try (vm_compute; reflexivity).
  vm_compute. discriminate.
Defined.


(** X4, on a run of three levels in which the player is hit, collects a gem
    and a letter and buys a shield. *)
Lemma restartGame_round_trip_witness :
  let cs := [CTakeDamage; CCollectGem 10 false; CCollectLetter 0;
             CBuyItem "SHIELD" 5] in
  Forall (fun c => withinRun c = true) cs
  /\ state (snd (restartGame 22.5
                   (performAll 22.5 cs
                      (snd (call (startGame 22.5 (Levels 3)) initialState)))))
     = after (startGame 22.5 (Levels 3)) initialState.
Proof.
  cbv zeta. split; [repeat constructor |].
  apply restartGame_round_trip. repeat constructor.
Defined.


(** X6, on a first game in which the immortality is activated and runs
    out, and on a restart inside a time-warp window: the next window is cut
    short by the timer of the first. *)
Lemma timed_flags_witness :
  let cs := [CBuyItem "IMMORTAL" 0; CActivateImmortality; CTimer 0] in
  let open := performAll 22.5 [CBuyItem "TIME_WARP" 0; CActivateTimeWarp]
                         (snd (call (startGame 22.5 Infinity) initialState))
  in
  let again := performAll 22.5
                 [CRestartGame; CBuyItem "TIME_WARP" 0; CActivateTimeWarp;
                  CTimer 0] open in
  timed (performAll 22.5 cs (snd (startGame 22.5 (Levels 3) initialWorld)))
  /\ (timed open /\ ~ timed (snd (startGame 22.5 Infinity open)))
  /\ (isTimeWarpActive (state again) = false
      /\ timeWarpTimers again = 1%nat).
Proof.
  cbv zeta.
  assert (Hcs : Forall (fun c => withinRun c = true)
                  [CBuyItem "IMMORTAL" 0; CActivateImmortality; CTimer 0])
    by (repeat constructor).
  split; [| split].
  - destruct (timed_flags 22.5 initialWorld (Levels 3) _
                ltac:(constructor) Hcs) as (_ & _ & H & _).
    apply H; vm_compute; reflexivity.
  - assert (Hf : flagTimers
                   (performAll 22.5
                      [CBuyItem "TIME_WARP" 0; CActivateTimeWarp]
                      (snd (call (startGame 22.5 Infinity) initialState))))
      by (vm_compute; constructor;
          [right; left; reflexivity | constructor]).
    assert (Ht : timed
                   (performAll 22.5
                      [CBuyItem "TIME_WARP" 0; CActivateTimeWarp]
                      (snd (call (startGame 22.5 Infinity) initialState))))
      by (split; vm_compute; reflexivity).
    split; [exact Ht |].
    destruct (timed_flags 22.5 _ Infinity [] Hf ltac:(constructor))
      as (_ & _ & _ & H).
    apply (H Ht). right. vm_compute. reflexivity.
  - split; vm_compute; reflexivity.
Defined.

(** X7, on a blast at 20 s followed by a hit and a press at 30 s. *)
Lemma sonicBlast_cooldown_witness :
  let w := mkWorld ((playing 22.5) <| upd_hasSonicBlast true |>) [] [] [] in
  flagTimers w
  /\ fst (triggerSonicBlast 20000 w) = true
  /\ fst (triggerSonicBlast 30000
            (performAll 22.5 [CTakeDamage]
               (snd (triggerSonicBlast 20000 w)))) = false.
Proof.
  cbv zeta. split; [constructor |].
  split; [vm_compute; reflexivity |].
  rewrite (sonicBlast_cooldown 22.5
             (mkWorld ((playing 22.5) <| upd_hasSonicBlast true |>) [] [] [])
             20000 30000 [CTakeDamage]);
    [reflexivity | constructor | vm_compute; reflexivity
     | repeat constructor].
Defined.

(** X14, on the change to level 2 with an obstacle one unit ahead. *)
Lemma level_up_portal_witness :
  let m := mkManager (mkRefs [obstacleAhead] 0 0) 150 PLAYING 1 in
  objects (refs (fst (fst (onTransition 120 (samplePlatform 0.5) PLAYING 2
                                        "p" m))))
  = [obstacleAhead; shopPortal "p"].
Proof.
  cbv zeta.
  pose proof (level_up_portal 120 (samplePlatform 0.5) 2 "p" "q"
                (mkManager (mkRefs [obstacleAhead] 0 0) 150 PLAYING 1)
                ltac:(discriminate) ltac:(discriminate) ltac:(discriminate)
                ltac:(reflexivity)) as H.
  destruct (onTransition _ _ _ _ _ _) as [[m' calls] render].
  destruct H as [H _]. cbn [fst]. rewrite H. vm_compute. reflexivity.
Defined.

(** X15, on the sixth letter of level 1 in a run of five levels. *)
Lemma word_completed_opens_portal_witness :
  let s := (playing 22.5) <| upd_collectedLetters [0; 1; 2; 3; 4] |> in
  let m := mkManager (mkRefs [] 0 0) 150 PLAYING 1 in
  let s' := after (collectLetter 22.5 5) s in
  continues s
  /\ level s' = 2
  /\ In (shopPortal "p")
        (objects (refs (fst (fst (onTransition 120 (samplePlatform 0.5)
                                               (status s') (level s') "p"
                                               m))))).
Proof.
  cbv zeta.
  assert (C : continues
                ((playing 22.5) <| upd_collectedLetters [0; 1; 2; 3; 4] |>))
    by (right; exists 5; split; [reflexivity | vm_compute; reflexivity]).
  split; [exact C |].
  pose proof (word_completed_opens_portal 22.5 120 (samplePlatform 0.5)
                ((playing 22.5) <| upd_collectedLetters [0; 1; 2; 3; 4] |>)
                5 "p" (mkManager (mkRefs [] 0 0) 150 PLAYING 1)
                ltac:(vm_compute; intuition discriminate)
                ltac:(reflexivity) C ltac:(vm_compute; discriminate)
                ltac:(reflexivity) ltac:(reflexivity)) as H.
  cbv zeta in H.
  destruct (onTransition _ _ _ _ _ _) as [[m' calls] render].
  destruct H as (_ & Hl & _ & Hin & _).
  split; [rewrite Hl; reflexivity | exact Hin].
Defined.

(** X27, on a frame in which an alien fires. *)
Lemma frame_keeps_ids_distinct_witness :
  let r := mkRefs [alienAhead; obstacleAhead] 0 0 in
  map id (objects (fst (tick 2.2 20 (frame16 22.5) r))) = ["a1"; "o1"; "m"]
  /\ NoDup (map id (objects (fst (tick 2.2 20 (frame16 22.5) r)))).
Proof.
  cbv zeta. split; [vm_compute; reflexivity |].
  apply frame_keeps_ids_distinct. vm_compute.
  repeat (constructor; [cbn; intuition discriminate |]). constructor.
Defined.

(** X18, on a frame of the first level with the lanes left in order. *)
Lemma frame_is_tick_with_planner_witness :
  let colors := ["#1"; "#2"; "#3"; "#4"; "#5"; "#6"] in
  let pf := samplePlatform 0.5 in
  let r := mkRefs [obstacleAhead] 0 0 in
  fst (fst (frame 2.2 20 120 colors pf (frame16 22.5) r 150))
  = fst (tick 2.2 20 (withPlanned 2.2 20 120 colors pf (frame16 22.5) r 150)
              r).
Proof.
  cbv zeta.
  apply (frame_is_tick_with_planner 2.2 20 120
           ["#1"; "#2"; "#3"; "#4"; "#5"; "#6"] (samplePlatform 0.5)
           (frame16 22.5) (mkRefs [obstacleAhead] 0 0) 150);
    [vm_compute; discriminate | vm_compute; reflexivity].
Defined.

(** X20, on the three lanes of the first level with every draw at 0. *)
Lemma hazard_row_layout_witness :
  let row := planRow 2.2 (samplePlatform 0) (playing 22.5) (-120) in
  map type row = [OBSTACLE; GEM; GEM; GEM]
  /\ exists hz gm : list Z,
       hazardXs row = map (laneX 2.2) hz
       /\ groundGemXs row = map (laneX 2.2) gm
       /\ NoDup (hz ++ gm)
       /\ Forall (fun lane => - maxLane 3 <= lane <= maxLane 3) (hz ++ gm)
       /\ (1 <= List.length hz <= 3)%nat.
Proof.
  cbv zeta. split; [vm_compute; reflexivity |].
  apply (hazard_row_layout 2.2 (samplePlatform 0) (playing 22.5) (-120));
    [apply Permutation_refl | vm_compute; discriminate
     | vm_compute; reflexivity].
Defined.

(** X21, on a draw of 0.5 with no letter collected: the fourth glyph. *)
Lemma planned_letter_witness :
  let colors := ["#1"; "#2"; "#3"; "#4"; "#5"; "#6"] in
  map targetIndex
      (fst (planLetter 2.2 colors (samplePlatform 0.5) (playing 22.5) (-120)))
  = [Some 3]
  /\ exists i o glyph,
       planLetter 2.2 colors (samplePlatform 0.5) (playing 22.5) (-120)
       = ([o], true)
       /\ type o = LETTER /\ targetIndex o = Some i
       /\ 0 <= i < 6 /\ ~ In i (collectedLetters (playing 22.5))
       /\ nth_error GEMINI_TARGET (Z.to_nat i) = Some glyph
       /\ value o = Some glyph
       /\ color o = nth_error colors (Z.to_nat i)
       /\ In (CollectLetter i) (collectEffects o)
       /\ includes (collectedLetters (playing 22.5)) i = false.
Proof.
  cbv zeta. split; [vm_compute; reflexivity |].
  apply (planned_letter 2.2 ["#1"; "#2"; "#3"; "#4"; "#5"; "#6"]
           (samplePlatform 0.5) (playing 22.5) (-120)).
  vm_compute. split; [discriminate | reflexivity].
Defined.

(** X23, on a shield bought with the VIP card: 120 for 150. *)
Lemma vip_discount_exact_witness :
  let s := (playing 22.5) <| upd_hasDiscount true |> <| upd_currency 1000 |>
  in
  let item := mkShopItem "SHIELD" 150 false in
  In item SHOP_ITEMS /\ isDisabled s item = false
  /\ 5 * finalCost s item = 4 * cost item
  /\ result (buyItem (item_id item) (finalCost s item)) s = true
  /\ 5 * (currency s
          - currency (after (buyItem (item_id item) (finalCost s item)) s))
     = 4 * cost item.
Proof.
  cbv zeta.
  assert (Hin : In (mkShopItem "SHIELD" 150 false) SHOP_ITEMS)
    by (unfold SHOP_ITEMS; cbn; tauto).
  split; [exact Hin |]. split; [vm_compute; reflexivity |].
  apply vip_discount_exact;
    [exact Hin | vm_compute; reflexivity | vm_compute; reflexivity].
Defined.

(** X24, on a fresh run with the pool left in order. *)
Lemma shop_offers_witness :
  map item_id (generateShopItems (fun l => l) (playing 22.5))
  = ["DOUBLE_JUMP"; "MAX_LIFE"; "IMMORTAL"]
  /\ List.length (generateShopItems (fun l => l) (playing 22.5)) = 3%nat.
Proof.
  split; [vm_compute; reflexivity |].
  exact (proj1 (shop_offers (fun l => l) (playing 22.5)
                            (fun l => Permutation_refl l))).
Defined.
